(** * Motif classification of tactical chess lines: the tag orchestrator

    A shallow embedding of [replica/cook.py]: the orchestrator [cook] and the
    motif detectors it calls, over an interface for the chess rules engine
    (python-chess) and for the helper module [util], neither of which is part
    of the sources at hand; and of what [replica/tagger.py] computes from the
    tags of [cook].  Python exceptions (failed [assert]s, list indices out of
    range) are results of an error monad. *)

From Stdlib Require Import ZArith List Bool String Lia Arith.
Import ListNotations.
Local Open Scope string_scope.
Local Open Scope list_scope.
Local Open Scope Z_scope.

(** ** Exceptions as values *)

Inductive exn : Type :=
| AssertionError
| IndexError.

Inductive result (A : Type) : Type :=
| Ok (a : A)
| Raise (e : exn).
Arguments Ok {A} a.
Arguments Raise {A} e.

Definition bind {A B : Type} (c : result A) (k : A -> result B) : result B :=
  match c with
  | Ok a => k a
  | Raise e => Raise e
  end.

Notation "x <- c ;; k" := (bind c (fun x => k))
  (at level 61, c at next level, right associativity).

Notation "'check' b ;; k" := (if b then k else Raise AssertionError)
  (at level 61, b at next level, right associativity).

Definition returns {A : Type} (c : result A) : Prop := exists a, c = Ok a.

(** A Python [for] loop whose body may [return]: the body answers [Some r]
    for [return r] and [None] to go on with the next element; [orelse] is
    the code after the loop. *)
Fixpoint for_each {A R : Type} (l : list A) (body : A -> result (option R))
    (orelse : result R) : result R :=
  match l with
  | [] => orelse
  | a :: l' =>
      r <- body a ;;
      match r with
      | Some x => Ok x
      | None => for_each l' body orelse
      end
  end.

(** The same loop with a body that cannot raise.  A loop that only
    answers [True] at the first hit and [False] after the last element is
    written with [existsb]. *)
Fixpoint for_pure {A R : Type} (l : list A) (body : A -> option R)
    (orelse : R) : R :=
  match l with
  | [] => orelse
  | a :: l' =>
      match body a with
      | Some x => x
      | None => for_pure l' body orelse
      end
  end.

(** ** Python list slices *)

(** [l[k:]] *)
Definition from (k : nat) {A : Type} (l : list A) : list A := skipn k l.

(** [l[::2]] *)
Fixpoint step2 {A : Type} (l : list A) : list A :=
  match l with
  | [] => []
  | a :: [] => [a]
  | a :: _ :: l' => a :: step2 l'
  end.

(** [l[:-1]] *)
Definition but_last {A : Type} (l : list A) : list A := removelast l.

(** [l[i]] for an index [i >= 0], and [l[-k]] for [k >= 1]. *)
Definition index {A : Type} (l : list A) (i : nat) : result A :=
  match nth_error l i with
  | Some a => Ok a
  | None => Raise IndexError
  end.

Definition index_neg {A : Type} (l : list A) (k : nat) : result A :=
  if (List.length l <? k)%nat then Raise IndexError
  else index l (List.length l - k).

(** ** Squares, pieces, moves (python-chess) *)

Definition Color := bool.

Definition WHITE : Color := true.

Definition BLACK : Color := false.

Inductive PieceType : Type := PAWN | KNIGHT | BISHOP | ROOK | QUEEN | KING.

(** The integer python-chess gives a piece type. *)
Definition code (pt : PieceType) : Z :=
  match pt with
  | PAWN => 1 | KNIGHT => 2 | BISHOP => 3 | ROOK => 4 | QUEEN => 5 | KING => 6
  end.

Definition pt_eqb (a b : PieceType) : bool := code a =? code b.

Record Piece : Type := mkPiece { piece_type : PieceType; color : Color }.

Definition piece_eqb (p q : Piece) : bool :=
  pt_eqb (piece_type p) (piece_type q) && Bool.eqb (color p) (color q).

(** A square is an integer 0..63, a1 = 0, h1 = 7, a8 = 56. *)
Definition Square := Z.

Definition square_file (s : Square) : Z := Z.land s 7.

Definition square_rank (s : Square) : Z := Z.shiftr s 3.

Definition square (file rank : Z) : Square := rank * 8 + file.

Definition square_distance (a b : Square) : Z :=
  Z.max (Z.abs (square_file a - square_file b))
        (Z.abs (square_rank a - square_rank b)).

Definition SQUARES : list Square := map Z.of_nat (seq 0 64).

Definition E1 : Square := 4.

Definition F2 : Square := 13.

Definition F7 : Square := 53.

Definition E8 : Square := 60.

(** A [SquareSet] is a 64-bit mask; iterating it yields its squares in
    ascending order. *)
Definition SquareSet := Z.

Definition BB_ALL : SquareSet := 2 ^ 64 - 1.

Definition mem (s : Square) (m : SquareSet) : bool := Z.testbit m s.

Definition squares_of (m : SquareSet) : list Square :=
  filter (fun s => mem s m) SQUARES.

Definition nonempty (m : SquareSet) : bool :=
  match squares_of m with [] => false | _ => true end.

Definition add (s : Square) (m : SquareSet) : SquareSet :=
  Z.lor m (Z.shiftl 1 s).

(** [BB_SQUARES[s]], the mask of one square, is a lookup in a list of 64
    masks: Python takes an index from -64 to 63, the negative ones counting
    from the end, and raises for any other.  [SquareSet.from_square],
    [SquareSet.add] and [board.piece_at] all go through it; the detectors
    call them with squares of moves and of square sets, which are squares
    of the board, and in three places with a square they compute, where the
    lookup is written out. *)
Definition BB_SQUARES (s : Z) : result SquareSet :=
  if (-64 <=? s) && (s <? 64) then Ok (Z.shiftl 1 (s mod 64))
  else Raise IndexError.

Definition SquareSet_from_square (s : Z) : result SquareSet := BB_SQUARES s.

Definition SquareSet_add (s : Z) (m : SquareSet) : result SquareSet :=
  bb <- BB_SQUARES s ;; Ok (Z.lor m bb).

(** [m.pop() if m else None]: the lowest square of the set. *)
Definition pop_or_none (m : SquareSet) : option Square := hd_error (squares_of m).

Definition is_all (m : SquareSet) : bool := Z.land m BB_ALL =? BB_ALL.

(** The image of a mask under a permutation [f] of the squares. *)
Definition transform_mask (f : Square -> Square) (m : SquareSet) : SquareSet :=
  fold_right (fun s acc => if mem (f s) m then add s acc else acc) 0 SQUARES.

Record Move : Type := mkMove {
  from_square : Square;
  to_square : Square;
  promotion : option PieceType
}.

Definition move_eqb (a b : Move) : bool :=
  (from_square a =? from_square b) && (to_square a =? to_square b) &&
  match promotion a, promotion b with
  | None, None => true
  | Some x, Some y => pt_eqb x y
  | _, _ => false
  end.

(** [bool(move)]: only the null move is false. *)
Definition move_truthy (m : Move) : bool :=
  negb (from_square m =? 0) || negb (to_square m =? 0) ||
  match promotion m with Some _ => true | None => false end.

Definition is_some {A : Type} (o : option A) : bool :=
  match o with Some _ => true | None => false end.

(** ** Positions *)

(** The piece placement is held as it is; what depends on the rules of
    chess is asked of the engine interface below. *)
Record Board : Type := mkBoard {
  piece_at : Square -> option Piece;
  turn : Color;
  castling_rights : SquareSet;
  ep_square : option Square
}.

(** [board.piece_map().values()]: the pieces on the board (python-chess
    scans the occupied squares downwards). *)
Definition piece_map_values (b : Board) : list Piece :=
  flat_map (fun s => match piece_at b s with Some p => [p] | None => [] end)
           (rev SQUARES).

Definition piece_map_items (b : Board) : list (Square * Piece) :=
  flat_map (fun s => match piece_at b s with Some p => [(s, p)] | None => [] end)
           (rev SQUARES).

(** [board.pieces(piece_type, color)], as the list of its squares. *)
Definition pieces (b : Board) (pt : PieceType) (c : Color) : list Square :=
  filter (fun s => match piece_at b s with
                   | Some p => piece_eqb p (mkPiece pt c)
                   | None => false
                   end) SQUARES.

(** [board.king(color)]: the square of the king, [None] without one. *)
Definition king (b : Board) (c : Color) : option Square :=
  hd_error (rev (pieces b KING c)).

(** [board.piece_at(s)] for a square [s] that the caller computes. *)
Definition piece_at_index (b : Board) (s : Z) : result (option Piece) :=
  _ <- BB_SQUARES s ;; Ok (piece_at b (s mod 64)).

(** [board.mirror()]: flipped vertically, colours and turn swapped. *)
Definition mirror (b : Board) : Board :=
  {| piece_at := fun s =>
       match piece_at b (Z.lxor s 56) with
       | Some p => Some (mkPiece (piece_type p) (negb (color p)))
       | None => None
       end;
     turn := negb (turn b);
     castling_rights := transform_mask (fun s => Z.lxor s 56) (castling_rights b);
     ep_square := option_map (fun s => Z.lxor s 56) (ep_square b) |}.

(** [board.apply_transform(chess.flip_horizontal)]. *)
Definition flip_horizontal (b : Board) : Board :=
  {| piece_at := fun s => piece_at b (Z.lxor s 7);
     turn := turn b;
     castling_rights := transform_mask (fun s => Z.lxor s 7) (castling_rights b);
     ep_square := option_map (fun s => Z.lxor s 7) (ep_square b) |}.

(** ** The rules engine *)

(** What [cook.py] asks of python-chess beyond the placement of the pieces.
    The library is outside the repository: its answers are taken as they
    come.  [push] plays a move; the detectors never call it, the nodes of a
    line hold the positions it gave. *)
Class Engine : Type := {
  is_check : Board -> bool;
  is_checkmate : Board -> bool;
  checkers : Board -> SquareSet;
  attackers : Board -> Color -> Square -> SquareSet;
  attacks : Board -> Square -> SquareSet;
  pin : Board -> Color -> Square -> SquareSet;
  legal_moves : Board -> list Move;
  pseudo_legal_moves : Board -> list Move;
  between : Square -> Square -> SquareSet;
  push : Board -> Move -> Board
}.

(** ** The line: nodes of the game tree *)

(** One step of the line: the move played and the position it leads to. *)
Record Ply : Type := mkPly { ply_move : Move; ply_board : Board }.

(** A [chess.pgn.ChildNode] of a line without side variations, with the
    steps above it (nearest first), the steps below it, and the position at
    the root of the game. *)
Record ChildNode : Type := mkChild {
  root_board : Board;
  above : list Ply;
  own : Ply;
  below : list Ply
}.

(** A [chess.pgn.GameNode]: the root [Game] or a [ChildNode]. *)
Inductive GameNode : Type :=
| Game (root : Board) (line : list Ply)
| Child (c : ChildNode).

Definition move (c : ChildNode) : Move := ply_move (own c).

(** [node.parent] of a [ChildNode] is a [GameNode]. *)
Definition parent (c : ChildNode) : GameNode :=
  match above c with
  | [] => Game (root_board c) (own c :: below c)
  | p :: ps => Child (mkChild (root_board c) ps p (own c :: below c))
  end.

(** [node.parent] of a [GameNode]: [None] at the root. *)
Definition gparent (g : GameNode) : option GameNode :=
  match g with
  | Game _ _ => None
  | Child c => Some (parent c)
  end.

(** [node.move] of a [GameNode]: [None] at the root. *)
Definition gmove (g : GameNode) : option Move :=
  match g with
  | Game _ _ => None
  | Child c => Some (move c)
  end.

(** [node.board()] *)
Definition board (c : ChildNode) : Board := ply_board (own c).

Definition gboard (g : GameNode) : Board :=
  match g with
  | Game r _ => r
  | Child c => board c
  end.

(** [assert isinstance(g, ChildNode)] *)
Definition as_child (g : GameNode) : result ChildNode :=
  match g with
  | Child c => Ok c
  | Game _ _ => Raise AssertionError
  end.

(** [assert isinstance(g.parent, ChildNode)] for a [GameNode] [g]: at the
    root [g.parent] is [None], and the assertion fails. *)
Definition parent_child (g : GameNode) : result ChildNode :=
  match gparent g with
  | Some p => as_child p
  | None => Raise AssertionError
  end.

(** [node.is_end()]: no move follows. *)
Definition is_end (c : ChildNode) : bool :=
  match below c with [] => true | _ => false end.

(** [node.turn()]: the side to move at the node, from the root's side to
    move and the number of half-moves played since. *)
Definition node_turn (c : ChildNode) : Color :=
  if Nat.even (List.length (above c))
  then negb (turn (root_board c)) else turn (root_board c).

(** The nodes of a line, first to last: [list(game.mainline())]. *)
Fixpoint chain (r : Board) (ab : list Ply) (bl : list Ply) : list ChildNode :=
  match bl with
  | [] => []
  | p :: rest => mkChild r ab p rest :: chain r (p :: ab) rest
  end.

(** Modelled from the spec: [model.Variation] is not among the sources.  The
    unit of classification holds an identifier, the game (the position before
    the line and the line itself), the evaluation [cp] and the side [pov]
    that plays the solution; [mainline] is the list of the line's nodes. *)
Record Variation : Type := mkVariation {
  id : string;
  game_root : Board;
  game_line : list Ply;
  cp : Z;
  pov : Color
}.

Definition game (v : Variation) : GameNode := Game (game_root v) (game_line v).

Definition mainline (v : Variation) : list ChildNode :=
  chain (game_root v) [] (game_line v).

(** [game.end()]: the last node of the line, the root for an empty line. *)
Definition game_end (v : Variation) : GameNode :=
  match rev (mainline v) with
  | [] => game v
  | c :: _ => Child c
  end.

(** Modelled from the spec: [util.next_node] and [util.next_next_node] are
    not among the sources; forward lookahead through the chain, absent past
    the end. *)
Definition next_node (c : ChildNode) : option ChildNode :=
  match below c with
  | [] => None
  | p :: rest => Some (mkChild (root_board c) (own c :: above c) p rest)
  end.

Definition next_next_node (c : ChildNode) : option ChildNode :=
  match next_node c with
  | Some n => next_node n
  | None => None
  end.

(** ** The helper module *)

(** Modelled from the spec: [util.values] and [util.material_diff] are not
    among the sources.  Material value: pawn 1, knight 3, bishop 3, rook 5,
    queen 9, king 0; the material difference is the signed sum of the values
    of all pieces, positive in favour of [side]. *)
Definition values (pt : PieceType) : Z :=
  match pt with
  | PAWN => 1 | KNIGHT => 3 | BISHOP => 3 | ROOK => 5 | QUEEN => 9 | KING => 0
  end.

Definition material_diff (b : Board) (side : Color) : Z :=
  fold_right Z.add 0
    (map (fun p => if Bool.eqb (color p) side
                   then values (piece_type p) else - values (piece_type p))
         (piece_map_values b)).

(** Modelled from the spec: [util.ray_piece_types] is not among the sources;
    the pieces whose lines can be blocked: bishop, rook, queen. *)
Definition ray_piece_types : list PieceType := [QUEEN; ROOK; BISHOP].

Definition pt_in (pt : PieceType) (l : list PieceType) : bool :=
  existsb (pt_eqb pt) l.

(** The other helpers of [util] that the detectors call, none of them among
    the sources.  The spec has them as stateless predicates that never
    raise; their results are taken as they come.  [king_value] is the
    attack-priority value of the king, the other entries of
    [util.king_values] being those of [values]. *)
Class Util : Type := {
  king_value : Z;
  is_hanging : Board -> Piece -> Square -> bool;
  is_trapped : Board -> Square -> bool;
  is_in_bad_spot : Board -> Square -> bool;
  attacked_opponent_squares : Board -> Square -> Color -> list (Piece * Square);
  attacked_opponent_pieces : Board -> Square -> Color -> list Piece;
  attacker_pieces : Board -> Color -> Square -> list Piece;
  is_very_advanced_pawn_move : ChildNode -> bool;
  is_advanced_pawn_move : ChildNode -> bool;
  is_capture : ChildNode -> bool;
  is_castling : ChildNode -> bool;
  moved_piece_type : ChildNode -> PieceType
}.

Definition king_values `{Util} (pt : PieceType) : Z :=
  match pt with
  | KING => king_value
  | _ => values pt
  end.

Definition TagKind := string.

(** * The detectors *)

Section Detectors.

Context {E : Engine} {U : Util}.

(** [len(l)] as an integer. *)
Definition len {A : Type} (l : list A) : Z := Z.of_nat (List.length l).

(** The pov's moves, [mainline[1::2]], and those after the first,
    [mainline[1::2][1:]]. *)
Definition solving (v : Variation) : list ChildNode := step2 (from 1 (mainline v)).

Definition later_solving (v : Variation) : list ChildNode := from 1 (solving v).

(** [board.king(color)] followed by [assert king is not None]. *)
Definition king_of (b : Board) (c : Color) : result Square :=
  match king b c with
  | Some k => Ok k
  | None => Raise AssertionError
  end.

(** [assert m] for an optional move [m]. *)
Definition some_move (m : option Move) : result Move :=
  match m with
  | Some x => check move_truthy x ;; Ok x
  | None => Raise AssertionError
  end.

Definition color_is (c : Color) (p : Piece) : bool := Bool.eqb (color p) c.

(** ** Mates *)

Definition mate_in (v : Variation) : option TagKind :=
  if negb (is_checkmate (gboard (game_end v))) then None
  else
    let moves_to_mate := len (mainline v) / 2 in
    if moves_to_mate =? 1 then Some "mateIn1"
    else if moves_to_mate =? 2 then Some "mateIn2"
    else if moves_to_mate =? 3 then Some "mateIn3"
    else if moves_to_mate =? 4 then Some "mateIn4"
    else Some "mateIn5".

Definition smothered_mate (v : Variation) : result bool :=
  let board := gboard (game_end v) in
  king_square <- king_of board (negb (pov v)) ;;
  for_each (squares_of (checkers board)) (fun checker_square =>
    match piece_at board checker_square with
    | None => Raise AssertionError
    | Some piece =>
        if pt_eqb (piece_type piece) KNIGHT then
          Ok (Some (forallb (fun escape_square =>
                      match piece_at board escape_square with
                      | None => false
                      | Some blocker => negb (color_is (pov v) blocker)
                      end)
                    (filter (fun s => square_distance s king_square =? 1) SQUARES)))
        else Ok None
    end) (Ok false).

Definition back_rank_mate (v : Variation) : result bool :=
  let node := game_end v in
  let board := gboard node in
  king <- king_of board (negb (pov v)) ;;
  _ <- as_child node ;;
  let back_rank := if pov v then 7 else 0 in
  if is_checkmate board && (square_rank king =? back_rank) then
    squares <- SquareSet_from_square (king + (if pov v then -8 else 8)) ;;
    squares <-
      (if pov v then
         squares <- (if square_file king <? 7 then SquareSet_add (king - 7) squares
                     else Ok squares) ;;
         if square_file king >? 0 then SquareSet_add (king - 9) squares else Ok squares
       else
         squares <- (if square_file king <? 7 then SquareSet_add (king + 9) squares
                     else Ok squares) ;;
         if square_file king >? 0 then SquareSet_add (king + 7) squares else Ok squares) ;;
    if existsb (fun square =>
                  match piece_at board square with
                  | None => true
                  | Some piece =>
                      color_is (pov v) piece || nonempty (attackers board (pov v) square)
                  end) (squares_of squares)
    then Ok false
    else Ok (existsb (fun checker => square_rank checker =? back_rank)
                     (squares_of (checkers board)))
  else Ok false.

Definition z_in (x : Z) (l : list Z) : bool := existsb (Z.eqb x) l.

Definition anastasia_mate (v : Variation) : result bool :=
  let node := game_end v in
  let board := gboard node in
  king <- king_of board (negb (pov v)) ;;
  node <- as_child node ;;
  if z_in (square_file king) [0; 7] && negb (z_in (square_rank king) [0; 7]) then
    if (square_file (to_square (move node)) =? square_file king)
       && pt_in (moved_piece_type node) [QUEEN; ROOK] then
      let board := if negb (square_file king =? 0) then flip_horizontal board else board in
      king <- king_of board (negb (pov v)) ;;
      blocker <- piece_at_index board (king + 1) ;;
      match blocker with
      | Some blocker =>
          if negb (color_is (pov v) blocker) then
            knight <- piece_at_index board (king + 3) ;;
            match knight with
            | Some knight =>
                Ok (color_is (pov v) knight && pt_eqb (piece_type knight) KNIGHT)
            | None => Ok false
            end
          else Ok false
      | None => Ok false
      end
    else Ok false
  else Ok false.

Definition hook_mate (v : Variation) : result bool :=
  let node := game_end v in
  let board := gboard node in
  king <- king_of board (negb (pov v)) ;;
  node <- as_child node ;;
  if pt_eqb (moved_piece_type node) ROOK
     && (square_distance (to_square (move node)) king =? 1) then
    Ok (existsb (fun rook_defender_square =>
          match piece_at board rook_defender_square with
          | Some defender =>
              pt_eqb (piece_type defender) KNIGHT
              && (square_distance rook_defender_square king =? 1)
              && existsb (fun knight_defender_square =>
                    match piece_at board knight_defender_square with
                    | Some pawn => pt_eqb (piece_type pawn) PAWN
                    | None => false
                    end)
                  (squares_of (attackers board (pov v) rook_defender_square))
          | None => false
          end)
        (squares_of (attackers board (pov v) (to_square (move node)))))
  else Ok false.

Definition arabian_mate (v : Variation) : result bool :=
  let node := game_end v in
  let board := gboard node in
  king <- king_of board (negb (pov v)) ;;
  node <- as_child node ;;
  if z_in (square_file king) [0; 7] && z_in (square_rank king) [0; 7]
     && pt_eqb (moved_piece_type node) ROOK
     && (square_distance (to_square (move node)) king =? 1) then
    Ok (existsb (fun knight_square =>
          match piece_at board knight_square with
          | Some knight =>
              pt_eqb (piece_type knight) KNIGHT
              && (Z.abs (square_rank knight_square - square_rank king) =? 2)
              && (Z.abs (square_file knight_square - square_file king) =? 2)
          | None => false
          end)
        (squares_of (attackers board (pov v) (to_square (move node)))))
  else Ok false.

Definition boden_or_double_bishop_mate (v : Variation) : result (option TagKind) :=
  let node := game_end v in
  let board := gboard node in
  king <- king_of board (negb (pov v)) ;;
  _ <- as_child node ;;
  let bishop_squares := pieces board BISHOP (pov v) in
  if len bishop_squares <? 2 then Ok None
  else if negb (forallb (fun square =>
                  forallb (fun p => pt_eqb (piece_type p) BISHOP)
                          (attacker_pieces board (pov v) square))
                (filter (fun s => square_distance s king <? 2) (squares_of BB_ALL)))
  then Ok None
  else
    b0 <- index bishop_squares 0 ;;
    b1 <- index bishop_squares 1 ;;
    if Bool.eqb (square_file b0 <? square_file king) (square_file b1 >? square_file king)
    then Ok (Some "bodenMate")
    else Ok (Some "doubleBishopMate").

Definition dovetail_mate (v : Variation) : result bool :=
  let node := game_end v in
  let board := gboard node in
  king <- king_of board (negb (pov v)) ;;
  node <- as_child node ;;
  if z_in (square_file king) [0; 7] || z_in (square_rank king) [0; 7] then Ok false
  else
    let queen_square := to_square (move node) in
    if negb (pt_eqb (moved_piece_type node) QUEEN)
       || (square_file queen_square =? square_file king)
       || (square_rank queen_square =? square_rank king)
       || (square_distance queen_square king >? 1) then Ok false
    else
      Ok (for_pure (filter (fun s => square_distance s king =? 1) (squares_of BB_ALL))
            (fun square =>
               if square =? queen_square then None
               else
                 let attackers_ := squares_of (attackers board (pov v) square) in
                 match attackers_ with
                 | [a] =>
                     if a =? queen_square
                     then if is_some (piece_at board square) then Some false else None
                     else Some false
                 | [] => None
                 | _ => Some false
                 end)
            true).

(** ** Motifs *)

Definition attraction (v : Variation) : bool :=
  existsb (fun node =>
    if Bool.eqb (node_turn node) (pov v) then false
    else
      let first_move_to := to_square (move node) in
      match next_node node with
      | Some opponent_reply =>
          if to_square (move opponent_reply) =? first_move_to then
            let attracted_piece := moved_piece_type opponent_reply in
            if pt_in attracted_piece [KING; QUEEN; ROOK] then
              let attracted_to_square := to_square (move opponent_reply) in
              match next_node opponent_reply with
              | Some next =>
                  let attackers_ := attackers (board next) (pov v) attracted_to_square in
                  if mem (to_square (move next)) attackers_ then
                    if pt_eqb attracted_piece KING then true
                    else
                      match next_next_node next with
                      | Some n3 => to_square (move n3) =? attracted_to_square
                      | None => false
                      end
                  else false
              | None => false
              end
            else false
          else false
      | None => false
      end)
    (from 1 (mainline v)).

Definition deflection (v : Variation) : result bool :=
  for_each (later_solving v) (fun node =>
    let captured_piece := piece_at (gboard (parent node)) (to_square (move node)) in
    if is_some captured_piece || is_some (promotion (move node)) then
      let capturing_piece := moved_piece_type node in
      if match captured_piece with
         | Some cp_ => king_values (piece_type cp_) >? king_values capturing_piece
         | None => false
         end
      then Ok None
      else
        let square := to_square (move node) in
        prev_op_move <- some_move (gmove (parent node)) ;;
        grandpa <- parent_child (parent node) ;;
        let prev_player_move := move grandpa in
        let prev_player_capture :=
          piece_at (gboard (parent grandpa)) (to_square prev_player_move) in
        if match prev_player_capture with
           | None => true
           | Some c => values (piece_type c) <? code (moved_piece_type grandpa)
           end
           && negb (square =? to_square prev_op_move)
           && negb (square =? to_square prev_player_move)
           && ((to_square prev_op_move =? to_square prev_player_move)
               || is_check (board grandpa))
           && (mem square (attacks (board grandpa) (from_square prev_op_move))
               || (is_some (promotion (move node))
                   && (square_file (to_square (move node))
                       =? square_file (from_square prev_op_move))
                   && mem (from_square (move node))
                          (attacks (board grandpa) (from_square prev_op_move))))
           && negb (mem square (attacks (gboard (parent node)) (to_square prev_op_move)))
        then Ok (Some true)
        else Ok None
    else Ok None) (Ok false).

Definition overloading (v : Variation) : bool := false.

Definition advanced_pawn (v : Variation) : bool :=
  existsb is_very_advanced_pawn_move (solving v).

Definition double_check (v : Variation) : bool :=
  existsb (fun node => len (squares_of (checkers (board node))) >? 1) (solving v).

Definition quiet_move (v : Variation) : bool :=
  existsb (fun node =>
    negb (Bool.eqb (node_turn node) (pov v)) && negb (is_end node)
    && negb (is_check (board node)) && negb (is_check (gboard (parent node)))
    && negb (is_capture node)
    && match attacked_opponent_pieces (board node) (to_square (move node)) (pov v) with
       | [] => true
       | _ => false
       end
    && negb (is_advanced_pawn_move node)
    && negb (pt_eqb (moved_piece_type node) KING))
    (mainline v).

Definition defensive_move (v : Variation) : result bool :=
  before_last <- index_neg (mainline v) 2 ;;
  if Z.of_nat (List.length (legal_moves (board before_last))) <? 3 then Ok false
  else
    node <- index_neg (mainline v) 1 ;;
    if is_check (board node) || is_capture node then Ok false
    else
      match attacked_opponent_pieces (board node) (to_square (move node)) (pov v) with
      | _ :: _ => Ok false
      | [] => Ok (negb (is_advanced_pawn_move node))
      end.

Definition check_escape (v : Variation) : bool :=
  for_pure (solving v) (fun node =>
    if is_check (board node) || is_capture node then Some false
    else if Z.of_nat (List.length (legal_moves (gboard (parent node)))) <? 3 then Some false
    else if is_check (gboard (parent node)) then Some true
    else None) false.

Definition sacrifice (v : Variation) : result bool :=
  let diffs := map (fun n => material_diff (board n) (pov v)) (mainline v) in
  initial <- index diffs 0 ;;
  Ok (for_pure (from 1 (step2 (from 1 diffs))) (fun d =>
        if d - initial <=? -2
        then Some (negb (existsb (fun n => is_some (promotion (move n)))
                                 (from 1 (step2 (mainline v)))))
        else None) false).

Definition x_ray (v : Variation) : result bool :=
  for_each (later_solving v) (fun node =>
    if negb (is_capture node) then Ok None
    else
      prev_op_node <- as_child (parent node) ;;
      if negb (to_square (move prev_op_node) =? to_square (move node))
         || pt_eqb (moved_piece_type prev_op_node) KING then Ok None
      else
        prev_pl_node <- as_child (parent prev_op_node) ;;
        if negb (to_square (move prev_pl_node) =? to_square (move prev_op_node))
        then Ok None
        else if mem (from_square (move prev_op_node))
                    (between (from_square (move node)) (to_square (move node)))
        then Ok (Some true)
        else Ok None) (Ok false).

Definition fork (v : Variation) : bool :=
  existsb (fun node =>
    if negb (pt_eqb (moved_piece_type node) KING) then
      let board := board node in
      if is_in_bad_spot board (to_square (move node)) then false
      else
        let nb :=
          len (filter (fun ps : Piece * Square =>
                 let (piece, square) := ps in
                 if pt_eqb (piece_type piece) PAWN then false
                 else
                   (king_values (piece_type piece) >? king_values (moved_piece_type node))
                   || (is_hanging board piece square
                       && negb (mem square (attackers board (negb (pov v))
                                                      (to_square (move node))))))
               (attacked_opponent_squares board (to_square (move node)) (pov v))) in
        nb >? 1
    else false)
    (but_last (solving v)).

Definition hanging_piece (v : Variation) : result bool :=
  n1 <- index (mainline v) 1 ;;
  let to := to_square (move n1) in
  n0 <- index (mainline v) 0 ;;
  let captured := piece_at (board n0) to in
  if is_check (board n0)
     && match captured with
        | None => true
        | Some c => pt_eqb (piece_type c) PAWN
        end
  then Ok false
  else
    match captured with
    | Some c =>
        if negb (pt_eqb (piece_type c) PAWN) && is_hanging (board n0) c to then
          let op_move := move n0 in
          let op_capture := piece_at (gboard (game v)) (to_square op_move) in
          if match op_capture with
             | Some oc => (values (piece_type oc) >=? values (piece_type c))
                          && (to_square op_move =? to)
             | None => false
             end
          then Ok false
          else if len (mainline v) <? 4 then Ok true
          else
            n3 <- index (mainline v) 3 ;;
            if material_diff (board n3) (pov v) >=? material_diff (board n1) (pov v)
            then Ok true else Ok false
        else Ok false
    | None => Ok false
    end.

Definition trapped_piece (v : Variation) : result bool :=
  for_each (later_solving v) (fun node =>
    let square := to_square (move node) in
    match piece_at (gboard (parent node)) square with
    | Some captured =>
        if negb (pt_eqb (piece_type captured) PAWN) then
          prev <- as_child (parent node) ;;
          let square :=
            if to_square (move prev) =? square then from_square (move prev) else square in
          if is_trapped (gboard (parent prev)) square then Ok (Some true) else Ok None
        else Ok None
    | None => Ok None
    end) (Ok false).

Definition discovered_check (v : Variation) : bool :=
  existsb (fun node =>
    let checkers_ := checkers (board node) in
    nonempty checkers_ && negb (mem (to_square (move node)) checkers_))
    (solving v).

Definition discovered_attack (v : Variation) : result bool :=
  if discovered_check v then Ok true
  else
    for_each (later_solving v) (fun node =>
      if is_capture node then
        let between_ := between (from_square (move node)) (to_square (move node)) in
        p <- as_child (parent node) ;;
        if to_square (move p) =? to_square (move node) then Ok (Some false)
        else
          prev <- parent_child (parent node) ;;
          if mem (from_square (move prev)) between_
             && negb (to_square (move node) =? to_square (move prev))
             && negb (from_square (move node) =? to_square (move prev))
             && negb (is_castling prev)
          then Ok (Some true)
          else Ok None
      else Ok None) (Ok false).

Definition exposed_king (v : Variation) : result bool :=
  n0 <- index (mainline v) 0 ;;
  let pov_ := true in
  let board_ := if pov v then board n0 else mirror (board n0) in
  king <- king_of board_ (negb pov_) ;;
  if square_rank king <? 5 then Ok false
  else
    squares <- SquareSet_from_square (king - 8) ;;
    squares <-
      (if square_file king >? 0 then
         squares <- SquareSet_add (king - 1) squares ;;
         SquareSet_add (king - 9) squares
       else Ok squares) ;;
    squares <-
      (if square_file king <? 7 then
         squares <- SquareSet_add (king + 1) squares ;;
         SquareSet_add (king - 7) squares
       else Ok squares) ;;
    if existsb (fun square =>
                  match piece_at board_ square with
                  | Some p => piece_eqb p (mkPiece PAWN (negb pov_))
                  | None => false
                  end) (squares_of squares)
    then Ok false
    else Ok (existsb (fun node => is_check (board node)) (but_last (later_solving v))).

Definition skewer (v : Variation) : result bool :=
  for_each (later_solving v) (fun node =>
    prev <- as_child (parent node) ;;
    match piece_at (board prev) (to_square (move node)) with
    | Some capture =>
        if pt_in (moved_piece_type node) ray_piece_types
           && negb (is_checkmate (board node)) then
          let between_ := between (from_square (move node)) (to_square (move node)) in
          check move_truthy (move prev) ;;
          let op_move := move prev in
          if (to_square op_move =? to_square (move node))
             || negb (mem (from_square op_move) between_) then Ok None
          else if (king_values (moved_piece_type prev) >? king_values (piece_type capture))
                  && is_in_bad_spot (board prev) (to_square (move node))
          then Ok (Some true)
          else Ok None
        else Ok None
    | None => Ok None
    end) (Ok false).

(** [defenders.pop() if defenders else None], then the truth value of the
    square found: the square a1 is the integer 0, which Python takes for
    false. *)
Definition sole_defender (b : Board) (c : Color) (s : Square) : option Square :=
  let defenders := attackers b c s in
  if nonempty defenders then pop_or_none defenders else None.

Definition square_truthy (s : option Square) : bool :=
  match s with
  | Some d => negb (d =? 0)
  | None => false
  end.

(** The test both interference detectors share: a defender that is a ray
    piece, and the move [m] landing between it and [square]. *)
Definition blocks_defender (init_board : Board) (capture : Piece) (square : Square)
    (m : option Move) : bool :=
  match sole_defender init_board (color capture) square with
  | Some defender =>
      if negb (defender =? 0) then
        match piece_at init_board defender with
        | Some defender_piece =>
            pt_in (piece_type defender_piece) ray_piece_types
            && match m with
               | Some mv => move_truthy mv && mem (to_square mv) (between square defender)
               | None => false
               end
        | None => false
        end
      else false
  | None => false
  end.

Definition self_interference (v : Variation) : result bool :=
  for_each (later_solving v) (fun node =>
    let prev_board := gboard (parent node) in
    let square := to_square (move node) in
    match piece_at prev_board square with
    | Some capture =>
        if is_hanging prev_board capture square then
          match gparent (parent node) with
          | None => Raise AssertionError
          | Some grandpa =>
              if blocks_defender (gboard grandpa) capture square (gmove (parent node))
              then Ok (Some true) else Ok None
          end
        else Ok None
    | None => Ok None
    end) (Ok false).

Definition interference (v : Variation) : result bool :=
  for_each (later_solving v) (fun node =>
    let prev_board := gboard (parent node) in
    let square := to_square (move node) in
    let capture := piece_at prev_board square in
    parent_move <- some_move (gmove (parent node)) ;;
    match capture with
    | Some capture =>
        if negb (square =? to_square parent_move)
           && is_hanging prev_board capture square then
          match gparent (parent node) with
          | None => Raise AssertionError
          | Some interfering =>
              match gparent interfering with
              | None => Raise AssertionError
              | Some init =>
                  if blocks_defender (gboard init) capture square (gmove interfering)
                  then Ok (Some true) else Ok None
              end
          end
        else Ok None
    | None => Ok None
    end) (Ok false).

Definition intermezzo (v : Variation) : result bool :=
  for_each (later_solving v) (fun node =>
    if is_capture node then
      let capture_move := move node in
      let capture_square := to_square (move node) in
      op_node <- as_child (parent node) ;;
      prev_pov_node <- parent_child (parent node) ;;
      if negb (mem (from_square (move op_node))
                   (attackers (board prev_pov_node) (negb (pov v)) capture_square)) then
        if negb (to_square (move prev_pov_node) =? capture_square) then
          prev_op_node <- as_child (parent prev_pov_node) ;;
          Ok (Some ((to_square (move prev_op_node) =? capture_square)
                    && is_capture prev_op_node
                    && existsb (move_eqb capture_move) (legal_moves (board prev_op_node))))
        else Ok None
      else Ok None
    else Ok None) (Ok false).

Definition pin_prevents_attack (v : Variation) : bool :=
  existsb (fun node =>
    let board := board node in
    existsb (fun sp : Square * Piece =>
      let (square, piece) := sp in
      if color_is (pov v) piece then false
      else
        let pin_dir := pin board (color piece) square in
        if is_all pin_dir then false
        else
          existsb (fun attack =>
            match piece_at board attack with
            | Some attacked =>
                color_is (pov v) attacked && negb (mem attack pin_dir)
                && ((values (piece_type attacked) >? values (piece_type piece))
                    || is_hanging board attacked attack)
            | None => false
            end) (squares_of (attacks board square)))
      (piece_map_items board))
    (solving v).

Definition pin_prevents_escape (v : Variation) : result bool :=
  for_each (solving v) (fun node =>
    let board := board node in
    for_each (piece_map_items board) (fun sp : Square * Piece =>
      let (pinned_square, pinned_piece) := sp in
      if color_is (pov v) pinned_piece then Ok None
      else
        let pin_dir := pin board (color pinned_piece) pinned_square in
        if is_all pin_dir then Ok None
        else
          for_each (squares_of (attackers board (pov v) pinned_square))
            (fun attacker_square =>
               if mem attacker_square pin_dir then
                 match piece_at board attacker_square with
                 | None => Raise AssertionError
                 | Some attacker =>
                     if values (piece_type pinned_piece) >? values (piece_type attacker)
                     then Ok (Some (Some (Some true)))
                     else if is_hanging board pinned_piece pinned_square
                             && negb (mem pinned_square
                                       (attackers board (negb (pov v)) attacker_square))
                             && existsb (fun m =>
                                   (from_square m =? pinned_square)
                                   && negb (mem (to_square m) pin_dir))
                                 (pseudo_legal_moves board)
                     then Ok (Some (Some (Some true)))
                     else Ok None
                 end
               else Ok None)
            (Ok None))
      (Ok None))
    (Ok false).

Definition attacking_f2_f7 (v : Variation) : bool :=
  for_pure (solving v) (fun node =>
    let square := to_square (move node) in
    if is_some (piece_at (gboard (parent node)) (to_square (move node)))
       && z_in square [F2; F7] then
      Some match piece_at (board node) (if square =? F7 then E8 else E1) with
           | Some king => pt_eqb (piece_type king) KING && negb (color_is (pov v) king)
           | None => false
           end
    else None) false.

Definition side_attack (v : Variation) (corner_file : Z) (king_files : list Z)
    (nb_pieces : Z) : result bool :=
  let back_rank := if pov v then 7 else 0 in
  n0 <- index (mainline v) 0 ;;
  let init_board := board n0 in
  let king_square := king init_board (negb (pov v)) in
  if negb (square_truthy king_square)
     || match king_square with
        | Some k =>
            negb (square_rank k =? back_rank)
            || negb (z_in (square_file k) king_files)
        | None => true
        end
     || (len (piece_map_items init_board) <? nb_pieces)
     || negb (existsb (fun node => is_check (board node)) (solving v))
  then Ok false
  else
    let corner := square corner_file back_rank in
    let score :=
      fold_left (fun score node =>
        let corner_dist := square_distance corner (to_square (move node)) in
        let score := if is_check (board node) then score + 1 else score in
        if is_capture node && (corner_dist <=? 3) then score + 1
        else if corner_dist >=? 5 then score - 1
        else score) (solving v) 0 in
    Ok (score >=? 2).

Definition kingside_attack (v : Variation) : result bool :=
  side_attack v 7 [6; 7] 20.

Definition queenside_attack (v : Variation) : result bool :=
  side_attack v 0 [0; 1; 2] 18.

Definition clearance (v : Variation) : result bool :=
  for_each (later_solving v) (fun node =>
    let board_ := board node in
    if negb (is_some (piece_at (gboard (parent node)) (to_square (move node)))) then
      match piece_at board_ (to_square (move node)) with
      | Some piece =>
          if pt_in (piece_type piece) ray_piece_types then
            match gparent (parent node) with
            | None => Raise AssertionError
            | Some prev =>
                prev_move <- some_move (gmove prev) ;;
                node_parent <- as_child (parent node) ;;
                if negb (is_some (promotion prev_move))
                   && negb (to_square prev_move =? from_square (move node))
                   && negb (to_square prev_move =? to_square (move node))
                   && negb (is_check (gboard (parent node)))
                   && (negb (is_check board_)
                       || negb (pt_eqb (moved_piece_type node_parent) KING)) then
                  if (from_square prev_move =? to_square (move node))
                     || mem (from_square prev_move)
                            (between (from_square (move node)) (to_square (move node))) then
                    if match gparent prev with
                       | Some pp => negb (is_some (piece_at (gboard pp) (to_square prev_move)))
                       | None => false
                       end
                       || is_in_bad_spot (gboard prev) (to_square prev_move)
                    then Ok (Some true)
                    else Ok None
                  else Ok None
                else Ok None
            end
          else Ok None
      | None => Ok None
      end
    else Ok None) (Ok false).

Definition en_passant (v : Variation) : bool :=
  existsb (fun node =>
    pt_eqb (moved_piece_type node) PAWN
    && negb (square_file (from_square (move node)) =? square_file (to_square (move node)))
    && negb (is_some (piece_at (gboard (parent node)) (to_square (move node)))))
    (solving v).

Definition castling (v : Variation) : bool :=
  existsb is_castling (solving v).

Definition promotion_ (v : Variation) : bool :=
  existsb (fun node => is_some (promotion (move node))) (solving v).

Definition under_promotion (v : Variation) : bool :=
  for_pure (solving v) (fun node =>
    if is_checkmate (board node) then
      Some match promotion (move node) with
           | Some pt => pt_eqb pt KNIGHT
           | None => false
           end
    else
      match promotion (move node) with
      | Some pt => if negb (pt_eqb pt QUEEN) then Some true else None
      | None => None
      end) false.

Definition capturing_defender (v : Variation) : result bool :=
  for_each (later_solving v) (fun node =>
    let board_ := board node in
    let capture := piece_at (gboard (parent node)) (to_square (move node)) in
    node_parent <- as_child (parent node) ;;
    if is_checkmate board_
       || match capture with
          | Some c =>
              negb (pt_eqb (moved_piece_type node) KING)
              && (values (piece_type c) <=? values (moved_piece_type node))
              && is_hanging (gboard (parent node)) c (to_square (move node))
              && negb (to_square (move node_parent) =? to_square (move node))
          | None => false
          end
    then
      prev <- parent_child (parent node) ;;
      if negb (is_check (board prev))
         && negb (to_square (move prev) =? from_square (move node)) then
        let init_board := gboard (parent prev) in
        let defender_square := to_square (move prev) in
        match piece_at init_board defender_square with
        | Some defender =>
            if mem defender_square
                   (attackers init_board (color defender) (to_square (move node)))
               && negb (is_check init_board)
            then Ok (Some true) else Ok None
        | None => Ok None
        end
      else Ok None
    else Ok None) (Ok false).

(** ** Endgames *)

Definition piece_endgame (v : Variation) (piece_type_ : PieceType) : result bool :=
  n0 <- index (mainline v) 0 ;;
  n1 <- index (mainline v) 1 ;;
  Ok (for_pure [board n0; board n1] (fun board_ =>
        if match pieces board_ piece_type_ WHITE with [] => true | _ => false end
           && match pieces board_ piece_type_ BLACK with [] => true | _ => false end
        then Some false
        else if negb (forallb (fun piece =>
                        pt_in (piece_type piece) [KING; PAWN; piece_type_])
                      (piece_map_values board_))
        then Some false
        else None) true).

Definition queen_rook_test (board_ : Board) : bool :=
  let pieces_ := piece_map_values board_ in
  (len (filter (fun p => pt_eqb (piece_type p) QUEEN) pieces_) =? 1)
  && existsb (fun p => pt_eqb (piece_type p) ROOK) pieces_
  && forallb (fun p => pt_in (piece_type p) [QUEEN; ROOK; PAWN; KING]) pieces_.

Definition queen_rook_endgame (v : Variation) : result bool :=
  n0 <- index (mainline v) 0 ;;
  if queen_rook_test (board n0) then
    n1 <- index (mainline v) 1 ;;
    Ok (queen_rook_test (board n1))
  else Ok false.

(** * The orchestrator *)

(** [if b: tags.append(t)] *)
Definition append_if (b : bool) (t : TagKind) (tags : list TagKind) : list TagKind :=
  if b then tags ++ [t] else tags.

(** [t in tags] *)
Definition has (t : TagKind) (tags : list TagKind) : bool :=
  existsb (String.eqb t) tags.

(** [a or b] with [b] only evaluated when [a] is false. *)
Definition or_else (a : bool) (b : result bool) : result bool :=
  if a then Ok true else b.

(** The first block of [cook]: the mate tags, or else the evaluation tag. *)
Definition cook_mate (v : Variation) (tags : list TagKind) : result (list TagKind) :=
  match mate_in v with
  | Some mate_tag =>
      let tags := tags ++ [mate_tag] in
      let tags := tags ++ ["mate"] in
      b <- smothered_mate v ;;
      if b then Ok (tags ++ ["smotheredMate"]) else
      b <- back_rank_mate v ;;
      if b then Ok (tags ++ ["backRankMate"]) else
      b <- anastasia_mate v ;;
      if b then Ok (tags ++ ["anastasiaMate"]) else
      b <- hook_mate v ;;
      if b then Ok (tags ++ ["hookMate"]) else
      b <- arabian_mate v ;;
      if b then Ok (tags ++ ["arabianMate"]) else
      found <- boden_or_double_bishop_mate v ;;
      match found with
      | Some t => Ok (tags ++ [t])
      | None =>
          b <- dovetail_mate v ;;
          Ok (append_if b "dovetailMate" tags)
      end
  | None =>
      if cp v >? 600 then Ok (tags ++ ["crushing"])
      else if cp v >? 200 then Ok (tags ++ ["advantage"])
      else Ok (tags ++ ["equality"])
  end.

(** The endgame block: the first detector that holds gives the tag. *)
Definition cook_endgame (v : Variation) (tags : list TagKind) : result (list TagKind) :=
  b <- piece_endgame v PAWN ;;
  if b then Ok (tags ++ ["pawnEndgame"]) else
  b <- piece_endgame v QUEEN ;;
  if b then Ok (tags ++ ["queenEndgame"]) else
  b <- piece_endgame v ROOK ;;
  if b then Ok (tags ++ ["rookEndgame"]) else
  b <- piece_endgame v BISHOP ;;
  if b then Ok (tags ++ ["bishopEndgame"]) else
  b <- piece_endgame v KNIGHT ;;
  if b then Ok (tags ++ ["knightEndgame"]) else
  b <- queen_rook_endgame v ;;
  Ok (append_if b "queenRookEndgame" tags).

(** The side attacks, looked for only without [backRankMate] and [fork]. *)
Definition cook_side (v : Variation) (tags : list TagKind) : result (list TagKind) :=
  if negb (has "backRankMate" tags) && negb (has "fork" tags) then
    b <- kingside_attack v ;;
    if b then Ok (tags ++ ["kingsideAttack"]) else
    b <- queenside_attack v ;;
    Ok (append_if b "queensideAttack" tags)
  else Ok tags.

Definition length_tag (v : Variation) : TagKind :=
  if len (mainline v) =? 2 then "oneMove"
  else if len (mainline v) =? 4 then "short"
  else if len (mainline v) >=? 8 then "veryLong"
  else "long".

Definition cook (v : Variation) : result (list TagKind) :=
  let tags := [] in
  tags <- cook_mate v tags ;;
  let tags := append_if (attraction v) "attraction" tags in
  b <- deflection v ;;
  let tags := if b then tags ++ ["deflection"]
              else append_if (overloading v) "overloading" tags in
  let tags := append_if (advanced_pawn v) "advancedPawn" tags in
  let tags := append_if (double_check v) "doubleCheck" tags in
  let tags := append_if (quiet_move v) "quietMove" tags in
  b <- defensive_move v ;;
  let tags := append_if (b || check_escape v) "defensiveMove" tags in
  b <- sacrifice v ;;
  let tags := append_if b "sacrifice" tags in
  b <- x_ray v ;;
  let tags := append_if b "xRayAttack" tags in
  let tags := append_if (fork v) "fork" tags in
  b <- hanging_piece v ;;
  let tags := append_if b "hangingPiece" tags in
  b <- trapped_piece v ;;
  let tags := append_if b "trappedPiece" tags in
  b <- discovered_attack v ;;
  let tags := append_if b "discoveredAttack" tags in
  b <- exposed_king v ;;
  let tags := append_if b "exposedKing" tags in
  b <- skewer v ;;
  let tags := append_if b "skewer" tags in
  b <- self_interference v ;;
  b <- or_else b (interference v) ;;
  let tags := append_if b "interference" tags in
  b <- intermezzo v ;;
  let tags := append_if b "intermezzo" tags in
  b <- or_else (pin_prevents_attack v) (pin_prevents_escape v) ;;
  let tags := append_if b "pin" tags in
  let tags := append_if (attacking_f2_f7 v) "attackingF2F7" tags in
  b <- clearance v ;;
  let tags := append_if b "clearance" tags in
  let tags := append_if (en_passant v) "enPassant" tags in
  let tags := append_if (castling v) "castling" tags in
  let tags := append_if (promotion_ v) "promotion" tags in
  let tags := append_if (under_promotion v) "underPromotion" tags in
  b <- capturing_defender v ;;
  let tags := append_if b "capturingDefender" tags in
  tags <- cook_endgame v tags ;;
  tags <- cook_side v tags ;;
  Ok (tags ++ [length_tag v]).

End Detectors.

(** * The vocabulary of the properties *)

Section Specification.

Context {E : Engine} {U : Util}.

(** ** The parts of the tag list *)

Definition opt (b : bool) (t : TagKind) : list TagKind := if b then [t] else [].

(** The tag of the evaluation, for a line that does not end in mate. *)
Definition evaluation_tag (v : Variation) : TagKind :=
  if cp v >? 600 then "crushing"
  else if cp v >? 200 then "advantage"
  else "equality".

(** The mate patterns in their order of priority, each a detector that
    answers the tag it stands for. *)
Definition tagged (d : Variation -> result bool) (t : TagKind)
    (v : Variation) : result (option TagKind) :=
  b <- d v ;; Ok (if b then Some t else None).

Definition mate_patterns : list (Variation -> result (option TagKind)) :=
  [ tagged smothered_mate "smotheredMate";
    tagged back_rank_mate "backRankMate";
    tagged anastasia_mate "anastasiaMate";
    tagged hook_mate "hookMate";
    tagged arabian_mate "arabianMate";
    boden_or_double_bishop_mate;
    tagged dovetail_mate "dovetailMate" ].

(** First match wins: the detectors are asked in order, up to the first
    that answers a tag. *)
Fixpoint first_match (ds : list (Variation -> result (option TagKind)))
    (v : Variation) : result (option TagKind) :=
  match ds with
  | [] => Ok None
  | d :: ds' =>
      r <- d v ;;
      match r with
      | Some t => Ok (Some t)
      | None => first_match ds' v
      end
  end.

Definition opt_tag (o : option TagKind) : list TagKind :=
  match o with Some t => [t] | None => [] end.

(** The endgame detectors in their order, and the tag of each. *)
Definition endgames : list (Variation -> result (option TagKind)) :=
  [ tagged (fun v => piece_endgame v PAWN) "pawnEndgame";
    tagged (fun v => piece_endgame v QUEEN) "queenEndgame";
    tagged (fun v => piece_endgame v ROOK) "rookEndgame";
    tagged (fun v => piece_endgame v BISHOP) "bishopEndgame";
    tagged (fun v => piece_endgame v KNIGHT) "knightEndgame";
    tagged queen_rook_endgame "queenRookEndgame" ].

(** The side attack, when it is looked for. *)
Definition side_attacks : list (Variation -> result (option TagKind)) :=
  [ tagged kingside_attack "kingsideAttack";
    tagged queenside_attack "queensideAttack" ].

(** The outcomes of the detectors between the first block and the endgame
    block that can raise, in the order [cook] asks them. *)
Record Outcomes : Type := mkOutcomes {
  o_deflection : bool;
  o_defensive_move : bool;
  o_sacrifice : bool;
  o_x_ray : bool;
  o_hanging_piece : bool;
  o_trapped_piece : bool;
  o_discovered_attack : bool;
  o_exposed_king : bool;
  o_skewer : bool;
  o_interference : bool;
  o_intermezzo : bool;
  o_pin : bool;
  o_clearance : bool;
  o_capturing_defender : bool
}.

(** The middle part: each tag with the answer that decides it, in the order
    of the calls. *)
Definition motif_flags (v : Variation) (o : Outcomes) : list (bool * TagKind) :=
  [ (attraction v, "attraction");
    (o_deflection o, "deflection");
    (advanced_pawn v, "advancedPawn");
    (double_check v, "doubleCheck");
    (quiet_move v, "quietMove");
    (o_defensive_move o || check_escape v, "defensiveMove");
    (o_sacrifice o, "sacrifice");
    (o_x_ray o, "xRayAttack");
    (fork v, "fork");
    (o_hanging_piece o, "hangingPiece");
    (o_trapped_piece o, "trappedPiece");
    (o_discovered_attack o, "discoveredAttack");
    (o_exposed_king o, "exposedKing");
    (o_skewer o, "skewer");
    (o_interference o, "interference");
    (o_intermezzo o, "intermezzo");
    (o_pin o, "pin");
    (attacking_f2_f7 v, "attackingF2F7");
    (o_clearance o, "clearance");
    (en_passant v, "enPassant");
    (castling v, "castling");
    (promotion_ v, "promotion");
    (under_promotion v, "underPromotion");
    (o_capturing_defender o, "capturingDefender") ].

Definition tags_of (flags : list (bool * TagKind)) : list TagKind :=
  flat_map (fun bt => opt (fst bt) (snd bt)) flags.

Definition motif_tags (v : Variation) (o : Outcomes) : list TagKind :=
  tags_of (motif_flags v o).

(** The detectors of the middle part all return, with these outcomes. *)
Definition motifs_return (v : Variation) (o : Outcomes) : Prop :=
  deflection v = Ok (o_deflection o)
  /\ defensive_move v = Ok (o_defensive_move o)
  /\ sacrifice v = Ok (o_sacrifice o)
  /\ x_ray v = Ok (o_x_ray o)
  /\ hanging_piece v = Ok (o_hanging_piece o)
  /\ trapped_piece v = Ok (o_trapped_piece o)
  /\ discovered_attack v = Ok (o_discovered_attack o)
  /\ exposed_king v = Ok (o_exposed_king o)
  /\ skewer v = Ok (o_skewer o)
  /\ (exists b, self_interference v = Ok b
                /\ or_else b (interference v) = Ok (o_interference o))
  /\ intermezzo v = Ok (o_intermezzo o)
  /\ or_else (pin_prevents_attack v) (pin_prevents_escape v) = Ok (o_pin o)
  /\ clearance v = Ok (o_clearance o)
  /\ capturing_defender v = Ok (o_capturing_defender o).

(** The parts of the tag list: first block, middle part, endgame, side
    attack, length. *)
Record Parts : Type := mkParts {
  p_first : list TagKind;
  p_outcomes : Outcomes;
  p_endgame : option TagKind;
  p_side : list TagKind
}.

Definition assemble (v : Variation) (p : Parts) : list TagKind :=
  p_first p ++ motif_tags v (p_outcomes p) ++ opt_tag (p_endgame p)
  ++ p_side p ++ [length_tag v].

Definition before_side (v : Variation) (p : Parts) : list TagKind :=
  p_first p ++ motif_tags v (p_outcomes p) ++ opt_tag (p_endgame p).

Definition parts_of (v : Variation) (p : Parts) : Prop :=
  cook_mate v [] = Ok (p_first p)
  /\ motifs_return v (p_outcomes p)
  /\ first_match endgames v = Ok (p_endgame p)
  /\ cook_side v (before_side v p) = Ok (before_side v p ++ p_side p).

Definition mate_in_tags : list TagKind :=
  ["mateIn1"; "mateIn2"; "mateIn3"; "mateIn4"; "mateIn5"].

Definition mate_pattern_tags : list TagKind :=
  ["smotheredMate"; "backRankMate"; "anastasiaMate"; "hookMate"; "arabianMate";
   "bodenMate"; "doubleBishopMate"; "dovetailMate"].

Definition evaluation_tags : list TagKind := ["crushing"; "advantage"; "equality"].

Definition motif_names : list TagKind :=
  ["attraction"; "deflection"; "advancedPawn"; "doubleCheck"; "quietMove";
   "defensiveMove"; "sacrifice"; "xRayAttack"; "fork"; "hangingPiece";
   "trappedPiece"; "discoveredAttack"; "exposedKing"; "skewer"; "interference";
   "intermezzo"; "pin"; "attackingF2F7"; "clearance"; "enPassant"; "castling";
   "promotion"; "underPromotion"; "capturingDefender"].

Definition endgame_tags : list TagKind :=
  ["pawnEndgame"; "queenEndgame"; "rookEndgame"; "bishopEndgame"; "knightEndgame";
   "queenRookEndgame"].

Definition side_tags : list TagKind := ["kingsideAttack"; "queensideAttack"].

Definition length_tags : list TagKind := ["oneMove"; "short"; "long"; "veryLong"].

Definition first_tags : list TagKind :=
  mate_in_tags ++ ["mate"] ++ mate_pattern_tags ++ evaluation_tags.

Definition within (vocab tags : list TagKind) : Prop :=
  Forall (fun t => has t vocab = true) tags.

(** A detector answers within [vocab] when every tag it can answer is
    there. *)
Definition answers_within (vocab : list TagKind)
    (d : Variation -> result (option TagKind)) : Prop :=
  forall v t, d v = Ok (Some t) -> has t vocab = true.

(** The tags of a list that belong to a vocabulary. *)
Definition only (vocab tags : list TagKind) : list TagKind :=
  filter (fun t => has t vocab) tags.

Definition disjoint (a b : list TagKind) : bool :=
  forallb (fun t => negb (has t a)) b.

(** How often a tag is emitted by a list of flags. *)
Definition times (t : TagKind) (flags : list (bool * TagKind)) : nat :=
  List.length (filter (fun bt => String.eqb t (snd bt) && fst bt) flags).

(** ** Well-formed lines *)

Definition option_eqb {A : Type} (eqb : A -> A -> bool) (a b : option A) : bool :=
  match a, b with
  | Some x, Some y => eqb x y
  | None, None => true
  | _, _ => false
  end.

(** Two positions with the same pieces on the 64 squares, side to move,
    castling rights and en-passant square. *)
Definition board_eqb (a b : Board) : bool :=
  forallb (fun s => option_eqb piece_eqb (piece_at a s) (piece_at b s)) SQUARES
  && Bool.eqb (turn a) (turn b)
  && (castling_rights a =? castling_rights b)
  && option_eqb Z.eqb (ep_square a) (ep_square b).

(** What the assertions of the detectors take for granted of a position:
    each side has its king, one only, and the squares the engine names as
    checkers or attackers hold a piece. *)
Definition all_occupied (b : Board) (m : SquareSet) : bool :=
  forallb (fun s => is_some (piece_at b s)) (squares_of m).

Definition position_ok (b : Board) : bool :=
  (len (pieces b KING WHITE) =? 1) && (len (pieces b KING BLACK) =? 1)
  && all_occupied b (checkers b)
  && forallb (fun c => forallb (fun s => all_occupied b (attackers b c s)) SQUARES)
             [WHITE; BLACK].

(** One step of the line: the move is a legal move of the position before
    it (and so not the null move), the position after it is the one the
    engine gives, and the other side is to move. *)
Definition step_ok (prev : Board) (p : Ply) : bool :=
  existsb (move_eqb (ply_move p)) (legal_moves prev)
  && move_truthy (ply_move p)
  && board_eqb (ply_board p) (push prev (ply_move p))
  && negb (Bool.eqb (turn (ply_board p)) (turn prev))
  && position_ok (ply_board p).

Fixpoint line_ok (prev : Board) (l : list Ply) : bool :=
  match l with
  | [] => true
  | p :: l' => step_ok prev p && line_ok (ply_board p) l'
  end.

(** A well-formed [Variation]: a line of even length, at least 2, whose
    steps are legal and alternate sides, played by [pov] from its second
    move on, with the pieces the detectors' assertions presuppose. *)
Record well_formed (v : Variation) : Prop := {
  wf_length : (2 <= List.length (game_line v))%nat;
  wf_even : Nat.even (List.length (game_line v)) = true;
  wf_pov : pov v = negb (turn (game_root v));
  wf_root : position_ok (game_root v) = true;
  wf_line : line_ok (game_root v) (game_line v) = true
}.

(** What the detectors rely on of a line: at least two steps, each legal,
    with the pieces their assertions presuppose.  Whether [cook] returns
    depends neither on the parity of the length nor on [pov] being the side
    that moves second. *)
Record sound (v : Variation) : Prop := {
  sound_length : (2 <= List.length (game_line v))%nat;
  sound_line : line_ok (game_root v) (game_line v) = true
}.

(** All the steps of the line a node belongs to, first to last. *)
Definition line_of (c : ChildNode) : list Ply := rev (above c) ++ own c :: below c.

Definition truthy (p : Ply) : Prop := move_truthy (ply_move p) = true.

(** A king stays on the board when the board is flipped or mirrored. *)
Definition permutes (f : Square -> Square) : bool :=
  forallb (fun s => z_in (f s) SQUARES && (f (f s) =? s)) SQUARES.

(** ** Sacrifices and endgames *)

Definition all_tags : list TagKind :=
  first_tags ++ motif_names ++ endgame_tags ++ side_tags ++ length_tags.

(** The balance of [pov] after one of its later moves, [mainline[3]],
    [mainline[5]], ..., is lower by 2 or more than after [mainline[0]]. *)
Definition material_drop (v : Variation) : Prop :=
  exists n0 node,
    index (mainline v) 0 = Ok n0 /\ In node (later_solving v)
    /\ material_diff (board node) (pov v) - material_diff (board n0) (pov v) <= -2.

(** A move of the opponent after the first, [mainline[2]], [mainline[4]],
    ..., is a promotion. *)
Definition opponent_promotes (v : Variation) : Prop :=
  exists node, In node (from 1 (step2 (mainline v))) /\ promotion (move node) <> None.

(** The claim as the spec words it: no move of [pov], [mainline[1]],
    [mainline[3]], ..., is a promotion. *)
Definition pov_promotes (v : Variation) : Prop :=
  exists node, In node (solving v) /\ promotion (move node) <> None.

(** A piece of the kind is on the board; only pieces of the kinds are. *)
Definition has_kind (b : Board) (pt : PieceType) : Prop :=
  exists s p, In s SQUARES /\ piece_at b s = Some p /\ piece_type p = pt.

Definition only_kinds (b : Board) (kinds : list PieceType) : Prop :=
  forall s p, In s SQUARES -> piece_at b s = Some p -> In (piece_type p) kinds.

(** Besides kings and pawns only the named kind, and at least one piece of
    that kind. *)
Definition single_kind (b : Board) (pt : PieceType) : Prop :=
  has_kind b pt /\ only_kinds b [KING; PAWN; pt].

Definition single_endgames : list (PieceType * TagKind) :=
  [ (PAWN, "pawnEndgame"); (QUEEN, "queenEndgame"); (ROOK, "rookEndgame");
    (BISHOP, "bishopEndgame"); (KNIGHT, "knightEndgame") ].

Definition is_nil {A : Type} (l : list A) : bool :=
  match l with [] => true | _ => false end.

(** The test [piece_endgame] makes of one position. *)
Definition endgame_test (b : Board) (pt : PieceType) : bool :=
  negb (is_nil (pieces b pt WHITE) && is_nil (pieces b pt BLACK))
  && forallb (fun piece => pt_in (piece_type piece) [KING; PAWN; pt])
             (piece_map_values b).

(** The answer of the endgame block, from the answers of its tests. *)
Definition endgame_choice (eP eQ eR eB eN : bool) (qr : result bool)
    : result (option TagKind) :=
  if eP then Ok (Some "pawnEndgame")
  else if eQ then Ok (Some "queenEndgame")
  else if eR then Ok (Some "rookEndgame")
  else if eB then Ok (Some "bishopEndgame")
  else if eN then Ok (Some "knightEndgame")
  else b <- qr ;; Ok (if b then Some "queenRookEndgame" else None).

(** ** The order of the tags *)

(** One list within another, in the same order. *)
Inductive Subseq {A : Type} : list A -> list A -> Prop :=
| Subseq_nil : forall l, Subseq [] l
| Subseq_skip : forall a l l', Subseq l l' -> Subseq l (a :: l')
| Subseq_take : forall a l l', Subseq l l' -> Subseq (a :: l) (a :: l').

(** The motifs that are looked for in the moves of [pov] after its first,
    [mainline[1::2][1:]], or in what follows a move. *)
Definition later_tags : list TagKind :=
  ["attraction"; "deflection"; "sacrifice"; "xRayAttack"; "fork"; "trappedPiece";
   "skewer"; "interference"; "intermezzo"; "clearance"; "capturingDefender"].

End Specification.

(** * The tagger *)

(** What [tagger.py] does with the tags of [cook], as far as it computes:
    which worker takes a document, and what is written to the collection of
    rounds.  The database and the processes are outside. *)

(** [ord(c)] of a character below 256, as the identifiers of lichess are. *)
Definition ord (c : Ascii.ascii) : Z := Z.of_nat (Ascii.nat_of_ascii c).

(** [range(n)] *)
Definition range (n : Z) : list Z := map Z.of_nat (seq 0 (Z.to_nat n)).

(** Worker [thread_id] of [threads] goes on with a document unless
    [ord(doc["_id"][4]) % threads != thread_id]; [None] stands for the
    exception of an identifier shorter than five characters or of a
    division by zero.  The workers are those of [range(threads)]. *)
Definition worker_takes (threads thread_id : Z) (doc_id : string) : option bool :=
  match String.get 4 doc_id with
  | None => None
  | Some c =>
      if threads =? 0 then None
      else Some (negb (negb (ord c mod threads =? thread_id)))
  end.

(** [t in ['+zugzwang', '-zugzwang']] *)
Definition is_zug (t : string) : bool := has t ["+zugzwang"; "-zugzwang"].

(** [f"+{t}"] *)
Definition plus (t : TagKind) : string := String.append "+" t.

(** [set(a) != set(b)] is the negation of this. *)
Definition same_set (a b : list string) : bool :=
  forallb (fun t => has t b) a && forallb (fun t => has t a) b.

(** What one pass over a document does to its round: the list written to
    ["t"], nothing, or the [KeyError] of a round without ["t"]. *)
Inductive Pass : Type :=
| Updated (t : list string)
| Untouched
| KeyError.

(** The round found, [existing]: [None] without one, else its list ["t"],
    [None] when the document has no such key. *)
Definition retag (dry : bool) (tags : list TagKind)
    (existing : option (option (list string))) : Pass :=
  if negb dry then
    match existing with
    | Some None => KeyError
    | Some (Some t) =>
        let zugs := filter is_zug t in
        let new_tags := map plus tags ++ zugs in
        if negb (same_set new_tags t) then Updated new_tags else Untouched
    | None =>
        let zugs := [] in
        let new_tags := map plus tags ++ zugs in
        Updated new_tags
    end
  else Untouched.

(** * A rules engine and a helper module for concrete lines *)

(** The rules of chess without castling and en passant, enough to run the
    detectors on concrete lines where neither occurs; and the helpers of
    [util] as far as the spec says what they compute. *)
Module Reference.

Definition on_board (f r : Z) : bool :=
  (0 <=? f) && (f <? 8) && (0 <=? r) && (r <? 8).

Definition offset (s : Square) (d : Z * Z) : option Square :=
  let f := square_file s + fst d in
  let r := square_rank s + snd d in
  if on_board f r then Some (square f r) else None.

(** The squares from [s] in direction [d], up to and with the first
    occupied one. *)
Fixpoint ray (fuel : nat) (b : Board) (s : Square) (d : Z * Z) : list Square :=
  match fuel with
  | O => []
  | S n =>
      match offset s d with
      | None => []
      | Some t => if is_some (piece_at b t) then [t] else t :: ray n b t d
      end
  end.

Definition steps (s : Square) (ds : list (Z * Z)) : list Square :=
  flat_map (fun d => match offset s d with Some t => [t] | None => [] end) ds.

Definition knight_steps : list (Z * Z) :=
  [(1, 2); (2, 1); (2, -1); (1, -2); (-1, -2); (-2, -1); (-2, 1); (-1, 2)].

Definition diagonals : list (Z * Z) := [(1, 1); (1, -1); (-1, -1); (-1, 1)].

Definition straights : list (Z * Z) := [(1, 0); (0, -1); (-1, 0); (0, 1)].

Definition forward (c : Color) : Z := if c then 1 else -1.

Definition attack_list (b : Board) (s : Square) : list Square :=
  match piece_at b s with
  | None => []
  | Some p =>
      match piece_type p with
      | PAWN => steps s [(-1, forward (color p)); (1, forward (color p))]
      | KNIGHT => steps s knight_steps
      | KING => steps s (diagonals ++ straights)
      | BISHOP => flat_map (ray 7 b s) diagonals
      | ROOK => flat_map (ray 7 b s) straights
      | QUEEN => flat_map (ray 7 b s) (diagonals ++ straights)
      end
  end.

Definition mask_of (l : list Square) : SquareSet := fold_right add 0 l.

Definition attacks (b : Board) (s : Square) : SquareSet := mask_of (attack_list b s).

Definition attackers (b : Board) (c : Color) (t : Square) : SquareSet :=
  mask_of (filter (fun s =>
             match piece_at b s with
             | Some p => Bool.eqb (color p) c && z_in t (attack_list b s)
             | None => false
             end) SQUARES).

Definition checkers (b : Board) : SquareSet :=
  match king b (turn b) with
  | Some k => attackers b (negb (turn b)) k
  | None => 0
  end.

Definition is_check (b : Board) : bool := nonempty (checkers b).

Definition push (b : Board) (m : Move) : Board :=
  {| piece_at := fun s =>
       if s =? from_square m then None
       else if s =? to_square m then
         match piece_at b (from_square m), promotion m with
         | Some p, Some pt => Some (mkPiece pt (color p))
         | moved, _ => moved
         end
       else piece_at b s;
     turn := negb (turn b);
     castling_rights := castling_rights b;
     ep_square := None |}.

Definition owns (b : Board) (c : Color) (s : Square) : bool :=
  match piece_at b s with
  | Some p => Bool.eqb (color p) c
  | None => false
  end.

Definition last_rank (c : Color) : Z := if c then 7 else 0.

Definition start_rank (c : Color) : Z := if c then 1 else 6.

(** The moves of a pawn to [t]: the four promotions on the last rank. *)
Definition pawn_moves (c : Color) (s t : Square) : list Move :=
  if square_rank t =? last_rank c
  then map (fun pt => mkMove s t (Some pt)) [QUEEN; ROOK; BISHOP; KNIGHT]
  else [mkMove s t None].

Definition moves_from (b : Board) (s : Square) : list Move :=
  match piece_at b s with
  | None => []
  | Some p =>
      let c := color p in
      if negb (Bool.eqb c (turn b)) then []
      else
        match piece_type p with
        | PAWN =>
            let captures :=
              filter (fun t => owns b (negb c) t) (attack_list b s) in
            let one := offset s (0, forward c) in
            let pushes :=
              match one with
              | Some t1 =>
                  if is_some (piece_at b t1) then []
                  else
                    t1 :: (if square_rank s =? start_rank c then
                             match offset t1 (0, forward c) with
                             | Some t2 => if is_some (piece_at b t2) then [] else [t2]
                             | None => []
                             end
                           else [])
              | None => []
              end in
            flat_map (pawn_moves c s) (captures ++ pushes)
        | _ =>
            map (fun t => mkMove s t None)
                (filter (fun t => negb (owns b c t)) (attack_list b s))
        end
  end.

Definition pseudo_legal_moves (b : Board) : list Move :=
  flat_map (moves_from b) SQUARES.

Definition leaves_king_safe (b : Board) (m : Move) : bool :=
  let b' := push b m in
  match king b' (turn b) with
  | Some k => negb (nonempty (attackers b' (negb (turn b)) k))
  | None => true
  end.

Definition legal_moves (b : Board) : list Move :=
  filter (leaves_king_safe b) (pseudo_legal_moves b).

Definition is_checkmate (b : Board) : bool :=
  is_check b && is_nil (legal_moves b).

Definition sign (x : Z) : Z := Z.sgn x.

Definition aligned (a b : Square) : bool :=
  negb (a =? b)
  && ((square_file a =? square_file b) || (square_rank a =? square_rank b)
      || (Z.abs (square_file a - square_file b) =? Z.abs (square_rank a - square_rank b))).

Definition direction (a b : Square) : Z * Z :=
  (sign (square_file b - square_file a), sign (square_rank b - square_rank a)).

(** The squares after [s] in direction [d], up to the edge. *)
Fixpoint walk (fuel : nat) (s : Square) (d : Z * Z) : list Square :=
  match fuel with
  | O => []
  | S n =>
      match offset s d with
      | None => []
      | Some t => t :: walk n t d
      end
  end.

Fixpoint until (t : Square) (l : list Square) : list Square :=
  match l with
  | [] => []
  | x :: l' => if x =? t then [] else x :: until t l'
  end.

(** [SquareSet.between(a, b)]: the squares strictly between two squares of
    one rank, file or diagonal; empty otherwise. *)
Definition between (a b : Square) : SquareSet :=
  if aligned a b then mask_of (until b (walk 7 a (direction a b))) else 0.

(** [SquareSet.ray(a, b)]: the whole line through two aligned squares. *)
Definition line (a b : Square) : SquareSet :=
  if aligned a b
  then mask_of (a :: walk 7 a (direction a b) ++ walk 7 a (direction b a))
  else 0.

Definition slides_along (pt : PieceType) (d : Z * Z) : bool :=
  match pt with
  | QUEEN => true
  | ROOK => (fst d =? 0) || (snd d =? 0)
  | BISHOP => negb (fst d =? 0) && negb (snd d =? 0)
  | _ => false
  end.

(** [board.pin(color, square)]: the line of the pin, all squares when the
    piece is not pinned. *)
Definition pin (b : Board) (c : Color) (s : Square) : SquareSet :=
  match king b c with
  | None => BB_ALL
  | Some k =>
      if aligned k s then
        let d := direction k s in
        match rev (ray 7 b s d) with
        | sniper :: _ =>
            match piece_at b sniper with
            | Some p =>
                if Bool.eqb (color p) (negb c) && slides_along (piece_type p) d
                   && forallb (fun t => negb (is_some (piece_at b t)))
                              (until s (walk 7 k d))
                then line k sniper
                else BB_ALL
            | None => BB_ALL
            end
        | [] => BB_ALL
        end
      else BB_ALL
  end.

#[export] Instance engine : Engine :=
  Build_Engine is_check is_checkmate checkers attackers attacks pin legal_moves
               pseudo_legal_moves between push.

(** Modelled from the spec: the helpers of [util], not among the sources.
    A piece hangs when no piece of its colour attacks its square; it is in a
    bad spot when an enemy piece of lower or equal attack-priority value
    attacks it; it is trapped when every legal move it has leads to a bad
    spot.  The spec says less of the move predicates: a capture lands on an
    occupied square, a castling king moves two files, a pawn is advanced
    from the sixth rank of its side and very advanced from the seventh.  The
    value of the king is a number above the other values. *)
Definition king_value : Z := 99.

Definition attack_value (pt : PieceType) : Z :=
  match pt with KING => king_value | _ => values pt end.

Definition is_hanging (b : Board) (piece : Piece) (s : Square) : bool :=
  negb (nonempty (attackers b (color piece) s)).

Definition is_in_bad_spot (b : Board) (s : Square) : bool :=
  match piece_at b s with
  | None => false
  | Some p =>
      existsb (fun a =>
                 match piece_at b a with
                 | Some q => attack_value (piece_type q) <=? attack_value (piece_type p)
                 | None => false
                 end)
              (squares_of (attackers b (negb (color p)) s))
  end.

Definition is_trapped (b : Board) (s : Square) : bool :=
  forallb (fun m => negb (from_square m =? s)
                    || is_in_bad_spot (push b m) (to_square m))
          (legal_moves b).

Definition attacked_opponent_squares (b : Board) (from_ : Square) (pov_ : Color)
    : list (Piece * Square) :=
  flat_map (fun t =>
              match piece_at b t with
              | Some p => if Bool.eqb (color p) pov_ then [] else [(p, t)]
              | None => []
              end)
           (squares_of (attacks b from_)).

Definition attacked_opponent_pieces (b : Board) (from_ : Square) (pov_ : Color)
    : list Piece :=
  map fst (attacked_opponent_squares b from_ pov_).

Definition attacker_pieces (b : Board) (c : Color) (s : Square) : list Piece :=
  flat_map (fun a => match piece_at b a with Some p => [p] | None => [] end)
           (squares_of (attackers b c s)).

Definition moved_piece_type (node : ChildNode) : PieceType :=
  match piece_at (board node) (to_square (move node)) with
  | Some p => piece_type p
  | None => PAWN
  end.

Definition is_capture (node : ChildNode) : bool :=
  is_some (piece_at (gboard (parent node)) (to_square (move node))).

Definition is_castling (node : ChildNode) : bool :=
  pt_eqb (moved_piece_type node) KING
  && (Z.abs (square_file (from_square (move node))
             - square_file (to_square (move node))) >? 1).

Definition is_advanced_pawn_move (node : ChildNode) : bool :=
  if is_some (promotion (move node)) then true
  else if negb (pt_eqb (moved_piece_type node) PAWN) then false
  else
    let to_rank := square_rank (to_square (move node)) in
    if node_turn node then to_rank <? 3 else to_rank >? 4.

Definition is_very_advanced_pawn_move (node : ChildNode) : bool :=
  if negb (is_advanced_pawn_move node) then false
  else
    let to_rank := square_rank (to_square (move node)) in
    if node_turn node then to_rank <? 2 else to_rank >? 5.

#[export] Instance util : Util :=
  Build_Util king_value is_hanging is_trapped is_in_bad_spot
             attacked_opponent_squares attacked_opponent_pieces attacker_pieces
             is_very_advanced_pawn_move is_advanced_pawn_move is_capture
             is_castling moved_piece_type.

(** ** Concrete lines *)

Definition place (l : list (Square * Piece)) (s : Square) : option Piece :=
  match find (fun sp => fst sp =? s) l with
  | Some sp => Some (snd sp)
  | None => None
  end.

Definition position (l : list (Square * Piece)) (to_move : Color) : Board :=
  mkBoard (place l) to_move 0 None.

(** The nodes of a line come from playing its moves one after the other,
    as [tagger.read] does. *)
Fixpoint play (b : Board) (ms : list Move) : list Ply :=
  match ms with
  | [] => []
  | m :: rest => let b' := push b m in mkPly m b' :: play b' rest
  end.

Definition read (name : string) (root : Board) (ms : list Move) (cp_ : Z) : Variation :=
  mkVariation name root (play root ms) cp_ (negb (turn root)).

Definition cook_ (v : Variation) : result (list TagKind) :=
  @cook engine util v.

(** A pawn ending: Black, to move, queens the a-pawn while the white king
    walks up the g-file.  White: Kg2.  Black: Kg8, pawn a3. *)
Definition pawn_race_root : Board :=
  position [(14, mkPiece KING WHITE); (62, mkPiece KING BLACK);
            (16, mkPiece PAWN BLACK)] BLACK.

Definition pawn_race_moves : list Move :=
  [ mkMove 16 8 None; mkMove 14 22 None; mkMove 8 0 (Some QUEEN); mkMove 22 30 None ].

Definition pawn_race : Variation := read "pawnRace" pawn_race_root pawn_race_moves (-900).

(** The same line cut after its third move. *)
Definition pawn_race_cut : Variation :=
  read "pawnRaceCut" pawn_race_root (firstn 3 pawn_race_moves) (-900).

(** A smothered mate: after ...Rg8 the knight mates on f7.
    White: Kg1, Ne5.  Black: Kh8, Rf8, pawns g7, h7. *)
Definition smothered_root : Board :=
  position [(6, mkPiece KING WHITE); (36, mkPiece KNIGHT WHITE);
            (63, mkPiece KING BLACK); (61, mkPiece ROOK BLACK);
            (54, mkPiece PAWN BLACK); (55, mkPiece PAWN BLACK)] BLACK.

Definition smothered : Variation :=
  read "smothered" smothered_root [mkMove 61 62 None; mkMove 36 53 None] 0.

(** A dovetail mate: after ...e6 the queen mates on f4.
    White: Kh1, Qf1, pawn g3.  Black: Ke5, pawns d5, d6, e7. *)
Definition dovetail_root : Board :=
  position [(7, mkPiece KING WHITE); (5, mkPiece QUEEN WHITE); (22, mkPiece PAWN WHITE);
            (36, mkPiece KING BLACK); (35, mkPiece PAWN BLACK);
            (43, mkPiece PAWN BLACK); (52, mkPiece PAWN BLACK)] BLACK.

Definition dovetail : Variation :=
  read "dovetail" dovetail_root [mkMove 52 44 None; mkMove 5 29 None] 0.

(** Anastasia's mate: after ...a6 the rook mates on h5.
    White: Kg1, Ne7, Re5.  Black: Kh7, pawns g7, a7. *)
Definition anastasia_root : Board :=
  position [(6, mkPiece KING WHITE); (52, mkPiece KNIGHT WHITE); (36, mkPiece ROOK WHITE);
            (55, mkPiece KING BLACK); (54, mkPiece PAWN BLACK);
            (48, mkPiece PAWN BLACK)] BLACK.

Definition anastasia : Variation :=
  read "anastasia" anastasia_root [mkMove 48 40 None; mkMove 36 39 None] 0.

(** An attack on the castled king: after ...a6 the queen takes on h7 with mate.
    White: Kg1, Qh5, Bd3, Ra1, Rf1, pawns a2, b2, c2, f2, g2, h2.
    Black: Kg8, Qd8, Ra8, Rf8, Bc8, Nb8, pawns a7, b7, c7, f7, g7, h7. *)
Definition castled_root : Board :=
  position [(6, mkPiece KING WHITE); (39, mkPiece QUEEN WHITE); (19, mkPiece BISHOP WHITE);
            (0, mkPiece ROOK WHITE); (5, mkPiece ROOK WHITE);
            (8, mkPiece PAWN WHITE); (9, mkPiece PAWN WHITE); (10, mkPiece PAWN WHITE);
            (13, mkPiece PAWN WHITE); (14, mkPiece PAWN WHITE); (15, mkPiece PAWN WHITE);
            (62, mkPiece KING BLACK); (59, mkPiece QUEEN BLACK); (56, mkPiece ROOK BLACK);
            (61, mkPiece ROOK BLACK); (58, mkPiece BISHOP BLACK); (57, mkPiece KNIGHT BLACK);
            (48, mkPiece PAWN BLACK); (49, mkPiece PAWN BLACK); (50, mkPiece PAWN BLACK);
            (53, mkPiece PAWN BLACK); (54, mkPiece PAWN BLACK); (55, mkPiece PAWN BLACK)]
           BLACK.

Definition castled : Variation :=
  read "castled" castled_root [mkMove 48 40 None; mkMove 39 55 None] 0.

(** A king in the corner a1: White, to move, pushes the h-pawn and Black
    answers with the king.  White: Ka1, pawn h2.  Black: Kh8. *)
Definition corner_root : Board :=
  position [(0, mkPiece KING WHITE); (15, mkPiece PAWN WHITE);
            (63, mkPiece KING BLACK)] WHITE.

Definition corner : Variation :=
  read "corner" corner_root [mkMove 15 23 None; mkMove 63 62 None] 0.

(** The pawn race cut after its first move. *)
Definition pawn_race_start : Variation :=
  read "pawnRaceStart" pawn_race_root (firstn 1 pawn_race_moves) (-900).

(** An underpromotion: after ...Kg7 the b-pawn takes a rook on b8.
    White: Kg1, pawn b7.  Black: Kh7. *)
Definition underpromotion_root : Board :=
  position [(6, mkPiece KING WHITE); (49, mkPiece PAWN WHITE);
            (55, mkPiece KING BLACK)] BLACK.

Definition underpromotion : Variation :=
  read "underpromotion" underpromotion_root
       [mkMove 55 54 None; mkMove 49 57 (Some ROOK)] 700.

(** A discovered check: after ...a6 the knight leaves the e-file and the
    rook behind it gives check.
    White: Kg1, Re1, Ne4.  Black: Ke8, pawn a7. *)
Definition discovered_root : Board :=
  position [(6, mkPiece KING WHITE); (4, mkPiece ROOK WHITE); (28, mkPiece KNIGHT WHITE);
            (60, mkPiece KING BLACK); (48, mkPiece PAWN BLACK)] BLACK.

Definition discovered : Variation :=
  read "discovered" discovered_root [mkMove 48 40 None; mkMove 28 34 None] 300.

(** Queen and rook against rook.
    White: Kg1, Qd1, Ra1.  Black: Kg8, Ra8. *)
Definition queen_rook_root : Board :=
  position [(6, mkPiece KING WHITE); (3, mkPiece QUEEN WHITE); (0, mkPiece ROOK WHITE);
            (62, mkPiece KING BLACK); (56, mkPiece ROOK BLACK)] BLACK.

Definition queen_rook : Variation :=
  read "queenRook" queen_rook_root [mkMove 56 57 None; mkMove 3 27 None] 700.

End Reference.

(** * Lemmas and theorems *)

Lemma pt_eqb_eq a b : pt_eqb a b = true <-> a = b.
Proof.
  unfold pt_eqb. rewrite Z.eqb_eq.
  split; [| now intros ->].
  destruct a, b; simpl; intros H; try reflexivity; discriminate H.
Qed.

Lemma pt_eqb_refl a : pt_eqb a a = true.
Proof. now apply pt_eqb_eq. Qed.

Section Proofs.

Context {E : Engine} {U : Util}.

(** ** The tag list, part by part *)

Lemma append_if_opt b t tags : append_if b t tags = tags ++ opt b t.
Proof. destruct b; simpl; [reflexivity | now rewrite app_nil_r]. Qed.

Lemma cook_mate_eq v tags :
  cook_mate v tags =
  match mate_in v with
  | Some mate_tag =>
      p <- first_match mate_patterns v ;;
      Ok (tags ++ [mate_tag; "mate"] ++ opt_tag p)
  | None => Ok (tags ++ [evaluation_tag v])
  end.
Proof.
  unfold cook_mate, evaluation_tag.
  destruct (mate_in v) as [mt|].
  2:{ destruct (cp v >? 600); [reflexivity|]. now destruct (cp v >? 200). }
  assert (A : forall t, (tags ++ [mt]) ++ ["mate"] ++ [t] = tags ++ [mt; "mate"] ++ [t]).
  { intros t. now rewrite <- app_assoc. }
  assert (B : forall t, ((tags ++ [mt]) ++ ["mate"]) ++ [t] = tags ++ [mt; "mate"] ++ [t]).
  { intros t. now rewrite <- !app_assoc. }
  unfold mate_patterns, first_match, tagged.
  destruct (smothered_mate v) as [[|]|]; simpl; [now rewrite B| |reflexivity].
  destruct (back_rank_mate v) as [[|]|]; simpl; [now rewrite B| |reflexivity].
  destruct (anastasia_mate v) as [[|]|]; simpl; [now rewrite B| |reflexivity].
  destruct (hook_mate v) as [[|]|]; simpl; [now rewrite B| |reflexivity].
  destruct (arabian_mate v) as [[|]|]; simpl; [now rewrite B| |reflexivity].
  destruct (boden_or_double_bishop_mate v) as [[t|]|]; simpl; [now rewrite B| |reflexivity].
  destruct (dovetail_mate v) as [[|]|]; simpl; [now rewrite B| |reflexivity].
  now rewrite <- !app_assoc.
Qed.

Lemma cook_endgame_eq v tags :
  cook_endgame v tags = p <- first_match endgames v ;; Ok (tags ++ opt_tag p).
Proof.
  unfold cook_endgame, endgames, first_match, tagged.
  destruct (piece_endgame v PAWN) as [[|]|]; simpl; try reflexivity.
  destruct (piece_endgame v QUEEN) as [[|]|]; simpl; try reflexivity.
  destruct (piece_endgame v ROOK) as [[|]|]; simpl; try reflexivity.
  destruct (piece_endgame v BISHOP) as [[|]|]; simpl; try reflexivity.
  destruct (piece_endgame v KNIGHT) as [[|]|]; simpl; try reflexivity.
  destruct (queen_rook_endgame v) as [[|]|]; simpl; try reflexivity.
  now rewrite app_nil_r.
Qed.

Lemma cook_side_eq v tags :
  cook_side v tags =
  if negb (has "backRankMate" tags) && negb (has "fork" tags)
  then p <- first_match side_attacks v ;; Ok (tags ++ opt_tag p)
  else Ok (tags ++ []).
Proof.
  unfold cook_side, side_attacks, first_match, tagged.
  destruct (negb (has "backRankMate" tags) && negb (has "fork" tags)).
  2:{ now rewrite app_nil_r. }
  destruct (kingside_attack v) as [[|]|]; simpl; try reflexivity.
  destruct (queenside_attack v) as [[|]|]; simpl; try reflexivity.
  now rewrite app_nil_r.
Qed.

Ltac ok_step H :=
  match type of H with
  | context [bind ?c _] =>
      let r := fresh "r" in
      let Er := fresh "Er" in
      destruct c as [r|] eqn:Er; cbn [bind] in H; [| discriminate H]
  end.

Lemma cook_parts v tags :
  cook v = Ok tags -> exists p, parts_of v p /\ tags = assemble v p.
Proof.
  intros H. unfold cook in H.
  ok_step H. rename r into first, Er into Efirst.
  ok_step H. rename r into b1, Er into E1.
  ok_step H. rename r into b2, Er into E2.
  ok_step H. rename r into b3, Er into E3.
  ok_step H. rename r into b4, Er into E4.
  ok_step H. rename r into b5, Er into E5.
  ok_step H. rename r into b6, Er into E6.
  ok_step H. rename r into b7, Er into E7.
  ok_step H. rename r into b8, Er into E8.
  ok_step H. rename r into b9, Er into E9.
  ok_step H. rename r into b10, Er into E10.
  ok_step H. rename r into b11, Er into E11.
  ok_step H. rename r into b12, Er into E12.
  ok_step H. rename r into b13, Er into E13.
  ok_step H. rename r into b14, Er into E14.
  ok_step H. rename r into b15, Er into E15.
  ok_step H. rename r into te, Er into Ee.
  ok_step H. rename r into ts, Er into Es.
  injection H as <-.
  rewrite cook_endgame_eq in Ee.
  destruct (first_match endgames v) as [pe|] eqn:Epe; cbn [bind] in Ee; [| discriminate Ee].
  injection Ee as <-.
  set (o := mkOutcomes b1 b2 b3 b4 b5 b6 b7 b8 b9 b11 b12 b13 b14 b15).
  assert (M : forall x, (if b1 then x ++ ["deflection"]
               else append_if (overloading v) "overloading" x)
              = x ++ opt b1 "deflection").
  { intros x. destruct b1; simpl; [reflexivity | now rewrite app_nil_r]. }
  rewrite M, !append_if_opt in Es.
  match type of Es with
  | cook_side v ?x = _ =>
      assert (B : x = before_side v (mkParts first o pe []))
        by (unfold before_side, motif_tags, tags_of, motif_flags, o;
            cbn [flat_map fst snd
                 p_first p_outcomes p_endgame o_deflection o_defensive_move
                 o_sacrifice o_x_ray o_hanging_piece o_trapped_piece
                 o_discovered_attack o_exposed_king o_skewer o_interference
                 o_intermezzo o_pin o_clearance o_capturing_defender];
            rewrite app_nil_r, <- !app_assoc; reflexivity)
  end.
  rewrite B in Es.
  assert (X : exists side, ts = before_side v (mkParts first o pe []) ++ side).
  { rewrite cook_side_eq in Es.
    match type of Es with
    | (if ?c then _ else _) = _ => destruct c
    end.
    - destruct (first_match side_attacks v) as [ps|]; cbn [bind] in Es; [|discriminate Es].
      injection Es as <-. exists (opt_tag ps). reflexivity.
    - injection Es as <-. exists []. reflexivity. }
  destruct X as [side ->].
  exists (mkParts first o pe side). split.
  - unfold parts_of. cbn [p_first p_outcomes p_endgame p_side].
    split; [exact Efirst|]. split.
    + unfold motifs_return, o.
      cbn [o_deflection o_defensive_move
                 o_sacrifice o_x_ray o_hanging_piece o_trapped_piece
                 o_discovered_attack o_exposed_king o_skewer o_interference
                 o_intermezzo o_pin o_clearance o_capturing_defender].
      repeat (split; [assumption|]).
      split; [exists b10; split; assumption|].
      repeat (split; [assumption|]). assumption.
    + split; [exact Epe|]. exact Es.
  - unfold assemble, before_side. cbn [p_first p_outcomes p_endgame p_side].
    rewrite <- !app_assoc. reflexivity.
Qed.

Lemma parts_cook v p : parts_of v p -> cook v = Ok (assemble v p).
Proof.
  destruct p as [first o pe side].
  intros (Efirst & M & Epe & Es).
  destruct M as (E1 & E2 & E3 & E4 & E5 & E6 & E7 & E8 & E9 & (b10 & E10 & E11)
                 & E12 & E13 & E14 & E15).
  cbn [p_first p_outcomes p_endgame p_side] in *.
  unfold cook.
  rewrite Efirst; cbn [bind]. rewrite E1; cbn [bind]. rewrite E2; cbn [bind].
  rewrite E3; cbn [bind]. rewrite E4; cbn [bind]. rewrite E5; cbn [bind].
  rewrite E6; cbn [bind]. rewrite E7; cbn [bind]. rewrite E8; cbn [bind].
  rewrite E9; cbn [bind]. rewrite E10; cbn [bind]. rewrite E11; cbn [bind].
  rewrite E12; cbn [bind]. rewrite E13; cbn [bind]. rewrite E14; cbn [bind].
  rewrite E15; cbn [bind].
  rewrite cook_endgame_eq, Epe; cbn [bind].
  assert (M : forall x, (if o_deflection o then x ++ ["deflection"]
               else append_if (overloading v) "overloading" x)
              = x ++ opt (o_deflection o) "deflection").
  { intros x. destruct (o_deflection o); simpl; [reflexivity | now rewrite app_nil_r]. }
  rewrite M, !append_if_opt.
  match goal with
  | |- bind (cook_side v ?x) _ = _ =>
      assert (B : x = before_side v (mkParts first o pe side))
        by (unfold before_side, motif_tags, tags_of, motif_flags;
            cbn [flat_map fst snd p_first p_outcomes p_endgame];
            rewrite app_nil_r, <- !app_assoc; reflexivity)
  end.
  rewrite B, Es; cbn [bind].
  unfold assemble, before_side. cbn [p_first p_outcomes p_endgame p_side].
  rewrite <- !app_assoc. reflexivity.
Qed.

(** Membership in a list of tags, as a boolean. *)
Lemma has_In t tags : has t tags = true <-> In t tags.
Proof.
  unfold has. rewrite existsb_exists. split.
  - intros (x & Hx & Heq). apply String.eqb_eq in Heq. now subst.
  - intros H. exists t. split; [assumption | apply String.eqb_refl].
Qed.

Lemma within_app vocab a b : within vocab a -> within vocab b -> within vocab (a ++ b).
Proof. unfold within. intros. now apply Forall_app. Qed.

Lemma within_not_in vocab tags t :
  within vocab tags -> has t vocab = false -> ~ In t tags.
Proof.
  unfold within. rewrite Forall_forall. intros W H K.
  apply W in K. congruence.
Qed.

Lemma mate_in_within v t : mate_in v = Some t -> has t mate_in_tags = true.
Proof.
  unfold mate_in.
  destruct (negb _); [discriminate|].
  repeat match goal with
         | |- (if ?c then _ else _) = _ -> _ => destruct c
         end; intros [= <-]; reflexivity.
Qed.

Lemma evaluation_tag_within v : has (evaluation_tag v) evaluation_tags = true.
Proof.
  unfold evaluation_tag.
  destruct (cp v >? 600); [reflexivity|]. destruct (cp v >? 200); reflexivity.
Qed.

Lemma length_tag_within v : has (length_tag v) length_tags = true.
Proof.
  unfold length_tag.
  repeat match goal with
         | |- context [if ?c then _ else _] => destruct c
         end; reflexivity.
Qed.

Lemma tagged_within vocab d t :
  has t vocab = true -> answers_within vocab (tagged d t).
Proof.
  intros H v t'. unfold tagged.
  destruct (d v) as [[|]|]; cbn [bind]; try discriminate.
  now intros [= <-].
Qed.

Lemma first_match_within vocab ds v t :
  Forall (answers_within vocab) ds ->
  first_match ds v = Ok (Some t) -> has t vocab = true.
Proof.
  induction 1 as [|d ds Hd _ IH]; cbn [first_match]; [discriminate|].
  destruct (d v) as [[t'|]|] eqn:Ed; cbn [bind]; try discriminate.
  - intros [= <-]. now apply (Hd v).
  - exact IH.
Qed.

Lemma boden_within : answers_within mate_pattern_tags boden_or_double_bishop_mate.
Proof.
  intros v t. unfold boden_or_double_bishop_mate.
  destruct (king_of _ _); cbn [bind]; [|discriminate].
  destruct (as_child _); cbn [bind]; [|discriminate].
  destruct (len _ <? 2); [discriminate|].
  destruct (negb _); [discriminate|].
  destruct (index _ 0); cbn [bind]; [|discriminate].
  destruct (index _ 1); cbn [bind]; [|discriminate].
  destruct (Bool.eqb _ _); intros [= <-]; reflexivity.
Qed.

Lemma mate_patterns_within : Forall (answers_within mate_pattern_tags) mate_patterns.
Proof.
  unfold mate_patterns.
  repeat (apply Forall_cons;
          [first [apply tagged_within; reflexivity | apply boden_within] |]).
  apply Forall_nil.
Qed.

Lemma endgames_within : Forall (answers_within endgame_tags) endgames.
Proof.
  unfold endgames.
  repeat (apply Forall_cons; [apply tagged_within; reflexivity |]).
  apply Forall_nil.
Qed.

Lemma side_attacks_within : Forall (answers_within side_tags) side_attacks.
Proof.
  unfold side_attacks.
  repeat (apply Forall_cons; [apply tagged_within; reflexivity |]).
  apply Forall_nil.
Qed.

Lemma opt_tag_within vocab ds v p :
  Forall (answers_within vocab) ds ->
  first_match ds v = Ok p -> within vocab (opt_tag p).
Proof.
  intros H F. destruct p as [t|]; cbn [opt_tag]; [|apply Forall_nil].
  apply Forall_cons; [|apply Forall_nil].
  eapply first_match_within; eassumption.
Qed.

Lemma only_app vocab a b : only vocab (a ++ b) = only vocab a ++ only vocab b.
Proof. apply filter_app. Qed.

Lemma only_same vocab tags : within vocab tags -> only vocab tags = tags.
Proof.
  unfold within, only. induction 1 as [|t l Ht _ IH]; [reflexivity|].
  cbn [filter]. now rewrite Ht, IH.
Qed.

Lemma only_other vocab vocab' tags :
  within vocab' tags -> disjoint vocab vocab' = true -> only vocab tags = [].
Proof.
  unfold within, only, disjoint. rewrite forallb_forall.
  intros W D. induction W as [|t l Ht _ IH]; [reflexivity|].
  cbn [filter]. apply has_In in Ht. apply D in Ht.
  destruct (has t vocab); [discriminate Ht | exact IH].
Qed.

Lemma only_In vocab tags t : In t (only vocab tags) <-> In t tags /\ has t vocab = true.
Proof. unfold only. apply filter_In. Qed.

Lemma tags_of_within flags : within (map snd flags) (tags_of flags).
Proof.
  unfold within, tags_of. induction flags as [|[b t] l IH]; [apply Forall_nil|].
  cbn [flat_map fst snd map]. apply Forall_app. split.
  - destruct b; cbn [opt]; [|apply Forall_nil].
    apply Forall_cons; [|apply Forall_nil].
    apply has_In. now left.
  - eapply Forall_impl; [|exact IH].
    intros a Ha. apply has_In. right. now apply has_In.
Qed.

Lemma motif_tags_within v o : within motif_names (motif_tags v o).
Proof. apply (tags_of_within (motif_flags v o)). Qed.

Lemma count_tags_of t flags :
  count_occ string_dec (tags_of flags) t = times t flags.
Proof.
  unfold tags_of, times. induction flags as [|[b s] l IH]; [reflexivity|].
  cbn [flat_map filter List.length fst snd].
  rewrite count_occ_app.
  etransitivity; [apply f_equal; exact IH|].
  destruct (String.eqb t s) eqn:Ets.
  - apply String.eqb_eq in Ets. subst s.
    destruct b; cbn [opt andb count_occ List.length]; [|reflexivity].
    destruct (string_dec t t) as [_|N]; [reflexivity | now elim N].
  - apply String.eqb_neq in Ets.
    destruct b; cbn [opt andb count_occ List.length]; [|reflexivity].
    destruct (string_dec s t) as [->|_]; [now elim Ets | reflexivity].
Qed.

Lemma count_within vocab tags t :
  within vocab tags -> has t vocab = false -> count_occ string_dec tags t = 0%nat.
Proof.
  intros W H. apply count_occ_not_In. eapply within_not_in; eassumption.
Qed.

Lemma first_shape v first :
  cook_mate v [] = Ok first ->
  (exists mt p, mate_in v = Some mt /\ first_match mate_patterns v = Ok p
                /\ first = [mt; "mate"] ++ opt_tag p)
  \/ (mate_in v = None /\ first = [evaluation_tag v]).
Proof.
  rewrite cook_mate_eq. destruct (mate_in v) as [mt|].
  - destruct (first_match mate_patterns v) as [p|] eqn:Ep; cbn [bind]; [|discriminate].
    intros [= <-]. left. exists mt, p. repeat split; reflexivity.
  - intros [= <-]. right. split; reflexivity.
Qed.

Lemma first_within v first : cook_mate v [] = Ok first -> within first_tags first.
Proof.
  intros H. apply first_shape in H.
  destruct H as [(mt & p & Em & Ep & ->) | (_ & ->)].
  - apply Forall_cons.
    { apply mate_in_within in Em. apply has_In in Em. apply has_In.
      unfold first_tags. apply in_or_app. now left. }
    apply Forall_cons; [reflexivity|].
    pose proof (opt_tag_within _ _ _ _ mate_patterns_within Ep) as W.
    eapply Forall_impl; [|exact W].
    intros t Ht. apply has_In in Ht. apply has_In. unfold first_tags.
    apply in_or_app. right. apply in_or_app. right. apply in_or_app. now left.
  - apply Forall_cons; [|apply Forall_nil].
    pose proof (evaluation_tag_within v) as Ht.
    apply has_In in Ht. apply has_In. unfold first_tags.
    apply in_or_app. right. apply in_or_app. right. apply in_or_app. now right.
Qed.

Lemma side_shape v before side :
  cook_side v before = Ok (before ++ side) ->
  (has "backRankMate" before = false /\ has "fork" before = false
   /\ exists p, first_match side_attacks v = Ok p /\ side = opt_tag p)
  \/ ((has "backRankMate" before = true \/ has "fork" before = true) /\ side = []).
Proof.
  rewrite cook_side_eq.
  destruct (has "backRankMate" before) eqn:Hb; cbn [negb andb].
  { intros [= K]. apply app_inv_head in K. right. split; [now left | now symmetry]. }
  destruct (has "fork" before) eqn:Hf; cbn [negb andb].
  { intros [= K]. apply app_inv_head in K. right. split; [now right | now symmetry]. }
  destruct (first_match side_attacks v) as [p|] eqn:Ep; cbn [bind]; [|discriminate].
  intros [= K]. apply app_inv_head in K. left.
  repeat split. exists p. split; [reflexivity | now symmetry].
Qed.

Lemma side_within v before side :
  cook_side v before = Ok (before ++ side) -> within side_tags side.
Proof.
  intros H. apply side_shape in H.
  destruct H as [(_ & _ & p & Ep & ->) | (_ & ->)]; [|apply Forall_nil].
  eapply opt_tag_within; [apply side_attacks_within | eassumption].
Qed.

(** The tags of a vocabulary in the whole list, part by part. *)
Lemma only_assemble vocab v p :
  only vocab (assemble v p) =
  only vocab (p_first p) ++ only vocab (motif_tags v (p_outcomes p))
  ++ only vocab (opt_tag (p_endgame p)) ++ only vocab (p_side p)
  ++ only vocab [length_tag v].
Proof. unfold assemble. now rewrite !only_app. Qed.

Lemma In_assemble t v p :
  In t (assemble v p) <->
  In t (p_first p) \/ In t (motif_tags v (p_outcomes p))
  \/ In t (opt_tag (p_endgame p)) \/ In t (p_side p) \/ t = length_tag v.
Proof.
  unfold assemble. rewrite !in_app_iff. cbn [In].
  split; intros H; decompose [or] H; subst; auto 10; contradiction.
Qed.

(** Where the parts come from, once [cook] has returned. *)
Lemma parts_within v p :
  parts_of v p ->
  within first_tags (p_first p)
  /\ within motif_names (motif_tags v (p_outcomes p))
  /\ within endgame_tags (opt_tag (p_endgame p))
  /\ within side_tags (p_side p)
  /\ within length_tags [length_tag v].
Proof.
  intros (Hf & _ & He & Hs).
  split; [eapply first_within; eassumption|].
  split; [apply motif_tags_within|].
  split; [eapply opt_tag_within; [apply endgames_within | eassumption]|].
  split; [eapply side_within; eassumption|].
  apply Forall_cons; [apply length_tag_within | apply Forall_nil].
Qed.

(** ** The detectors return on sound lines *)

Lemma chain_In r ab bl c :
  In c (chain r ab bl) ->
  root_board c = r /\ line_of c = rev ab ++ bl
  /\ (List.length ab <= List.length (above c))%nat.
Proof.
  revert ab. induction bl as [|p rest IH]; intros ab; cbn [chain In]; [contradiction|].
  intros [<- | H].
  - unfold line_of. cbn. repeat split. lia.
  - apply IH in H. destruct H as (H1 & H2 & H3).
    cbn [rev List.length] in *. rewrite <- app_assoc in H2. cbn [app] in H2.
    repeat split; try assumption. lia.
Qed.

Lemma chain_skipn r bl k ab :
  skipn k (chain r ab bl) = chain r (rev (firstn k bl) ++ ab) (skipn k bl).
Proof.
  revert ab bl. induction k as [|k IH]; intros ab bl; [reflexivity|].
  destruct bl as [|p rest]; [reflexivity|].
  cbn [chain skipn firstn rev]. rewrite IH, <- app_assoc. reflexivity.
Qed.

Lemma chain_length r ab bl : List.length (chain r ab bl) = List.length bl.
Proof.
  revert ab. induction bl as [|p rest IH]; intros ab; [reflexivity|].
  cbn [chain List.length]. now rewrite IH.
Qed.

Lemma mainline_length v : List.length (mainline v) = List.length (game_line v).
Proof. apply chain_length. Qed.

Lemma step2_In {A : Type} (l : list A) a : In a (step2 l) -> In a l.
Proof.
  assert (G : forall n (l : list A), (List.length l <= n)%nat ->
                In a (step2 l) -> In a l).
  { induction n as [|n IH]; intros [|x [|y l']] L; cbn [step2 In]; try tauto.
    - cbn in L. lia.
    - intros [->|H]; [now left|]. right. right.
      apply IH; [cbn in L; lia | exact H]. }
  apply (G (List.length l)). lia.
Qed.

(** The nodes of [mainline[k:]] have at least [k] nodes above them. *)
Lemma mainline_skipn_deep v k c :
  In c (skipn k (mainline v)) ->
  root_board c = game_root v /\ line_of c = game_line v
  /\ (k <= List.length (above c))%nat.
Proof.
  unfold mainline. rewrite chain_skipn, app_nil_r. intros H.
  destruct (Nat.le_gt_cases k (List.length (game_line v))) as [L|L].
  - apply chain_In in H. destruct H as (H1 & H2 & H3).
    rewrite rev_involutive, firstn_skipn in H2.
    rewrite length_rev, firstn_length_le in H3 by exact L.
    repeat split; assumption.
  - rewrite skipn_all2 in H by lia. contradiction.
Qed.

Lemma later_solving_deep v c :
  In c (later_solving v) -> In c (skipn 3 (mainline v)).
Proof.
  unfold later_solving, solving, from.
  destruct (mainline v) as [|x0 [|x1 [|x2 rest]]]; cbn [skipn step2 In]; try tauto.
  apply step2_In.
Qed.

Lemma solving_deep v c : In c (solving v) -> In c (skipn 1 (mainline v)).
Proof. unfold solving, from. apply step2_In. Qed.

Lemma line_ok_Forall prev l :
  line_ok prev l = true ->
  Forall (fun p => truthy p /\ position_ok (ply_board p) = true) l.
Proof.
  revert prev. induction l as [|p l IH]; intros prev; [intros _; apply Forall_nil|].
  cbn [line_ok]. unfold step_ok. rewrite !andb_true_iff.
  intros [[[[[_ T] _] _] P] L]. apply Forall_cons.
  - split; assumption.
  - eapply IH; eassumption.
Qed.

Lemma wf_plies v :
  sound v ->
  Forall (fun p => truthy p /\ position_ok (ply_board p) = true) (game_line v).
Proof. intros W. eapply line_ok_Forall. apply W. Qed.

(** A node of the line of a well-formed [Variation]: its own step and the
    steps above it are steps of that line. *)
Lemma node_plies v c :
  sound v -> In c (mainline v) ->
  Forall (fun p => truthy p /\ position_ok (ply_board p) = true) (own c :: above c).
Proof.
  intros W H. pose proof (wf_plies v W) as F.
  apply (mainline_skipn_deep v 0) in H. destruct H as (_ & L & _).
  rewrite <- L in F. unfold line_of in F.
  apply Forall_app in F. destruct F as [F1 F2].
  apply Forall_cons.
  - now inversion F2.
  - apply Forall_rev in F1. now rewrite rev_involutive in F1.
Qed.

Lemma skipn_In {A : Type} k (l : list A) a : In a (skipn k l) -> In a l.
Proof.
  revert l. induction k as [|k IH]; intros [|x l]; cbn [skipn In]; try tauto.
  intros H. right. now apply IH.
Qed.

Lemma pieces_In b pt c s :
  In s (pieces b pt c) <->
  In s SQUARES /\ exists p, piece_at b s = Some p /\ piece_type p = pt /\ color p = c.
Proof.
  unfold pieces. rewrite filter_In. split.
  - intros [Hs H]. split; [exact Hs|].
    destruct (piece_at b s) as [p|]; [|discriminate].
    exists p. unfold piece_eqb in H. cbn in H. apply andb_true_iff in H.
    destruct H as [H1 H2]. apply pt_eqb_eq in H1. apply Bool.eqb_prop in H2.
    now repeat split.
  - intros [Hs (p & Hp & <- & <-)]. split; [exact Hs|]. rewrite Hp.
    unfold piece_eqb. cbn. now rewrite pt_eqb_refl, Bool.eqb_reflx.
Qed.

Lemma SQUARES_range k : In k SQUARES <-> 0 <= k < 64.
Proof.
  unfold SQUARES. rewrite in_map_iff. split.
  - intros (n & <- & Hn). apply in_seq in Hn. lia.
  - intros H. exists (Z.to_nat k). split; [lia|]. apply in_seq. lia.
Qed.

Lemma position_ok_kings b c :
  position_ok b = true -> exists k, pieces b KING c = [k].
Proof.
  unfold position_ok, WHITE, BLACK, len. rewrite !andb_true_iff.
  intros [[[Kw Kb] _] _]. apply Z.eqb_eq in Kw, Kb.
  destruct c.
  - destruct (pieces b KING true) as [|k [|k' l]]; cbn in Kw; try lia. now exists k.
  - destruct (pieces b KING false) as [|k [|k' l]]; cbn in Kb; try lia. now exists k.
Qed.

Lemma position_ok_king b c : position_ok b = true -> exists k, king b c = Some k.
Proof.
  intros P. destruct (position_ok_kings b c P) as [k Hk].
  exists k. unfold king. now rewrite Hk.
Qed.

Lemma king_In b c k : king b c = Some k -> In k (pieces b KING c).
Proof.
  unfold king. intros H. apply in_rev.
  destruct (rev (pieces b KING c)); [discriminate|]. injection H as ->. now left.
Qed.

Lemma king_on_board b c k : king b c = Some k -> 0 <= k < 64.
Proof.
  intros H. apply king_In, pieces_In in H. apply SQUARES_range, H.
Qed.

Lemma position_ok_checkers b s :
  position_ok b = true -> In s (squares_of (checkers b)) ->
  exists p, piece_at b s = Some p.
Proof.
  unfold position_ok, all_occupied. rewrite !andb_true_iff. intros [[_ C] _] H.
  rewrite forallb_forall in C. apply C in H.
  destruct (piece_at b s); [eexists; reflexivity | discriminate].
Qed.

Lemma position_ok_attackers b c t s :
  position_ok b = true -> In t SQUARES -> In s (squares_of (attackers b c t)) ->
  exists p, piece_at b s = Some p.
Proof.
  unfold position_ok, all_occupied. rewrite !andb_true_iff. intros [_ A] Ht H.
  rewrite forallb_forall in A.
  assert (Hc : In c [WHITE; BLACK]) by (destruct c; cbn; auto).
  apply A in Hc. rewrite forallb_forall in Hc. apply Hc in Ht.
  rewrite forallb_forall in Ht. apply Ht in H.
  destruct (piece_at b s); [eexists; reflexivity | discriminate].
Qed.

Lemma z_in_In x l : z_in x l = true <-> In x l.
Proof.
  unfold z_in. rewrite existsb_exists. split.
  - intros (y & Hy & Heq). apply Z.eqb_eq in Heq. now subst.
  - intros H. exists x. split; [assumption | apply Z.eqb_refl].
Qed.

Lemma king_some b c :
  (exists k, king b c = Some k) <->
  exists s, In s SQUARES /\
    match piece_at b s with
    | Some p => piece_eqb p (mkPiece KING c)
    | None => false
    end = true.
Proof.
  unfold king, pieces. split.
  - intros [k Hk].
    assert (In k (rev (filter (fun s => match piece_at b s with
                                        | Some p => piece_eqb p (mkPiece KING c)
                                        | None => false
                                        end) SQUARES))) as H.
    { destruct (rev _); [discriminate|]. injection Hk as ->. now left. }
    apply in_rev, filter_In in H. now exists k.
  - intros (s & Hs & Hp).
    assert (In s (rev (filter (fun s => match piece_at b s with
                                        | Some p => piece_eqb p (mkPiece KING c)
                                        | None => false
                                        end) SQUARES))) as H.
    { apply -> in_rev. apply filter_In. now split. }
    destruct (rev _) as [|k l]; [contradiction|]. now exists k.
Qed.

Lemma king_transformed (f : Square -> Square) (g : Piece -> Piece) b b' c c' :
  permutes f = true ->
  (forall s, piece_at b' s = option_map g (piece_at b (f s))) ->
  (forall p, piece_eqb p (mkPiece KING c) = true ->
             piece_eqb (g p) (mkPiece KING c') = true) ->
  (exists k, king b c = Some k) -> exists k, king b' c' = Some k.
Proof.
  intros P Hb Hg. rewrite !king_some. intros (s & Hs & Hp).
  unfold permutes in P. rewrite forallb_forall in P.
  apply P in Hs. apply andb_true_iff in Hs. destruct Hs as [Hin Hinv].
  apply z_in_In in Hin. apply Z.eqb_eq in Hinv.
  exists (f s). split; [exact Hin|].
  rewrite Hb, Hinv. destruct (piece_at b s) as [p|]; [|discriminate].
  cbn [option_map]. now apply Hg.
Qed.

Lemma king_flip b c :
  (exists k, king b c = Some k) -> exists k, king (flip_horizontal b) c = Some k.
Proof.
  apply (king_transformed (fun s => Z.lxor s 7) (fun p => p)).
  - vm_compute. reflexivity.
  - intros s. cbn. now destruct (piece_at b (Z.lxor s 7)).
  - trivial.
Qed.

Lemma king_mirror b c :
  (exists k, king b c = Some k) -> exists k, king (mirror b) (negb c) = Some k.
Proof.
  apply (king_transformed (fun s => Z.lxor s 56)
           (fun p => mkPiece (piece_type p) (negb (color p)))).
  - vm_compute. reflexivity.
  - intros s. cbn. now destruct (piece_at b (Z.lxor s 56)).
  - intros [pt pc]. unfold piece_eqb. cbn.
    rewrite !andb_true_iff. intros [H1 H2]. split; [exact H1|].
    apply Bool.eqb_prop in H2. subst. now destruct c.
Qed.

Lemma returns_Ok {A : Type} (a : A) : returns (Ok a).
Proof. now exists a. Qed.

Lemma for_each_returns {A R : Type} (l : list A) body (orelse : result R) :
  (forall a, In a l -> returns (body a)) -> returns orelse ->
  returns (for_each l body orelse).
Proof.
  intros Hb Ho. induction l as [|a l IH]; cbn [for_each]; [exact Ho|].
  destruct (Hb a (or_introl eq_refl)) as [[r|] ->]; cbn [bind].
  - apply returns_Ok.
  - apply IH. intros x Hx. apply Hb. now right.
Qed.

Lemma index_returns {A : Type} (l : list A) i :
  (i < List.length l)%nat -> returns (index l i).
Proof.
  intros H. unfold index. destruct (nth_error l i) eqn:En; [apply returns_Ok|].
  apply nth_error_None in En. lia.
Qed.

Lemma index_In {A : Type} (l : list A) i a : index l i = Ok a -> In a l.
Proof.
  unfold index. destruct (nth_error l i) eqn:En; [|discriminate].
  intros [= <-]. eapply nth_error_In. eassumption.
Qed.

Lemma index_neg_returns {A : Type} (l : list A) k :
  (1 <= k <= List.length l)%nat -> returns (index_neg l k).
Proof.
  intros H. unfold index_neg.
  destruct (Nat.ltb_spec (List.length l) k); [lia|].
  apply index_returns. lia.
Qed.

(** The test at the head of the goal, then a tree of tests whose leaves all
    return. *)
Ltac head_test :=
  match goal with
  | |- returns (if ?c then _ else _) => destruct c
  | |- returns (match ?x with _ => _ end) => destruct x
  end.

Ltac returns_tree :=
  repeat match goal with
         | |- returns (Ok _) => apply returns_Ok
         | |- returns (bind (Ok _) _) => cbn [bind]
         | |- returns (if ?c then _ else _) => destruct c
         | |- returns (match ?x with _ => _ end) => destruct x
         end.

Lemma game_end_child v :
  sound v -> exists c, game_end v = Child c /\ In c (mainline v).
Proof.
  intros W. unfold game_end.
  destruct (rev (mainline v)) as [|c l] eqn:Er.
  - pose proof (sound_length v W) as L. rewrite <- mainline_length, <- length_rev, Er in L.
    cbn in L. lia.
  - exists c. split; [reflexivity|]. apply in_rev. rewrite Er. now left.
Qed.

Lemma node_position v c :
  sound v -> In c (mainline v) -> position_ok (board c) = true.
Proof.
  intros W H. pose proof (node_plies v c W H) as F. inversion F as [|? ? [_ P] _]. exact P.
Qed.

(** The start every mate detector shares: the last node, its position and
    the king of the side that is not [pov]. *)
Ltac mate_start W :=
  let c := fresh "c" in
  let Ec := fresh "Ec" in
  let Hc := fresh "Hc" in
  let k := fresh "k" in
  let Ek := fresh "Ek" in
  let P := fresh "P" in
  match type of W with
  | sound ?v =>
      destruct (game_end_child v W) as (c & Ec & Hc);
      pose proof (node_position v c W Hc) as P;
      destruct (position_ok_king (board c) (negb (pov v)) P) as [k Ek];
      rewrite Ec; cbn [gboard as_child]; unfold king_of; rewrite Ek; cbn [bind]
  end.

Lemma smothered_mate_returns v : sound v -> returns (smothered_mate v).
Proof.
  intros W. unfold smothered_mate. mate_start W.
  apply for_each_returns; [|apply returns_Ok].
  intros s Hs. destruct (position_ok_checkers _ _ P Hs) as [p ->].
  returns_tree.
Qed.

Lemma BB_SQUARES_returns s : -64 <= s < 64 -> returns (BB_SQUARES s).
Proof.
  intros H. unfold BB_SQUARES.
  destruct (Z.leb_spec (-64) s); [|lia]. destruct (Z.ltb_spec s 64); [|lia].
  apply returns_Ok.
Qed.

Lemma SquareSet_add_returns s m : -64 <= s < 64 -> returns (SquareSet_add s m).
Proof.
  intros H. unfold SquareSet_add.
  destruct (BB_SQUARES_returns s H) as [bb ->]. apply returns_Ok.
Qed.

Lemma piece_at_index_returns b s : -64 <= s < 64 -> returns (piece_at_index b s).
Proof.
  intros H. unfold piece_at_index.
  destruct (BB_SQUARES_returns s H) as [bb ->]. apply returns_Ok.
Qed.

Lemma rank_bounds k r : 0 <= k < 64 -> square_rank k = r -> 8 * r <= k < 8 * r + 8.
Proof.
  unfold square_rank. intros H <-. rewrite Z.shiftr_div_pow2 by lia.
  change (2 ^ 3) with 8.
  pose proof (Z.div_mod k 8 ltac:(lia)). pose proof (Z.mod_pos_bound k 8 ltac:(lia)).
  lia.
Qed.

Lemma file_bounds k : 0 <= k < 64 -> square_file k = k mod 8.
Proof.
  intros H. unfold square_file. change 7 with (Z.ones 3).
  rewrite Z.land_ones by lia. reflexivity.
Qed.

Lemma back_rank_mate_returns v : sound v -> returns (back_rank_mate v).
Proof.
  intros W. unfold back_rank_mate. mate_start W.
  pose proof (king_on_board _ _ _ Ek) as B.
  destruct (is_checkmate (board c)); cbn [andb]; [|apply returns_Ok].
  destruct (Z.eqb_spec (square_rank k) (if pov v then 7 else 0)) as [R|];
    [|apply returns_Ok].
  apply (rank_bounds k _ B) in R.
  unfold SquareSet_from_square.
  destruct (pov v).
  - destruct (BB_SQUARES_returns (k + -8)) as [m0 ->]; [lia|]. cbn [bind].
    assert (R1 : exists m1, (if square_file k <? 7 then SquareSet_add (k - 7) m0
                             else Ok m0) = Ok m1).
    { destruct (square_file k <? 7); [|now exists m0].
      apply SquareSet_add_returns. lia. }
    destruct R1 as [m1 ->]. cbn [bind].
    assert (R2 : exists m2, (if square_file k >? 0 then SquareSet_add (k - 9) m1
                             else Ok m1) = Ok m2).
    { destruct (square_file k >? 0); [|now exists m1].
      apply SquareSet_add_returns. lia. }
    destruct R2 as [m2 ->]. cbn [bind]. returns_tree.
  - destruct (BB_SQUARES_returns (k + 8)) as [m0 ->]; [lia|]. cbn [bind].
    assert (R1 : exists m1, (if square_file k <? 7 then SquareSet_add (k + 9) m0
                             else Ok m0) = Ok m1).
    { destruct (square_file k <? 7); [|now exists m0].
      apply SquareSet_add_returns. lia. }
    destruct R1 as [m1 ->]. cbn [bind].
    assert (R2 : exists m2, (if square_file k >? 0 then SquareSet_add (k + 7) m1
                             else Ok m1) = Ok m2).
    { destruct (square_file k >? 0); [|now exists m1].
      apply SquareSet_add_returns. lia. }
    destruct R2 as [m2 ->]. cbn [bind]. returns_tree.
Qed.

(** The king of a flipped board stands on the flipped square of the king. *)
Lemma king_flip_square b c k k' :
  pieces b KING c = [k] -> king (flip_horizontal b) c = Some k' -> k' = Z.lxor k 7.
Proof.
  intros Hk H. apply king_In, pieces_In in H.
  destruct H as [Hs (p & Hp & Ht & Hc)].
  assert (P : permutes (fun s => Z.lxor s 7) = true) by (vm_compute; reflexivity).
  unfold permutes in P. rewrite forallb_forall in P.
  apply P in Hs. apply andb_true_iff in Hs. destruct Hs as [Hin Hinv].
  apply z_in_In in Hin. apply Z.eqb_eq in Hinv.
  assert (In (Z.lxor k' 7) (pieces b KING c)) as K.
  { apply pieces_In. split; [exact Hin|]. exists p. now repeat split. }
  rewrite Hk in K. destruct K as [K|[]]. now rewrite K.
Qed.

(** On the a-file or, flipped, from the h-file, and off the first and last
    ranks, the king leaves room for the two squares to its right. *)
Lemma anastasia_room k :
  0 <= k < 64 ->
  z_in (square_file k) [0; 7] && negb (z_in (square_rank k) [0; 7]) = true ->
  let k' := if negb (square_file k =? 0) then Z.lxor k 7 else k in
  -64 <= k' + 1 < 64 /\ -64 <= k' + 3 < 64.
Proof.
  assert (F : forallb (fun k =>
                implb (z_in (square_file k) [0; 7] && negb (z_in (square_rank k) [0; 7]))
                      (let k' := if negb (square_file k =? 0) then Z.lxor k 7 else k in
                       (-64 <=? k' + 1) && (k' + 1 <? 64)
                       && (-64 <=? k' + 3) && (k' + 3 <? 64))) SQUARES = true)
    by (vm_compute; reflexivity).
  rewrite forallb_forall in F.
  intros B C. apply SQUARES_range in B. apply F in B. rewrite C in B.
  cbn [implb] in B. cbv zeta in B. rewrite !andb_true_iff in B.
  destruct B as [[[B1 B2] B3] B4].
  apply Z.leb_le in B1, B3. apply Z.ltb_lt in B2, B4. cbv zeta. lia.
Qed.

Lemma sole_king b c k : pieces b KING c = [k] -> king b c = Some k.
Proof. intros H. unfold king. now rewrite H. Qed.

Lemma anastasia_king b c k (flip : bool) :
  pieces b KING c = [k] ->
  king (if flip then flip_horizontal b else b) c
  = Some (if flip then Z.lxor k 7 else k).
Proof.
  intros H. destruct flip; [|now apply sole_king].
  destruct (king_flip b c) as [k' Hk']; [exists k; now apply sole_king|].
  rewrite Hk'. f_equal. eapply king_flip_square; eassumption.
Qed.

Lemma anastasia_mate_returns v : sound v -> returns (anastasia_mate v).
Proof.
  intros W. unfold anastasia_mate. mate_start W.
  destruct (z_in (square_file k) [0; 7] && negb (z_in (square_rank k) [0; 7]))
    eqn:C1; [|apply returns_Ok].
  head_test; [|apply returns_Ok].
  destruct (position_ok_kings (board c) (negb (pov v)) P) as [k0 Hk0].
  assert (k0 = k) as ->.
  { rewrite (sole_king _ _ _ Hk0) in Ek. now injection Ek. }
  rewrite (anastasia_king (board c) (negb (pov v)) k _ Hk0). cbn [bind].
  destruct (anastasia_room k (king_on_board _ _ _ (sole_king _ _ _ Hk0)) C1) as [R1 R3].
  generalize dependent (if negb (square_file k =? 0)
                        then flip_horizontal (board c) else board c).
  generalize dependent (if negb (square_file k =? 0) then Z.lxor k 7 else k).
  intros k' R1 R3 b'.
  destruct (piece_at_index_returns b' _ R1) as [blocker ->].
  destruct (piece_at_index_returns b' _ R3) as [knight Eknight].
  cbn [bind]. destruct blocker as [blocker|]; [|apply returns_Ok].
  head_test; [|apply returns_Ok].
  rewrite Eknight. cbn [bind]. returns_tree.
Qed.

Lemma hook_mate_returns v : sound v -> returns (hook_mate v).
Proof. intros W. unfold hook_mate. mate_start W. returns_tree. Qed.

Lemma arabian_mate_returns v : sound v -> returns (arabian_mate v).
Proof. intros W. unfold arabian_mate. mate_start W. returns_tree. Qed.

Lemma dovetail_mate_returns v : sound v -> returns (dovetail_mate v).
Proof. intros W. unfold dovetail_mate. mate_start W. returns_tree. Qed.

Lemma boden_returns v : sound v -> returns (boden_or_double_bishop_mate v).
Proof.
  intros W. unfold boden_or_double_bishop_mate. mate_start W.
  generalize (pieces (board c) BISHOP (pov v)). intros bs.
  destruct (Z.ltb_spec (len bs) 2) as [|L]; [apply returns_Ok|].
  head_test; [apply returns_Ok|].
  destruct bs as [|b0 [|b1 bs]]; cbn in L; try lia.
  cbn [index nth_error bind]. returns_tree.
Qed.

Lemma first_match_returns ds v :
  Forall (fun d => returns (d v)) ds -> returns (first_match ds v).
Proof.
  induction 1 as [|d ds [[t|] Hd] _ IH]; cbn [first_match].
  - apply returns_Ok.
  - rewrite Hd. apply returns_Ok.
  - rewrite Hd. exact IH.
Qed.

Lemma tagged_returns d t v : returns (d v) -> returns (tagged d t v).
Proof. intros [b Hb]. unfold tagged. rewrite Hb. apply returns_Ok. Qed.

Lemma mate_patterns_sound v :
  sound v -> returns (first_match mate_patterns v).
Proof.
  intros W. apply first_match_returns. unfold mate_patterns.
  apply Forall_cons; [apply tagged_returns, smothered_mate_returns, W|].
  apply Forall_cons; [apply tagged_returns, back_rank_mate_returns, W|].
  apply Forall_cons; [apply tagged_returns, anastasia_mate_returns, W|].
  apply Forall_cons; [apply tagged_returns, hook_mate_returns, W|].
  apply Forall_cons; [apply tagged_returns, arabian_mate_returns, W|].
  apply Forall_cons; [apply boden_returns, W|].
  apply Forall_cons; [apply tagged_returns, dovetail_mate_returns, W|].
  apply Forall_nil.
Qed.

Lemma cook_mate_returns v : sound v -> returns (cook_mate v []).
Proof.
  intros W. rewrite cook_mate_eq. destruct (mate_in v); [|apply returns_Ok].
  destruct (mate_patterns_sound v W) as [p ->]. apply returns_Ok.
Qed.

(** A node of [mainline[1::2][1:]] has three nodes above it, none with a
    null move. *)
Lemma later_node v c :
  sound v -> In c (later_solving v) ->
  exists p1 p2 p3 ps,
    above c = p1 :: p2 :: p3 :: ps
    /\ truthy (own c) /\ truthy p1 /\ truthy p2 /\ truthy p3.
Proof.
  intros W H. apply later_solving_deep in H.
  pose proof (node_plies v c W (skipn_In _ _ _ H)) as F.
  apply mainline_skipn_deep in H. destruct H as (_ & _ & D).
  destruct (above c) as [|p1 [|p2 [|p3 ps]]]; cbn in D; try lia.
  exists p1, p2, p3, ps.
  inversion F as [|? ? [T0 _] F1]. inversion F1 as [|? ? [T1 _] F2].
  inversion F2 as [|? ? [T2 _] F3]. inversion F3 as [|? ? [T3 _] _].
  repeat split; assumption.
Qed.

(** Walking up from a node whose ancestors are known. *)
Ltac climb :=
  repeat (progress (unfold parent, parent_child, gparent, as_child, gmove, gboard,
                      some_move, move, board;
                    cbn [above own below root_board bind])).

Ltac later_start W node Hn :=
  let p1 := fresh "p1" in
  let p2 := fresh "p2" in
  let p3 := fresh "p3" in
  let ps := fresh "ps" in
  let Ea := fresh "Ea" in
  let T0 := fresh "T0" in
  let T1 := fresh "T1" in
  let T2 := fresh "T2" in
  let T3 := fresh "T3" in
  match type of W with
  | sound ?v =>
      destruct (later_node v node W Hn) as (p1 & p2 & p3 & ps & Ea & T0 & T1 & T2 & T3);
      destruct node as [r ab o bl]; cbn [above own] in Ea, T0; subst ab;
      unfold truthy in T0, T1, T2, T3; climb;
      rewrite ?T0, ?T1, ?T2, ?T3; climb
  end.

Lemma deflection_returns v : sound v -> returns (deflection v).
Proof.
  intros W. unfold deflection. apply for_each_returns; [|apply returns_Ok].
  intros node Hn. later_start W node Hn. returns_tree.
Qed.

Lemma x_ray_returns v : sound v -> returns (x_ray v).
Proof.
  intros W. unfold x_ray. apply for_each_returns; [|apply returns_Ok].
  intros node Hn. later_start W node Hn. returns_tree.
Qed.

Lemma trapped_piece_returns v : sound v -> returns (trapped_piece v).
Proof.
  intros W. unfold trapped_piece. apply for_each_returns; [|apply returns_Ok].
  intros node Hn. later_start W node Hn. returns_tree.
Qed.

Lemma discovered_attack_returns v : sound v -> returns (discovered_attack v).
Proof.
  intros W. unfold discovered_attack. head_test; [apply returns_Ok|].
  apply for_each_returns; [|apply returns_Ok].
  intros node Hn. later_start W node Hn. returns_tree.
Qed.

Lemma skewer_returns v : sound v -> returns (skewer v).
Proof.
  intros W. unfold skewer. apply for_each_returns; [|apply returns_Ok].
  intros node Hn. later_start W node Hn. returns_tree.
Qed.

Lemma self_interference_returns v : sound v -> returns (self_interference v).
Proof.
  intros W. unfold self_interference. apply for_each_returns; [|apply returns_Ok].
  intros node Hn. later_start W node Hn. returns_tree.
Qed.

Lemma interference_sound v : sound v -> returns (interference v).
Proof.
  intros W. unfold interference. apply for_each_returns; [|apply returns_Ok].
  intros node Hn. later_start W node Hn. returns_tree.
Qed.

Lemma intermezzo_returns v : sound v -> returns (intermezzo v).
Proof.
  intros W. unfold intermezzo. apply for_each_returns; [|apply returns_Ok].
  intros node Hn. later_start W node Hn. returns_tree.
Qed.

Lemma clearance_returns v : sound v -> returns (clearance v).
Proof.
  intros W. unfold clearance. apply for_each_returns; [|apply returns_Ok].
  intros node Hn. later_start W node Hn. returns_tree.
Qed.

Lemma capturing_defender_returns v : sound v -> returns (capturing_defender v).
Proof.
  intros W. unfold capturing_defender. apply for_each_returns; [|apply returns_Ok].
  intros node Hn. later_start W node Hn. returns_tree.
Qed.

Lemma wf_mainline_length v :
  sound v -> (2 <= List.length (mainline v))%nat.
Proof. intros W. rewrite mainline_length. apply W. Qed.

Lemma defensive_move_returns v : sound v -> returns (defensive_move v).
Proof.
  intros W. pose proof (wf_mainline_length v W) as L. unfold defensive_move.
  destruct (index_neg_returns (mainline v) 2) as [n2 ->]; [lia|].
  destruct (index_neg_returns (mainline v) 1) as [n1 ->]; [lia|].
  cbn [bind]. returns_tree.
Qed.

Lemma sacrifice_returns v : sound v -> returns (sacrifice v).
Proof.
  intros W. pose proof (wf_mainline_length v W) as L. unfold sacrifice.
  destruct (mainline v) as [|n0 l]; [cbn in L; lia|].
  cbn [map index nth_error bind]. apply returns_Ok.
Qed.

Lemma hanging_piece_returns v : sound v -> returns (hanging_piece v).
Proof.
  intros W. pose proof (wf_mainline_length v W) as L. unfold hanging_piece.
  destruct (mainline v) as [|n0 [|n1 l]]; cbn in L; try lia.
  destruct l as [|n2 [|n3 l]].
  - change (len [n0; n1] <? 4) with true. cbn [index nth_error bind]. returns_tree.
  - change (len [n0; n1; n2] <? 4) with true. cbn [index nth_error bind]. returns_tree.
  - cbn [index nth_error bind]. returns_tree.
Qed.

Lemma exposed_king_returns v : sound v -> returns (exposed_king v).
Proof.
  intros W. pose proof (wf_mainline_length v W) as L. unfold exposed_king.
  destruct (index_returns (mainline v) 0) as [n0 E0]; [lia|].
  rewrite E0. cbn [bind]. apply index_In in E0.
  pose proof (node_position v n0 W E0) as P.
  assert (K : exists k, king (if pov v then board n0 else mirror (board n0))
                             (negb true) = Some k).
  { destruct (pov v).
    - apply position_ok_king, P.
    - apply (king_mirror (board n0) true). apply position_ok_king, P. }
  destruct K as [k Ek]. unfold king_of. rewrite Ek. cbn [bind].
  pose proof (king_on_board _ _ _ Ek) as B.
  destruct (Z.ltb_spec (square_rank k) 5) as [|R]; [apply returns_Ok|].
  unfold SquareSet_from_square.
  destruct (BB_SQUARES_returns (k - 8)) as [m0 ->]; [lia|]. cbn [bind].
  assert (R1 : exists m1, (if square_file k >? 0
                           then squares <- SquareSet_add (k - 1) m0 ;;
                                SquareSet_add (k - 9) squares
                           else Ok m0) = Ok m1).
  { destruct (square_file k >? 0); [|now exists m0].
    destruct (SquareSet_add_returns (k - 1) m0) as [m ->]; [lia|]. cbn [bind].
    apply SquareSet_add_returns. lia. }
  destruct R1 as [m1 ->]. cbn [bind].
  assert (R2 : exists m2, (if square_file k <? 7
                           then squares <- SquareSet_add (k + 1) m1 ;;
                                SquareSet_add (k - 7) squares
                           else Ok m1) = Ok m2).
  { destruct (Z.ltb_spec (square_file k) 7) as [F|]; [|now exists m1].
    rewrite (file_bounds k B) in F.
    pose proof (Z.div_mod k 8 ltac:(lia)). pose proof (Z.mod_pos_bound k 8 ltac:(lia)).
    destruct (SquareSet_add_returns (k + 1) m1) as [m ->]; [lia|]. cbn [bind].
    apply SquareSet_add_returns. lia. }
  destruct R2 as [m2 ->]. cbn [bind]. returns_tree.
Qed.

Lemma piece_map_items_In b s p :
  In (s, p) (piece_map_items b) -> In s SQUARES /\ piece_at b s = Some p.
Proof.
  unfold piece_map_items. rewrite in_flat_map. intros (x & Hx & H).
  apply in_rev in Hx. destruct (piece_at b x) as [q|] eqn:Eq; [|contradiction].
  destruct H as [[= <- <-]|[]]. now split.
Qed.

Lemma pin_prevents_escape_returns v : sound v -> returns (pin_prevents_escape v).
Proof.
  intros W. unfold pin_prevents_escape.
  apply for_each_returns; [|apply returns_Ok].
  intros node Hn. apply solving_deep, skipn_In in Hn.
  pose proof (node_position v node W Hn) as P.
  apply for_each_returns; [|apply returns_Ok].
  intros [pinned_square pinned_piece] Hp.
  apply piece_map_items_In in Hp. destruct Hp as [Hs _].
  head_test; [apply returns_Ok|].
  head_test; [apply returns_Ok|].
  apply for_each_returns; [|apply returns_Ok].
  intros attacker_square Ha.
  destruct (position_ok_attackers _ _ _ _ P Hs Ha) as [attacker ->].
  returns_tree.
Qed.

Lemma first_two_sound v :
  sound v ->
  exists n0 n1, index (mainline v) 0 = Ok n0 /\ index (mainline v) 1 = Ok n1
                /\ In n0 (mainline v) /\ In n1 (mainline v).
Proof.
  intros W. pose proof (wf_mainline_length v W) as L.
  destruct (index_returns (mainline v) 0) as [n0 E0]; [lia|].
  destruct (index_returns (mainline v) 1) as [n1 E1]; [lia|].
  exists n0, n1. repeat split; try assumption; eapply index_In; eassumption.
Qed.

Lemma piece_endgame_returns v pt : sound v -> returns (piece_endgame v pt).
Proof.
  intros W. destruct (first_two_sound v W) as (n0 & n1 & E0 & E1 & _).
  unfold piece_endgame. rewrite E0, E1. apply returns_Ok.
Qed.

Lemma queen_rook_endgame_returns v : sound v -> returns (queen_rook_endgame v).
Proof.
  intros W. destruct (first_two_sound v W) as (n0 & n1 & E0 & E1 & _).
  unfold queen_rook_endgame. rewrite E0, E1. cbn [bind]. returns_tree.
Qed.

Lemma side_attack_returns v corner_file king_files nb_pieces :
  sound v -> returns (side_attack v corner_file king_files nb_pieces).
Proof.
  intros W. destruct (first_two_sound v W) as (n0 & n1 & E0 & E1 & _).
  unfold side_attack. rewrite E0. cbn [bind]. returns_tree.
Qed.

Lemma endgames_return v : sound v -> returns (first_match endgames v).
Proof.
  intros W. apply first_match_returns. unfold endgames.
  apply Forall_cons; [apply tagged_returns, piece_endgame_returns, W|].
  apply Forall_cons; [apply tagged_returns, piece_endgame_returns, W|].
  apply Forall_cons; [apply tagged_returns, piece_endgame_returns, W|].
  apply Forall_cons; [apply tagged_returns, piece_endgame_returns, W|].
  apply Forall_cons; [apply tagged_returns, piece_endgame_returns, W|].
  apply Forall_cons; [apply tagged_returns, queen_rook_endgame_returns, W|].
  apply Forall_nil.
Qed.

Lemma side_attacks_return v : sound v -> returns (first_match side_attacks v).
Proof.
  intros W. apply first_match_returns. unfold side_attacks.
  apply Forall_cons; [apply tagged_returns, side_attack_returns, W|].
  apply Forall_cons; [apply tagged_returns, side_attack_returns, W|].
  apply Forall_nil.
Qed.

Lemma cook_side_returns v before :
  sound v -> exists side, cook_side v before = Ok (before ++ side).
Proof.
  intros W. rewrite cook_side_eq.
  destruct (_ && _).
  - destruct (side_attacks_return v W) as [p ->]. cbn [bind]. now exists (opt_tag p).
  - now exists [].
Qed.

(** Every part of [cook] returns on a well-formed [Variation]. *)
Lemma wf_parts v : sound v -> exists p, parts_of v p.
Proof.
  intros W.
  destruct (cook_mate_returns v W) as [first Hf].
  destruct (deflection_returns v W) as [b1 H1].
  destruct (defensive_move_returns v W) as [b2 H2].
  destruct (sacrifice_returns v W) as [b3 H3].
  destruct (x_ray_returns v W) as [b4 H4].
  destruct (hanging_piece_returns v W) as [b5 H5].
  destruct (trapped_piece_returns v W) as [b6 H6].
  destruct (discovered_attack_returns v W) as [b7 H7].
  destruct (exposed_king_returns v W) as [b8 H8].
  destruct (skewer_returns v W) as [b9 H9].
  destruct (self_interference_returns v W) as [b10 H10].
  destruct (interference_sound v W) as [b10' H10'].
  destruct (intermezzo_returns v W) as [b12 H12].
  destruct (pin_prevents_escape_returns v W) as [b13 H13].
  destruct (clearance_returns v W) as [b14 H14].
  destruct (capturing_defender_returns v W) as [b15 H15].
  destruct (endgames_return v W) as [pe He].
  set (o := mkOutcomes b1 b2 b3 b4 b5 b6 b7 b8 b9 (b10 || b10') b12
                       (pin_prevents_attack v || b13) b14 b15).
  destruct (cook_side_returns v (first ++ motif_tags v o ++ opt_tag pe) W) as [side Hs].
  exists (mkParts first o pe side).
  unfold parts_of, motifs_return, before_side.
  cbn [p_first p_outcomes p_endgame p_side o o_deflection o_defensive_move
       o_sacrifice o_x_ray o_hanging_piece o_trapped_piece o_discovered_attack
       o_exposed_king o_skewer o_interference o_intermezzo o_pin o_clearance
       o_capturing_defender].
  split; [exact Hf|]. split; [|split; [exact He | exact Hs]].
  repeat (split; [assumption|]).
  split.
  { exists b10. split; [assumption|]. unfold or_else. rewrite H10'. now destruct b10. }
  split; [assumption|].
  split.
  { unfold or_else. rewrite H13. now destruct (pin_prevents_attack v). }
  split; assumption.
Qed.

Lemma cook_sound v : sound v -> returns (cook v).
Proof.
  intros W. destruct (wf_parts v W) as [p Hp].
  exists (assemble v p). now apply parts_cook.
Qed.

Lemma sound_cook v :
  sound v -> exists p, parts_of v p /\ cook v = Ok (assemble v p).
Proof.
  intros W. destruct (wf_parts v W) as [p Hp].
  exists p. split; [exact Hp | now apply parts_cook].
Qed.

Lemma wf_sound v : well_formed v -> sound v.
Proof. intros W. split; apply W. Qed.

Lemma mate_patterns_return v :
  well_formed v -> returns (first_match mate_patterns v).
Proof. intros W. apply mate_patterns_sound, wf_sound, W. Qed.

Lemma interference_returns v : well_formed v -> returns (interference v).
Proof. intros W. apply interference_sound, wf_sound, W. Qed.

Lemma first_two v :
  well_formed v ->
  exists n0 n1, index (mainline v) 0 = Ok n0 /\ index (mainline v) 1 = Ok n1
                /\ In n0 (mainline v) /\ In n1 (mainline v).
Proof. intros W. apply first_two_sound, wf_sound, W. Qed.

Lemma cook_returns v : well_formed v -> returns (cook v).
Proof. intros W. apply cook_sound, wf_sound, W. Qed.

Lemma wf_cook v :
  well_formed v -> exists p, parts_of v p /\ cook v = Ok (assemble v p).
Proof. intros W. apply sound_cook, wf_sound, W. Qed.

(** ** The properties of the tag list *)

Lemma disjoint_has a b t : disjoint a b = true -> has t b = true -> has t a = false.
Proof.
  unfold disjoint. rewrite forallb_forall. intros D H.
  apply has_In in H. apply D in H. now destruct (has t a).
Qed.

Lemma only_single_other vocab vocab' t :
  has t vocab' = true -> disjoint vocab vocab' = true -> only vocab [t] = [].
Proof.
  intros H D. apply (only_other vocab vocab'); [|exact D].
  apply Forall_cons; [exact H | apply Forall_nil].
Qed.

Lemma mate_in_checkmate v :
  (mate_in v = None <-> is_checkmate (gboard (game_end v)) = false)
  /\ ((exists t, mate_in v = Some t) <-> is_checkmate (gboard (game_end v)) = true).
Proof.
  unfold mate_in. destruct (is_checkmate (gboard (game_end v))); cbn [negb].
  - split; split; try discriminate; try reflexivity.
    + repeat match goal with
             | |- (if ?c then _ else _) = None -> _ => destruct c
             end; discriminate.
    + intros _.
      repeat match goal with
             | |- exists t, (if ?c then _ else _) = Some t => destruct c
             end; eexists; reflexivity.
  - split; split; try discriminate; try reflexivity.
    intros [t Ht]. discriminate Ht.
Qed.

(** The tags of a vocabulary that the parts other than the first block
    cannot hold. *)
Lemma only_rest vocab v p :
  parts_of v p ->
  disjoint vocab motif_names = true -> disjoint vocab endgame_tags = true ->
  disjoint vocab side_tags = true -> disjoint vocab length_tags = true ->
  only vocab (assemble v p) = only vocab (p_first p).
Proof.
  intros Hp D1 D2 D3 D4.
  destruct (parts_within v p Hp) as (_ & W1 & W2 & W3 & W4).
  rewrite only_assemble.
  rewrite (only_other vocab _ _ W1 D1), (only_other vocab _ _ W2 D2),
          (only_other vocab _ _ W3 D3), (only_other vocab _ _ W4 D4).
  now rewrite !app_nil_r.
Qed.

Lemma only_first_mate v mt p :
  mate_in v = Some mt -> first_match mate_patterns v = Ok p ->
  only mate_pattern_tags ([mt; "mate"] ++ opt_tag p) = opt_tag p
  /\ only evaluation_tags ([mt; "mate"] ++ opt_tag p) = [].
Proof.
  intros Em Ep. apply mate_in_within in Em.
  pose proof (opt_tag_within _ _ _ _ mate_patterns_within Ep) as Wp.
  rewrite !only_app.
  change [mt; "mate"] with ([mt] ++ ["mate"]). rewrite !only_app.
  rewrite (only_single_other mate_pattern_tags mate_in_tags mt Em eq_refl).
  rewrite (only_single_other evaluation_tags mate_in_tags mt Em eq_refl).
  rewrite (only_same _ _ Wp).
  rewrite (only_other evaluation_tags _ _ Wp eq_refl).
  split; reflexivity.
Qed.

Lemma mate_pattern_core v p :
  parts_of v p ->
  (is_checkmate (gboard (game_end v)) = true ->
     exists mt q, mate_in v = Some mt /\ first_match mate_patterns v = Ok q
                  /\ p_first p = [mt; "mate"] ++ opt_tag q
                  /\ only mate_pattern_tags (assemble v p) = opt_tag q)
  /\ (is_checkmate (gboard (game_end v)) = false ->
      only mate_pattern_tags (assemble v p) = []).
Proof.
  intros Hp. pose proof Hp as (Hf & _).
  rewrite (only_rest mate_pattern_tags v p Hp) by reflexivity.
  apply first_shape in Hf.
  destruct (mate_in_checkmate v) as [MN MS].
  destruct Hf as [(mt & q & Em & Eq & ->) | (En & ->)].
  - split.
    + intros _. exists mt, q. repeat split; try assumption.
      apply (proj1 (only_first_mate v mt q Em Eq)).
    + intros C. apply MN in C. congruence.
  - split.
    + intros C. apply MS in C. destruct C as [t Ht]. congruence.
    + intros _. apply (only_single_other _ evaluation_tags);
        [apply evaluation_tag_within | reflexivity].
Qed.

(** C1.  On a well-formed [Variation], [cook] returns a list with at most
    one mate-pattern tag; a mate-pattern tag is there only together with
    [mate] and a [mateInN] tag, the last position being checkmate; and when
    that position is checkmate the mate-pattern tags of the list are the
    answer of the first detector that matches, in the order smothered, back
    rank, anastasia, hook, arabian, boden/double bishop, dovetail. *)
Theorem C1_mate_pattern_exclusive v :
  well_formed v ->
  exists tags,
    cook v = Ok tags
    /\ (List.length (only mate_pattern_tags tags) <= 1)%nat
    /\ (forall t, In t (only mate_pattern_tags tags) ->
          In "mate" tags
          /\ (exists n, In n mate_in_tags /\ In n tags)
          /\ is_checkmate (gboard (game_end v)) = true)
    /\ exists q, first_match mate_patterns v = Ok q
         /\ (is_checkmate (gboard (game_end v)) = true ->
             only mate_pattern_tags tags = opt_tag q).
Proof.
  intros W. destruct (wf_cook v W) as (p & Hp & Hc).
  exists (assemble v p). split; [exact Hc|].
  destruct (mate_pattern_core v p Hp) as [CT CF].
  pose proof (mate_patterns_return v W) as R.
  destruct R as [q Eq].
  destruct (is_checkmate (gboard (game_end v))) eqn:C.
  - destruct (CT eq_refl) as (mt & q' & Em & Eq' & Ef & Eo).
    rewrite Eq in Eq'. injection Eq' as <-.
    rewrite Eo. split; [destruct q; cbn; lia|]. split.
    + intros t _. split; [|split; [|reflexivity]].
      * apply In_assemble. left. rewrite Ef. cbn. auto.
      * exists mt. split.
        -- apply has_In. eapply mate_in_within. eassumption.
        -- apply In_assemble. left. rewrite Ef. cbn. auto.
    + exists q. split; [assumption | reflexivity].
  - rewrite (CF eq_refl). split; [cbn; lia|]. split.
    + intros t [].
    + exists q. split; [assumption | discriminate].
Qed.

(** C2.  On a well-formed [Variation] whose last position is not checkmate,
    the list [cook] returns holds exactly one of [crushing], [advantage],
    [equality]: [crushing] iff [cp > 600], [advantage] iff
    [200 < cp <= 600], [equality] otherwise; when the last position is
    checkmate it holds none of the three. *)
Theorem C2_evaluation_tag v :
  well_formed v ->
  exists tags,
    cook v = Ok tags
    /\ (is_checkmate (gboard (game_end v)) = false ->
        exists e, only evaluation_tags tags = [e]
          /\ (e = "crushing" <-> cp v > 600)
          /\ (e = "advantage" <-> 200 < cp v <= 600)
          /\ (e = "equality" <-> cp v <= 200))
    /\ (is_checkmate (gboard (game_end v)) = true ->
        only evaluation_tags tags = []).
Proof.
  intros W. destruct (wf_cook v W) as (p & Hp & Hc).
  exists (assemble v p). split; [exact Hc|].
  pose proof Hp as (Hf & _).
  rewrite (only_rest evaluation_tags v p Hp) by reflexivity.
  apply first_shape in Hf.
  destruct (mate_in_checkmate v) as [MN MS].
  destruct Hf as [(mt & q & Em & Eq & ->) | (En & ->)].
  - split.
    + intros C. apply MN in C. congruence.
    + intros _. apply (proj2 (only_first_mate v mt q Em Eq)).
  - split.
    + intros _. exists (evaluation_tag v). split.
      * apply (only_same evaluation_tags).
        apply Forall_cons; [apply evaluation_tag_within | apply Forall_nil].
      * unfold evaluation_tag.
        destruct (Z.gtb_spec (cp v) 600); [|destruct (Z.gtb_spec (cp v) 200)];
          (repeat split); intros; try reflexivity; try discriminate; lia.
    + intros C. apply MS in C. destruct C as [t Ht]. congruence.
Qed.

(** C3.  On a well-formed [Variation], the list [cook] returns ends with a
    length tag, holds no other length tag, and that tag is decided by the
    length of the mainline alone: [oneMove] for 2, [short] for 4,
    [veryLong] from 8 on, [long] otherwise. *)
Theorem C3_length_tag v :
  well_formed v ->
  exists pre t,
    cook v = Ok (pre ++ [t])
    /\ only length_tags pre = []
    /\ has t length_tags = true
    /\ (len (mainline v) = 2 -> t = "oneMove")
    /\ (len (mainline v) = 4 -> t = "short")
    /\ (len (mainline v) >= 8 -> t = "veryLong")
    /\ (len (mainline v) <> 2 -> len (mainline v) <> 4 -> len (mainline v) < 8 ->
        t = "long").
Proof.
  intros W. destruct (wf_cook v W) as (p & Hp & Hc).
  exists (p_first p ++ motif_tags v (p_outcomes p) ++ opt_tag (p_endgame p) ++ p_side p),
         (length_tag v).
  split.
  { rewrite Hc. unfold assemble. now rewrite <- !app_assoc. }
  destruct (parts_within v p Hp) as (W0 & W1 & W2 & W3 & W4).
  split.
  { rewrite !only_app.
    rewrite (only_other length_tags _ _ W0 eq_refl), (only_other length_tags _ _ W1 eq_refl),
            (only_other length_tags _ _ W2 eq_refl), (only_other length_tags _ _ W3 eq_refl).
    reflexivity. }
  split; [apply length_tag_within|].
  unfold length_tag.
  destruct (Z.eqb_spec (len (mainline v)) 2);
    [|destruct (Z.eqb_spec (len (mainline v)) 4);
      [|destruct (Z.geb_spec (len (mainline v)) 8)]];
    repeat split; intros; try reflexivity; lia.
Qed.

Lemma within_weaken a b tags :
  (forall t, has t a = true -> has t b = true) -> within a tags -> within b tags.
Proof. intros H W. eapply Forall_impl; [|exact W]. exact H. Qed.

Lemma has_app t a b : has t (a ++ b) = has t a || has t b.
Proof. apply existsb_app. Qed.

Lemma assemble_within v p : parts_of v p -> within all_tags (assemble v p).
Proof.
  intros Hp. destruct (parts_within v p Hp) as (W0 & W1 & W2 & W3 & W4).
  unfold assemble, all_tags.
  apply within_app; [|apply within_app; [|apply within_app; [|apply within_app]]].
  - eapply within_weaken; [|exact W0]. intros t H. rewrite !has_app, H. reflexivity.
  - eapply within_weaken; [|exact W1]. intros t H. rewrite !has_app, H.
    now rewrite !orb_true_r.
  - eapply within_weaken; [|exact W2]. intros t H. rewrite !has_app, H.
    now rewrite !orb_true_r.
  - eapply within_weaken; [|exact W3]. intros t H. rewrite !has_app, H.
    now rewrite !orb_true_r.
  - eapply within_weaken; [|exact W4]. intros t H. rewrite !has_app, H.
    now rewrite !orb_true_r.
Qed.

(** A tag that neither the side attacks nor the length rule can give is in
    the whole list only if it is in the list before the side attacks. *)
Lemma In_before_side t v p :
  parts_of v p -> has t side_tags = false -> has t length_tags = false ->
  In t (assemble v p) -> has t (before_side v p) = true.
Proof.
  intros Hp Hs Hl H. destruct (parts_within v p Hp) as (_ & _ & _ & W3 & W4).
  apply has_In. unfold before_side. rewrite !in_app_iff.
  apply In_assemble in H. destruct H as [H|[H|[H|[H|H]]]]; auto.
  - exfalso. eapply (within_not_in _ _ _ W3); eassumption.
  - exfalso. subst t. pose proof (length_tag_within v). congruence.
Qed.

(** C6.  On a well-formed [Variation], the list [cook] returns holds
    neither [kingsideAttack] nor [queensideAttack] when it holds
    [backRankMate] or [fork], and never both of them. *)
Theorem C6_side_attack_suppressed v :
  well_formed v ->
  exists tags,
    cook v = Ok tags
    /\ (In "backRankMate" tags \/ In "fork" tags ->
        ~ In "kingsideAttack" tags /\ ~ In "queensideAttack" tags)
    /\ (List.length (only side_tags tags) <= 1)%nat.
Proof.
  intros W. destruct (wf_cook v W) as (p & Hp & Hc).
  exists (assemble v p). split; [exact Hc|].
  destruct (parts_within v p Hp) as (W0 & W1 & W2 & W3 & W4).
  pose proof Hp as (_ & _ & _ & Hs). apply side_shape in Hs.
  assert (O : only side_tags (assemble v p) = p_side p).
  { rewrite only_assemble.
    rewrite (only_other side_tags _ _ W0 eq_refl), (only_other side_tags _ _ W1 eq_refl),
            (only_other side_tags _ _ W2 eq_refl), (only_other side_tags _ _ W4 eq_refl).
    rewrite app_nil_r. cbn [app]. now apply only_same. }
  split.
  - intros B.
    assert (S : p_side p = []).
    { destruct Hs as [(Hb & Hf & _) | (_ & S)]; [|exact S].
      destruct B as [B|B].
      - apply (In_before_side "backRankMate" v p Hp eq_refl eq_refl) in B. congruence.
      - apply (In_before_side "fork" v p Hp eq_refl eq_refl) in B. congruence. }
    assert (N : forall t, has t side_tags = true -> ~ In t (assemble v p)).
    { intros t Ht K. assert (In t (only side_tags (assemble v p))) as K'.
      { apply only_In. now split. }
      rewrite O, S in K'. contradiction. }
    split; apply N; reflexivity.
  - rewrite O. destruct Hs as [(_ & _ & q & _ & ->) | (_ & ->)]; [|cbn; lia].
    destruct q; cbn; lia.
Qed.

(** C9.  The overloading detector answers false for every [Variation], and
    no list that [cook] returns holds the tag [overloading]. *)
Theorem C9_overloading_never v :
  overloading v = false
  /\ forall tags, cook v = Ok tags -> ~ In "overloading" tags.
Proof.
  split; [reflexivity|].
  intros tags H. apply cook_parts in H. destruct H as (p & Hp & ->).
  eapply within_not_in; [apply assemble_within; exact Hp | reflexivity].
Qed.

Lemma count_assemble t v p :
  count_occ string_dec (assemble v p) t =
  (count_occ string_dec (p_first p) t
   + (times t (motif_flags v (p_outcomes p))
      + (count_occ string_dec (opt_tag (p_endgame p)) t
         + (count_occ string_dec (p_side p) t
            + count_occ string_dec [length_tag v] t))))%nat.
Proof.
  unfold assemble. rewrite !count_occ_app. unfold motif_tags.
  now rewrite count_tags_of.
Qed.

(** How often a tag of the middle part is in the whole list. *)
Lemma count_motif t v p :
  parts_of v p -> has t motif_names = true ->
  count_occ string_dec (assemble v p) t = times t (motif_flags v (p_outcomes p)).
Proof.
  intros Hp Ht. destruct (parts_within v p Hp) as (W0 & W1 & W2 & W3 & W4).
  rewrite count_assemble.
  rewrite (count_within _ _ t W0), (count_within _ _ t W2),
          (count_within _ _ t W3), (count_within _ _ t W4).
  - lia.
  - eapply disjoint_has; [|exact Ht]. reflexivity.
  - eapply disjoint_has; [|exact Ht]. reflexivity.
  - eapply disjoint_has; [|exact Ht]. reflexivity.
  - eapply disjoint_has; [|exact Ht]. reflexivity.
Qed.

Lemma times_interference v o :
  times "interference" (motif_flags v o) = if o_interference o then 1%nat else 0%nat.
Proof.
  unfold motif_flags. generalize (o_interference o). intros b.
  generalize (attraction v), (o_deflection o), (advanced_pawn v), (double_check v),
    (quiet_move v), (o_defensive_move o || check_escape v), (o_sacrifice o),
    (o_x_ray o), (fork v), (o_hanging_piece o), (o_trapped_piece o),
    (o_discovered_attack o), (o_exposed_king o), (o_skewer o), (o_intermezzo o),
    (o_pin o), (attacking_f2_f7 v), (o_clearance o), (en_passant v), (castling v),
    (promotion_ v), (under_promotion v), (o_capturing_defender o).
  intros. vm_compute. now destruct b.
Qed.

Lemma times_defensive_move v o :
  times "defensiveMove" (motif_flags v o) =
  if o_defensive_move o || check_escape v then 1%nat else 0%nat.
Proof.
  unfold motif_flags. generalize (o_defensive_move o || check_escape v). intros b.
  generalize (attraction v), (o_deflection o), (advanced_pawn v), (double_check v),
    (quiet_move v), (o_sacrifice o), (o_interference o),
    (o_x_ray o), (fork v), (o_hanging_piece o), (o_trapped_piece o),
    (o_discovered_attack o), (o_exposed_king o), (o_skewer o), (o_intermezzo o),
    (o_pin o), (attacking_f2_f7 v), (o_clearance o), (en_passant v), (castling v),
    (promotion_ v), (under_promotion v), (o_capturing_defender o).
  intros. vm_compute. now destruct b.
Qed.

Lemma times_sacrifice v o :
  times "sacrifice" (motif_flags v o) = if o_sacrifice o then 1%nat else 0%nat.
Proof.
  unfold motif_flags. generalize (o_sacrifice o). intros b.
  generalize (attraction v), (o_deflection o), (advanced_pawn v), (double_check v),
    (quiet_move v), (o_defensive_move o || check_escape v), (o_interference o),
    (o_x_ray o), (fork v), (o_hanging_piece o), (o_trapped_piece o),
    (o_discovered_attack o), (o_exposed_king o), (o_skewer o), (o_intermezzo o),
    (o_pin o), (attacking_f2_f7 v), (o_clearance o), (en_passant v), (castling v),
    (promotion_ v), (under_promotion v), (o_capturing_defender o).
  intros. vm_compute. now destruct b.
Qed.

(** C10.  On a well-formed [Variation], the list [cook] returns holds
    neither [selfInterference] nor [checkEscape]; it holds [interference]
    once when [self_interference] or [interference] answers true and not at
    all otherwise, and [defensiveMove] once when [defensive_move] or
    [check_escape] answers true and not at all otherwise. *)
Theorem C10_merged_tags v :
  well_formed v ->
  exists tags si i d,
    cook v = Ok tags
    /\ ~ In "selfInterference" tags /\ ~ In "checkEscape" tags
    /\ self_interference v = Ok si /\ interference v = Ok i
    /\ count_occ string_dec tags "interference" = (if si || i then 1 else 0)%nat
    /\ defensive_move v = Ok d
    /\ count_occ string_dec tags "defensiveMove"
       = (if d || check_escape v then 1 else 0)%nat.
Proof.
  intros W. destruct (wf_cook v W) as (p & Hp & Hc).
  destruct (interference_returns v W) as [i Hi].
  pose proof Hp as (_ & M & _).
  destruct M as (_ & Hd & _ & _ & _ & _ & _ & _ & _ & (si & Hsi & Ho) & _).
  exists (assemble v p), si, i, (o_defensive_move (p_outcomes p)).
  split; [exact Hc|].
  split; [eapply within_not_in; [apply assemble_within; exact Hp | reflexivity]|].
  split; [eapply within_not_in; [apply assemble_within; exact Hp | reflexivity]|].
  split; [exact Hsi|]. split; [exact Hi|].
  split.
  { rewrite (count_motif "interference" v p Hp eq_refl), times_interference.
    unfold or_else in Ho. rewrite Hi in Ho.
    destruct si; injection Ho as <-; reflexivity. }
  split; [exact Hd|].
  rewrite (count_motif "defensiveMove" v p Hp eq_refl), times_defensive_move.
  reflexivity.
Qed.

(** C4.  On a well-formed [Variation], [cook] returns a tag list: no
    assertion of [cook] or of a detector fails and no index is out of
    range. *)
Theorem C4_cook_total v : well_formed v -> exists tags, cook v = Ok tags.
Proof. intros W. exact (cook_returns v W). Qed.

Lemma step2_map {A B : Type} (f : A -> B) (l : list A) :
  step2 (map f l) = map f (step2 l).
Proof.
  assert (G : forall n (l : list A), (List.length l <= n)%nat ->
                step2 (map f l) = map f (step2 l)).
  { induction n as [|n IH]; intros [|x [|y l']] L; try reflexivity.
    - cbn in L. lia.
    - cbn [map step2]. f_equal. apply IH. cbn in L. lia. }
  apply (G (List.length l)). lia.
Qed.

Lemma for_pure_hit {A : Type} (test : A -> bool) (r : bool) (l : list A) :
  for_pure l (fun a => if test a then Some r else None) false = existsb test l && r.
Proof.
  induction l as [|a l IH]; [reflexivity|].
  cbn [for_pure existsb]. destruct (test a); [reflexivity | exact IH].
Qed.

Lemma sacrifice_spec v b :
  sacrifice v = Ok b -> (b = true <-> material_drop v /\ ~ opponent_promotes v).
Proof.
  unfold sacrifice, material_drop, opponent_promotes, later_solving, solving.
  cbv zeta. unfold from.
  rewrite (skipn_map _ 1 (mainline v)), step2_map, skipn_map.
  destruct (index (map (fun n => material_diff (board n) (pov v)) (mainline v)) 0)
    as [initial|] eqn:Ei; unfold bind; cbv beta iota; [|discriminate].
  intros [= <-]. rewrite for_pure_hit.
  assert (I : exists n0, index (mainline v) 0 = Ok n0
                         /\ initial = material_diff (board n0) (pov v)).
  { unfold index in *. destruct (mainline v) as [|n0 l]; [discriminate|].
    cbn in Ei. injection Ei as <-. exists n0. now split. }
  destruct I as (n0 & E0 & ->).
  rewrite andb_true_iff, negb_true_iff, existsb_exists.
  split.
  - intros [(d & Hd & Ht) Hp]. split.
    + apply in_map_iff in Hd. destruct Hd as (node & <- & Hn).
      exists n0, node. repeat split; try assumption. now apply Z.leb_le.
    + intros (node & Hn & Hpr).
      assert (existsb (fun n => is_some (promotion (move n)))
                      (skipn 1 (step2 (mainline v))) = true) as K.
      { apply existsb_exists. exists node. split; [exact Hn|].
        destruct (promotion (move node)); [reflexivity | now elim Hpr]. }
      exact (eq_true_false_abs _ K Hp).
  - intros [(n0' & node & E0' & Hn & Hd) Hp]. split.
    + rewrite E0 in E0'. injection E0' as <-.
      exists (material_diff (board node) (pov v)). split.
      * apply in_map_iff. now exists node.
      * now apply Z.leb_le.
    + destruct (existsb _ _) eqn:Ex; [|reflexivity].
      elim Hp. apply existsb_exists in Ex. destruct Ex as (node' & Hn' & Hs).
      exists node'. split; [exact Hn'|].
      destruct (promotion (move node')); [discriminate | discriminate Hs].
Qed.

(** C5, as the code has it.  On a well-formed [Variation], the list [cook] returns
    holds [sacrifice] iff the material balance of [pov] after one of its
    moves from the second on is lower by 2 or more than after
    [mainline[0]], and no move of the opponent after [mainline[0]] is a
    promotion. *)
Theorem C5_sacrifice v :
  well_formed v ->
  exists tags,
    cook v = Ok tags
    /\ (In "sacrifice" tags <-> material_drop v /\ ~ opponent_promotes v).
Proof.
  intros W. destruct (wf_cook v W) as (p & Hp & Hc).
  exists (assemble v p). split; [exact Hc|].
  pose proof Hp as (_ & M & _).
  destruct M as (_ & _ & Hs & _).
  rewrite <- (sacrifice_spec v _ Hs).
  rewrite (count_occ_In string_dec).
  rewrite (count_motif "sacrifice" v p Hp eq_refl), times_sacrifice.
  destruct (o_sacrifice (p_outcomes p)); split; intros H;
    try reflexivity; try lia; discriminate H.
Qed.

Lemma defensive_move_short v :
  (List.length (game_line v) < 2)%nat -> defensive_move v = Raise IndexError.
Proof.
  intros L. unfold defensive_move, index_neg. rewrite mainline_length.
  destruct (Nat.ltb_spec (List.length (game_line v)) 2); [reflexivity | lia].
Qed.

(** C8, as the code has it.  On a [Variation] whose mainline is empty or has one node
    only, [cook] raises an error and returns no tag list. *)
Theorem C8_short_line_raises v :
  (List.length (game_line v) < 2)%nat -> exists e, cook v = Raise e.
Proof.
  intros L. destruct (cook v) as [tags|e] eqn:Ec; [|now exists e].
  apply cook_parts in Ec. destruct Ec as (p & (_ & M & _) & _).
  destruct M as (_ & Hd & _).
  rewrite (defensive_move_short v L) in Hd. discriminate Hd.
Qed.

Lemma piece_map_values_In b p :
  In p (piece_map_values b) <-> exists s, In s SQUARES /\ piece_at b s = Some p.
Proof.
  unfold piece_map_values. rewrite in_flat_map. split.
  - intros (s & Hs & H). apply in_rev in Hs. exists s. split; [exact Hs|].
    destruct (piece_at b s) as [q|]; [|contradiction].
    destruct H as [->|[]]. reflexivity.
  - intros (s & Hs & H). exists s. split; [now apply -> in_rev|].
    rewrite H. now left.
Qed.

Lemma pt_in_In pt l : pt_in pt l = true <-> In pt l.
Proof.
  unfold pt_in. rewrite existsb_exists. split.
  - intros (x & Hx & H). apply pt_eqb_eq in H. now subst.
  - intros H. exists pt. split; [exact H | apply pt_eqb_refl].
Qed.

Lemma only_kinds_test b kinds :
  forallb (fun piece => pt_in (piece_type piece) kinds) (piece_map_values b) = true
  <-> only_kinds b kinds.
Proof.
  rewrite forallb_forall. unfold only_kinds. split.
  - intros H s p Hs Hp. apply pt_in_In. apply H. apply piece_map_values_In. now exists s.
  - intros H p Hp. apply piece_map_values_In in Hp. destruct Hp as (s & Hs & Hp).
    apply pt_in_In. now apply (H s).
Qed.

Lemma has_kind_test b pt :
  is_nil (pieces b pt WHITE) && is_nil (pieces b pt BLACK) = false <-> has_kind b pt.
Proof.
  unfold has_kind. split.
  - intros H.
    assert (exists s c, In s (pieces b pt c)) as (s & c & Hs).
    { destruct (pieces b pt WHITE) as [|s l] eqn:Ew.
      - destruct (pieces b pt BLACK) as [|s l] eqn:Eb; [discriminate|].
        exists s, BLACK. rewrite Eb. now left.
      - exists s, WHITE. rewrite Ew. now left. }
    apply pieces_In in Hs. destruct Hs as [Hs (p & Hp & Ht & _)].
    now exists s, p.
  - intros (s & p & Hs & Hp & Ht).
    assert (In s (pieces b pt (color p))) as H.
    { apply pieces_In. split; [exact Hs|]. now exists p. }
    unfold WHITE, BLACK. destruct (color p).
    + destruct (pieces b pt true); [contradiction | reflexivity].
    + destruct (pieces b pt false); [contradiction|].
      now destruct (pieces b pt true).
Qed.

Lemma endgame_test_spec b pt : endgame_test b pt = true <-> single_kind b pt.
Proof.
  unfold endgame_test, single_kind.
  rewrite andb_true_iff, negb_true_iff, has_kind_test, only_kinds_test. reflexivity.
Qed.

Lemma piece_endgame_eq v pt n0 n1 :
  index (mainline v) 0 = Ok n0 -> index (mainline v) 1 = Ok n1 ->
  piece_endgame v pt = Ok (endgame_test (board n0) pt && endgame_test (board n1) pt).
Proof.
  intros E0 E1. unfold piece_endgame. rewrite E0, E1. cbn [bind for_pure].
  unfold endgame_test, is_nil. f_equal.
  generalize (forallb (fun piece => pt_in (piece_type piece) [KING; PAWN; pt])
                      (piece_map_values (board n0))),
             (forallb (fun piece => pt_in (piece_type piece) [KING; PAWN; pt])
                      (piece_map_values (board n1))),
             (pieces (board n0) pt WHITE), (pieces (board n0) pt BLACK),
             (pieces (board n1) pt WHITE), (pieces (board n1) pt BLACK).
  intros f0 f1 [|? ?] [|? ?] [|? ?] [|? ?]; destruct f0, f1; reflexivity.
Qed.

Lemma single_kind_unique b pt pt' :
  In pt [PAWN; QUEEN; ROOK; BISHOP; KNIGHT] ->
  In pt' [PAWN; QUEEN; ROOK; BISHOP; KNIGHT] ->
  single_kind b pt -> single_kind b pt' -> pt = pt'.
Proof.
  intros Hpt Hpt' [(s & p & Hs & Hp & Ht) O] [(s' & p' & Hs' & Hp' & Ht') O'].
  apply (O' s p Hs) in Hp. apply (O s' p' Hs') in Hp'.
  rewrite Ht in Hp. rewrite Ht' in Hp'.
  cbn [In] in *.
  intuition (subst; try congruence; try discriminate).
Qed.

Lemma queen_rook_test_spec b :
  queen_rook_test b = true ->
  only_kinds b [KING; PAWN; QUEEN; ROOK] /\ has_kind b QUEEN /\ has_kind b ROOK.
Proof.
  unfold queen_rook_test. rewrite !andb_true_iff. intros [[Q R] A].
  split; [|split].
  - apply only_kinds_test in A. intros s p Hs Hp. specialize (A s p Hs Hp).
    cbn [In] in *. intuition.
  - destruct (filter _ (piece_map_values b)) as [|q l] eqn:Ef; [discriminate Q|].
    assert (In q (filter (fun p => pt_eqb (piece_type p) QUEEN) (piece_map_values b))) as H.
    { rewrite Ef. now left. }
    apply filter_In in H. destruct H as [H1 H2]. apply pt_eqb_eq in H2.
    apply piece_map_values_In in H1. destruct H1 as (s & Hs & Hp). now exists s, q.
  - apply existsb_exists in R. destruct R as (q & H1 & H2). apply pt_eqb_eq in H2.
    apply piece_map_values_In in H1. destruct H1 as (s & Hs & Hp). now exists s, q.
Qed.

Lemma In_endgame t v p :
  parts_of v p -> has t endgame_tags = true ->
  (In t (assemble v p) <-> p_endgame p = Some t).
Proof.
  intros Hp Ht. destruct (parts_within v p Hp) as (W0 & W1 & W2 & W3 & W4).
  rewrite In_assemble. split.
  - intros [H|[H|[H|[H|H]]]].
    + exfalso. eapply (within_not_in _ _ _ W0); [|exact H].
      eapply disjoint_has; [|exact Ht]. reflexivity.
    + exfalso. eapply (within_not_in _ _ _ W1); [|exact H].
      eapply disjoint_has; [|exact Ht]. reflexivity.
    + destruct (p_endgame p) as [t'|]; [|contradiction].
      destruct H as [->|[]]. reflexivity.
    + exfalso. eapply (within_not_in _ _ _ W3); [|exact H].
      eapply disjoint_has; [|exact Ht]. reflexivity.
    + exfalso. subst t. pose proof (length_tag_within v) as K.
      assert (has (length_tag v) length_tags = false) as K'
        by (eapply disjoint_has; [|exact Ht]; reflexivity).
      congruence.
  - intros ->. right. right. left. now left.
Qed.

Lemma first_match_endgames v n0 n1 :
  index (mainline v) 0 = Ok n0 -> index (mainline v) 1 = Ok n1 ->
  let e := fun pt => endgame_test (board n0) pt && endgame_test (board n1) pt in
  first_match endgames v =
  endgame_choice (e PAWN) (e QUEEN) (e ROOK) (e BISHOP) (e KNIGHT)
                 (Ok (queen_rook_test (board n0) && queen_rook_test (board n1))).
Proof.
  intros E0 E1 e. unfold endgames, first_match, tagged.
  rewrite !(piece_endgame_eq v _ n0 n1 E0 E1).
  unfold queen_rook_endgame. rewrite E0, E1.
  fold (e PAWN) (e QUEEN) (e ROOK) (e BISHOP) (e KNIGHT).
  unfold endgame_choice.
  destruct (e PAWN), (e QUEEN), (e ROOK), (e BISHOP), (e KNIGHT); try reflexivity.
  cbn [bind]. now destruct (queen_rook_test (board n0)), (queen_rook_test (board n1)).
Qed.

Lemma endgame_choice_single eP eQ eR eB eN qr pe :
  endgame_choice eP eQ eR eB eN (Ok qr) = Ok pe ->
  eP && eQ = false -> eP && eR = false -> eP && eB = false -> eP && eN = false ->
  eQ && eR = false -> eQ && eB = false -> eQ && eN = false ->
  eR && eB = false -> eR && eN = false -> eB && eN = false ->
  (pe = Some "pawnEndgame" <-> eP = true)
  /\ (pe = Some "queenEndgame" <-> eQ = true)
  /\ (pe = Some "rookEndgame" <-> eR = true)
  /\ (pe = Some "bishopEndgame" <-> eB = true)
  /\ (pe = Some "knightEndgame" <-> eN = true)
  /\ (pe = Some "queenRookEndgame" ->
      eP = false /\ eQ = false /\ eR = false /\ eB = false /\ eN = false
      /\ qr = true).
Proof.
  unfold endgame_choice.
  destruct eP, eQ, eR, eB, eN; cbn [andb bind]; intros H; intros; try discriminate;
    injection H as <-;
    (repeat split); intros; try reflexivity; try discriminate;
    destruct qr; try reflexivity; discriminate.
Qed.

(** C7.  On a well-formed [Variation], the list [cook] returns holds at
    most one endgame tag; the tag of a single piece kind is there iff on
    both of the first two mainline positions only kings, pawns and pieces of
    that kind remain, with at least one piece of that kind; and
    [queenRookEndgame] is there only when none of those five tests holds and
    both positions hold, besides kings and pawns, only queens and rooks, at
    least one of each. *)
Theorem C7_endgame_tags v :
  well_formed v ->
  exists tags n0 n1,
    cook v = Ok tags
    /\ index (mainline v) 0 = Ok n0 /\ index (mainline v) 1 = Ok n1
    /\ (List.length (only endgame_tags tags) <= 1)%nat
    /\ (forall pt tag, In (pt, tag) single_endgames ->
          (In tag tags <-> single_kind (board n0) pt /\ single_kind (board n1) pt))
    /\ (In "queenRookEndgame" tags ->
          (forall pt tag, In (pt, tag) single_endgames ->
             ~ (single_kind (board n0) pt /\ single_kind (board n1) pt))
          /\ forall b, In b [board n0; board n1] ->
               only_kinds b [KING; PAWN; QUEEN; ROOK]
               /\ has_kind b QUEEN /\ has_kind b ROOK).
Proof.
  intros W. destruct (wf_cook v W) as (p & Hp & Hc).
  destruct (first_two v W) as (n0 & n1 & E0 & E1 & _).
  exists (assemble v p), n0, n1.
  split; [exact Hc|]. split; [exact E0|]. split; [exact E1|].
  destruct (parts_within v p Hp) as (W0 & W1 & W2 & W3 & W4).
  split.
  { rewrite only_assemble.
    rewrite (only_other endgame_tags _ _ W0 eq_refl),
            (only_other endgame_tags _ _ W1 eq_refl),
            (only_other endgame_tags _ _ W3 eq_refl),
            (only_other endgame_tags _ _ W4 eq_refl).
    cbn [app]. rewrite app_nil_r, (only_same _ _ W2).
    destruct (p_endgame p); cbn; lia. }
  pose proof Hp as (_ & _ & He & _).
  rewrite (first_match_endgames v n0 n1 E0 E1) in He.
  set (e := fun pt => endgame_test (board n0) pt && endgame_test (board n1) pt) in He.
  assert (S : forall pt, e pt = true <->
                single_kind (board n0) pt /\ single_kind (board n1) pt).
  { intros pt. unfold e. now rewrite andb_true_iff, !endgame_test_spec. }
  assert (XX : forall pt pt',
             In pt [PAWN; QUEEN; ROOK; BISHOP; KNIGHT] ->
             In pt' [PAWN; QUEEN; ROOK; BISHOP; KNIGHT] ->
             pt <> pt' -> e pt && e pt' = false).
  { intros pt pt' H H' N. destruct (e pt) eqn:K, (e pt') eqn:K'; try reflexivity.
    elim N. apply S in K. apply S in K'.
    eapply single_kind_unique; try eassumption; [apply K | apply K']. }
  assert (L : forall pt, In pt [PAWN; QUEEN; ROOK; BISHOP; KNIGHT] <->
                pt <> KING).
  { intros []; cbn [In]; split; intros H; try discriminate; auto 6;
      try (now elim H); decompose [or] H; try discriminate; contradiction. }
  destruct (endgame_choice_single _ _ _ _ _ _ _ He) as (TP & TQ & TR & TB & TN & TQR);
    try (apply XX; [apply L; discriminate | apply L; discriminate | discriminate]).
  assert (T : forall pt tag, In (pt, tag) single_endgames ->
                has tag endgame_tags = true
                /\ (p_endgame p = Some tag <-> e pt = true)).
  { intros pt tag Hin. cbn [single_endgames In] in Hin.
    decompose [or] Hin; try contradiction;
      match goal with
      | H : (_, _) = (pt, tag) |- _ => injection H as <- <-
      end; (split; [reflexivity | assumption]). }
  split.
  - intros pt tag Hin. destruct (T pt tag Hin) as [Ht I2].
    pose proof (In_endgame tag v p Hp Ht) as I1.
    pose proof (S pt) as I3.
    split; intros K.
    + apply I3, I2, I1, K.
    + apply I1, I2, I3, K.
  - intros Q. apply (In_endgame "queenRookEndgame" v p Hp eq_refl) in Q.
    destruct (TQR Q) as (FP & FQ & FR & FB & FN & QR).
    split.
    + intros pt tag Hin K. apply S in K.
      cbn [single_endgames In] in Hin.
      decompose [or] Hin; try contradiction;
        match goal with
        | H : (_, _) = (pt, tag) |- _ => injection H as <- <-
        end; unfold e in *; cbv beta in *; congruence.
    + apply andb_true_iff in QR. destruct QR as [Q0 Q1].
      intros b [<-|[<-|[]]].
      * apply queen_rook_test_spec, Q0.
      * apply queen_rook_test_spec, Q1.
Qed.

Lemma pov_promotes_test v :
  pov_promotes v <->
  existsb (fun n => is_some (promotion (move n))) (solving v) = true.
Proof.
  unfold pov_promotes. rewrite existsb_exists. split.
  - intros (node & Hn & Hp). exists node. split; [exact Hn|].
    destruct (promotion (move node)); [reflexivity | now elim Hp].
  - intros (node & Hn & Hp). exists node. split; [exact Hn|].
    destruct (promotion (move node)); [discriminate | discriminate Hp].
Qed.

Lemma material_drop_test v :
  match mainline v with
  | [] => false
  | n0 :: _ =>
      existsb (fun node => material_diff (board node) (pov v)
                           - material_diff (board n0) (pov v) <=? -2)
              (later_solving v)
  end = true ->
  material_drop v.
Proof.
  unfold material_drop, index. destruct (mainline v) as [|n0 l]; [discriminate|].
  intros H. apply existsb_exists in H. destruct H as (node & Hn & Hd).
  exists n0, node. cbn [nth_error]. repeat split; try assumption. now apply Z.leb_le.
Qed.

(** ** The order of the tags, short lines, and the detectors one against
    another *)

Lemma Subseq_refl {A : Type} (l : list A) : Subseq l l.
Proof. induction l; constructor; assumption. Qed.

Lemma Subseq_right {A : Type} (l a b : list A) : Subseq l b -> Subseq l (a ++ b).
Proof. intros H. induction a; [exact H | now apply Subseq_skip]. Qed.

Lemma Subseq_app {A : Type} (a a' b b' : list A) :
  Subseq a a' -> Subseq b b' -> Subseq (a ++ b) (a' ++ b').
Proof.
  intros Ha Hb. induction Ha; cbn [app].
  - now apply Subseq_right.
  - now apply Subseq_skip.
  - now apply Subseq_take.
Qed.

Lemma Subseq_In {A : Type} (l l' : list A) x : Subseq l l' -> In x l -> In x l'.
Proof.
  induction 1; cbn [In]; [contradiction | auto |].
  intros [->|H']; auto.
Qed.

Lemma Subseq_NoDup {A : Type} (l l' : list A) : Subseq l l' -> NoDup l' -> NoDup l.
Proof.
  induction 1; intros N.
  - constructor.
  - inversion N; subst. auto.
  - inversion N; subst. constructor; [|auto].
    intros K. eapply Subseq_In in K; eauto.
Qed.

Lemma Subseq_single {A : Type} (x : A) l : In x l -> Subseq [x] l.
Proof.
  induction l as [|a l IH]; cbn [In]; [contradiction|].
  intros [->|H].
  - apply Subseq_take, Subseq_nil.
  - apply Subseq_skip, IH, H.
Qed.

Lemma Subseq_tags_of flags : Subseq (tags_of flags) (map snd flags).
Proof.
  unfold tags_of. induction flags as [|[b t] l IH]; cbn [flat_map map fst snd].
  - constructor.
  - destruct b; cbn [opt app]; [now apply Subseq_take | now apply Subseq_skip].
Qed.

Lemma Subseq_opt_tag vocab ds v p :
  Forall (answers_within vocab) ds ->
  first_match ds v = Ok p -> Subseq (opt_tag p) vocab.
Proof.
  intros H F. destruct p as [t|]; cbn [opt_tag]; [|constructor].
  apply Subseq_single. apply has_In. eapply first_match_within; eassumption.
Qed.

Lemma NoDup_all_tags : NoDup all_tags.
Proof.
  assert (H : nodup string_dec all_tags = all_tags) by (vm_compute; reflexivity).
  rewrite <- H. apply NoDup_nodup.
Qed.

Lemma Subseq_first v first : cook_mate v [] = Ok first -> Subseq first first_tags.
Proof.
  intros H. apply first_shape in H.
  destruct H as [(mt & p & Em & Ep & ->) | (_ & ->)]; unfold first_tags.
  - change ([mt; "mate"] ++ opt_tag p) with ([mt] ++ ["mate"] ++ opt_tag p).
    apply Subseq_app.
    { apply Subseq_single. apply has_In. exact (mate_in_within v mt Em). }
    apply Subseq_app; [apply Subseq_refl|].
    rewrite <- (app_nil_r (opt_tag p)).
    apply Subseq_app; [|constructor].
    eapply Subseq_opt_tag; [apply mate_patterns_within | eassumption].
  - apply Subseq_right, Subseq_right, Subseq_right.
    apply Subseq_single. apply has_In. apply evaluation_tag_within.
Qed.

Lemma Subseq_parts v p : parts_of v p -> Subseq (assemble v p) all_tags.
Proof.
  intros (Hf & _ & He & Hs). unfold assemble, all_tags.
  apply Subseq_app; [now apply (Subseq_first v)|].
  apply Subseq_app; [apply (Subseq_tags_of (motif_flags v (p_outcomes p)))|].
  apply Subseq_app; [eapply Subseq_opt_tag; [apply endgames_within | eassumption]|].
  apply Subseq_app.
  - apply side_shape in Hs.
    destruct Hs as [(_ & _ & q & Eq & ->) | (_ & ->)]; [|constructor].
    eapply Subseq_opt_tag; [apply side_attacks_within | eassumption].
  - apply Subseq_single. apply has_In. apply length_tag_within.
Qed.

(** X1.  The tags of a list [cook] returns come in one fixed order, that
    of [all_tags], and none comes twice. *)
Theorem cook_tags_in_order v tags :
  cook v = Ok tags -> Subseq tags all_tags /\ NoDup tags.
Proof.
  intros H. apply cook_parts in H. destruct H as (p & Hp & ->).
  pose proof (Subseq_parts v p Hp) as S.
  split; [exact S|]. eapply Subseq_NoDup; [exact S | apply NoDup_all_tags].
Qed.

(** *** Tags and flags *)

Lemma In_tags_of t flags : In t (tags_of flags) <-> In (true, t) flags.
Proof.
  unfold tags_of. induction flags as [|[b s] l IH]; cbn [flat_map In fst snd]; [tauto|].
  rewrite in_app_iff, IH. destruct b; cbn [opt In].
  - split.
    + intros [[->|[]]|H]; auto.
    + intros [[= ->]|H]; auto.
  - split.
    + intros [[]|H]; auto.
    + intros [[=]|H]; auto.
Qed.

(** A tag of the middle part is in the list iff its flag is up. *)
Lemma In_motif t v p :
  parts_of v p -> has t motif_names = true ->
  (In t (assemble v p) <-> In (true, t) (motif_flags v (p_outcomes p))).
Proof.
  intros Hp Ht. destruct (parts_within v p Hp) as (W0 & W1 & W2 & W3 & W4).
  rewrite In_assemble. unfold motif_tags. rewrite In_tags_of. split; [|auto].
  intros [H|[H|[H|[H|H]]]]; [|exact H| | |]; exfalso.
  - eapply (within_not_in _ _ _ W0); [|exact H].
    eapply disjoint_has; [|exact Ht]. reflexivity.
  - eapply (within_not_in _ _ _ W2); [|exact H].
    eapply disjoint_has; [|exact Ht]. reflexivity.
  - eapply (within_not_in _ _ _ W3); [|exact H].
    eapply disjoint_has; [|exact Ht]. reflexivity.
  - subst t. pose proof (length_tag_within v) as K.
    assert (has (length_tag v) length_tags = false) as K'.
    { eapply disjoint_has; [|exact Ht]. reflexivity. }
    congruence.
Qed.

(** A tag of the first block is in the list iff the first block gave it. *)
Lemma In_first t v p :
  parts_of v p -> has t first_tags = true ->
  (In t (assemble v p) <-> In t (p_first p)).
Proof.
  intros Hp Ht. destruct (parts_within v p Hp) as (W0 & W1 & W2 & W3 & W4).
  rewrite In_assemble. split; [|auto].
  intros [H|[H|[H|[H|H]]]]; [exact H| | | |]; exfalso.
  - eapply (within_not_in _ _ _ W1); [|exact H].
    eapply disjoint_has; [|exact Ht]. reflexivity.
  - eapply (within_not_in _ _ _ W2); [|exact H].
    eapply disjoint_has; [|exact Ht]. reflexivity.
  - eapply (within_not_in _ _ _ W3); [|exact H].
    eapply disjoint_has; [|exact Ht]. reflexivity.
  - subst t. pose proof (length_tag_within v) as K.
    assert (has (length_tag v) length_tags = false) as K'.
    { eapply disjoint_has; [|exact Ht]. reflexivity. }
    congruence.
Qed.

Ltac flag_cases H :=
  unfold motif_flags in H; cbn [In] in H;
  repeat (destruct H as [H|H]; [try discriminate H|]); try contradiction.

(** *** The length of the line *)

Lemma step2_length {A : Type} (l : list A) :
  List.length (step2 l) = Nat.div2 (S (List.length l)).
Proof.
  assert (G : forall n (l : list A), (List.length l <= n)%nat ->
                List.length (step2 l) = Nat.div2 (S (List.length l))).
  { induction n as [|n IH]; intros [|x [|y l']] L; try reflexivity.
    - cbn in L. lia.
    - cbn [step2 List.length]. rewrite IH; [reflexivity | cbn in L; lia]. }
  apply (G (List.length l)). lia.
Qed.

Lemma div2_double_le n : (2 * Nat.div2 n <= n)%nat.
Proof. pose proof (Nat.div2_odd n) as H. lia. Qed.

Lemma solving_length v :
  List.length (solving v) = Nat.div2 (List.length (mainline v)).
Proof.
  unfold solving, from. rewrite step2_length.
  destruct (mainline v) as [|n l]; [reflexivity|].
  cbn [skipn List.length]. reflexivity.
Qed.

Lemma later_solving_length v :
  List.length (later_solving v) = (Nat.div2 (List.length (mainline v)) - 1)%nat.
Proof.
  unfold later_solving, from. rewrite length_skipn, solving_length. reflexivity.
Qed.

Lemma later_solving_nil v :
  (List.length (mainline v) < 4)%nat -> later_solving v = [].
Proof.
  intros L. apply length_zero_iff_nil. rewrite later_solving_length.
  pose proof (div2_double_le (List.length (mainline v))). lia.
Qed.

Lemma cook_length v tags : cook v = Ok tags -> (2 <= List.length (mainline v))%nat.
Proof.
  intros H. rewrite mainline_length.
  destruct (Nat.lt_ge_cases (List.length (game_line v)) 2) as [L|L]; [|exact L].
  apply cook_parts in H. destruct H as (p & (_ & M & _) & _).
  destruct M as (_ & D & _). rewrite (defensive_move_short v L) in D. discriminate D.
Qed.

(** *** The motifs of the later moves *)

Lemma attraction_short v :
  (List.length (mainline v) < 4)%nat -> attraction v = false.
Proof.
  rewrite mainline_length. unfold attraction, mainline, from.
  destruct (game_line v) as [|p0 [|p1 [|p2 [|p3 l]]]]; cbn [List.length]; try lia; intros _;
    cbn [chain skipn existsb]; unfold next_node; cbn [below own above root_board];
    repeat match goal with
           | |- context [if ?c then _ else _] => destruct c
           end; reflexivity.
Qed.

Lemma fork_short v : (List.length (mainline v) < 4)%nat -> fork v = false.
Proof.
  intros L. unfold fork.
  assert (S : but_last (solving v) = []).
  { pose proof (solving_length v) as K.
    destruct (solving v) as [|a [|b l]]; [reflexivity | reflexivity |].
    exfalso. cbn [List.length] in K.
    pose proof (div2_double_le (List.length (mainline v))). lia. }
  rewrite S. reflexivity.
Qed.

Lemma short_outcomes v o :
  (List.length (mainline v) < 4)%nat -> motifs_return v o ->
  o_deflection o = false /\ o_sacrifice o = false /\ o_x_ray o = false
  /\ o_trapped_piece o = false /\ o_skewer o = false /\ o_interference o = false
  /\ o_intermezzo o = false /\ o_clearance o = false
  /\ o_capturing_defender o = false.
Proof.
  intros L M. pose proof (later_solving_nil v L) as N.
  destruct M as (E1 & E2 & E3 & E4 & E5 & E6 & E7 & E8 & E9 & (b10 & E10 & E11)
                 & E12 & E13 & E14 & E15).
  unfold deflection in E1. rewrite N in E1. injection E1 as E1.
  unfold x_ray in E4. rewrite N in E4. injection E4 as E4.
  unfold trapped_piece in E6. rewrite N in E6. injection E6 as E6.
  unfold skewer in E9. rewrite N in E9. injection E9 as E9.
  unfold self_interference in E10. rewrite N in E10. injection E10 as E10.
  subst b10. unfold or_else, interference in E11. rewrite N in E11. injection E11 as E11.
  unfold intermezzo in E12. rewrite N in E12. injection E12 as E12.
  unfold clearance in E14. rewrite N in E14. injection E14 as E14.
  unfold capturing_defender in E15. rewrite N in E15. injection E15 as E15.
  assert (S : o_sacrifice o = false).
  { destruct (o_sacrifice o) eqn:Es; [|reflexivity].
    apply sacrifice_spec in E3. destruct E3 as [E3 _].
    destruct (E3 eq_refl) as [(n0 & node & _ & Hn & _) _].
    rewrite N in Hn. contradiction. }
  repeat split; congruence.
Qed.

(** X4.  A line of fewer than four nodes gets none of the tags of the
    motifs that need a second move of [pov]: attraction, deflection,
    sacrifice, xRayAttack, fork, trappedPiece, skewer, interference,
    intermezzo, clearance, capturingDefender. *)
Theorem short_lines_lack_later_tags v tags t :
  cook v = Ok tags -> (List.length (mainline v) < 4)%nat ->
  In t later_tags -> ~ In t tags.
Proof.
  intros H L Ht Hin.
  apply cook_parts in H. destruct H as (p & Hp & ->).
  assert (Hm : has t motif_names = true).
  { unfold later_tags in Ht. cbn [In] in Ht.
    repeat (destruct Ht as [<-|Ht]; [reflexivity|]). contradiction. }
  apply (In_motif t v p Hp Hm) in Hin.
  destruct Hp as (_ & M & _).
  destruct (short_outcomes v _ L M) as (O1 & O2 & O3 & O4 & O5 & O6 & O7 & O8 & O9).
  pose proof (attraction_short v L) as A. pose proof (fork_short v L) as F.
  unfold later_tags in Ht. cbn [In] in Ht.
  flag_cases Hin; injection Hin as Hb Hn; subst t;
    repeat (destruct Ht as [Ht|Ht]; [try discriminate Ht|]); try contradiction;
    congruence.
Qed.

Lemma exposed_king_true v :
  exposed_king v = Ok true ->
  existsb (fun node => is_check (board node)) (but_last (later_solving v)) = true.
Proof.
  unfold exposed_king.
  destruct (index (mainline v) 0) as [n0|]; cbn [bind]; [|discriminate].
  destruct (king_of _ _) as [k|]; cbn [bind]; [|discriminate].
  destruct (square_rank k <? 5); [discriminate|].
  destruct (SquareSet_from_square (k - 8)) as [s0|]; cbn [bind]; [|discriminate].
  match goal with
  | |- bind ?c _ = _ -> _ => destruct c as [s1|]; cbn [bind]; [|discriminate]
  end.
  match goal with
  | |- bind ?c _ = _ -> _ => destruct c as [s2|]; cbn [bind]; [|discriminate]
  end.
  match goal with
  | |- (if ?c then _ else _) = _ -> _ => destruct c; [discriminate|]
  end.
  intros [= H]. exact H.
Qed.

(** X5.  A line of fewer than six nodes is not given [exposedKing]: the
    check it asks for is looked for among the moves of [pov] after its
    first and before its last. *)
Theorem exposed_king_needs_six_nodes v tags :
  cook v = Ok tags -> (List.length (mainline v) < 6)%nat ->
  ~ In "exposedKing" tags.
Proof.
  intros H L Hin. apply cook_parts in H. destruct H as (p & Hp & ->).
  apply (In_motif "exposedKing" v p Hp eq_refl) in Hin.
  destruct Hp as (_ & M & _).
  destruct M as (_ & _ & _ & _ & _ & _ & _ & E8 & _).
  assert (B : o_exposed_king (p_outcomes p) = true).
  { flag_cases Hin. now injection Hin. }
  rewrite B in E8. apply exposed_king_true in E8.
  pose proof (later_solving_length v) as K.
  destruct (later_solving v) as [|a [|b l]]; [discriminate E8 | discriminate E8 |].
  cbn [List.length] in K.
  pose proof (div2_double_le (List.length (mainline v))). lia.
Qed.

(** *** Mates *)

Lemma mate_in_moves v mt :
  mate_in v = Some mt ->
  is_checkmate (gboard (game_end v)) = true
  /\ ((mt = "mateIn1" /\ len (mainline v) / 2 = 1)
      \/ (mt = "mateIn2" /\ len (mainline v) / 2 = 2)
      \/ (mt = "mateIn3" /\ len (mainline v) / 2 = 3)
      \/ (mt = "mateIn4" /\ len (mainline v) / 2 = 4)
      \/ (mt = "mateIn5" /\ len (mainline v) / 2 <> 1 /\ len (mainline v) / 2 <> 2
          /\ len (mainline v) / 2 <> 3 /\ len (mainline v) / 2 <> 4)).
Proof.
  unfold mate_in. generalize (len (mainline v) / 2). intros n.
  destruct (is_checkmate (gboard (game_end v))); cbn [negb]; [|discriminate].
  intros H. split; [reflexivity|].
  destruct (Z.eqb_spec n 1); [injection H as <-; auto|].
  destruct (Z.eqb_spec n 2); [injection H as <-; auto|].
  destruct (Z.eqb_spec n 3); [injection H as <-; auto 6|].
  destruct (Z.eqb_spec n 4); [injection H as <-; auto 6|].
  injection H as <-. auto 10.
Qed.

(** X6.  [mate] is in the list iff the last position is checkmate, and the
    [mateInN] tag beside it counts the moves of the line, half its nodes
    rounded down: [mateIn1] to [mateIn4] for one to four moves, [mateIn5]
    for five moves and for any longer mate. *)
Theorem mate_in_counts_moves v tags :
  cook v = Ok tags ->
  (In "mate" tags <-> is_checkmate (gboard (game_end v)) = true)
  /\ (forall k t,
        In (k, t) [(1, "mateIn1"); (2, "mateIn2"); (3, "mateIn3"); (4, "mateIn4")] ->
        (In t tags <-> In "mate" tags /\ len (mainline v) / 2 = k))
  /\ (In "mateIn5" tags <-> In "mate" tags /\ 5 <= len (mainline v) / 2).
Proof.
  intros H. pose proof (cook_length v tags H) as L2.
  assert (N : 1 <= len (mainline v) / 2).
  { unfold len. apply Z.div_le_lower_bound; lia. }
  apply cook_parts in H. destruct H as (p & Hp & ->).
  pose proof Hp as (Hf & _).
  assert (F : forall t, has t first_tags = true ->
                (In t (assemble v p) <-> In t (p_first p))).
  { intros t. apply In_first. exact Hp. }
  apply first_shape in Hf.
  destruct Hf as [(mt & q & Em & Eq & Ef) | (Em & Ef)]; rewrite Ef in F.
  - assert (Q : within mate_pattern_tags (opt_tag q)).
    { eapply opt_tag_within; [apply mate_patterns_within | exact Eq]. }
    assert (T : forall t, has t mate_in_tags = true ->
                  (In t (assemble v p) <-> mt = t)).
    { intros t Ht. rewrite F.
      2:{ unfold first_tags. rewrite has_app, Ht. reflexivity. }
      cbn [app In]. split; [|auto].
      intros [K'|[K'|K']]; [exact K' | subst t; discriminate Ht |].
      exfalso. eapply (within_not_in _ _ _ Q); [|exact K'].
      eapply disjoint_has; [|exact Ht]. reflexivity. }
    assert (Hm : In "mate" (assemble v p)).
    { apply F; [reflexivity|]. cbn [app In]. auto. }
    destruct (mate_in_moves v mt Em) as [C D].
    split; [tauto|]. split.
    + intros k t Hk. cbn [In] in Hk.
      destruct Hk as [Hk|[Hk|[Hk|[Hk|[]]]]]; injection Hk as <- <-;
        match goal with |- In ?t _ <-> _ => rewrite (T t eq_refl) end;
        (split;
         [ intros K0; split; [exact Hm|];
           destruct D as [[D ?]|[[D ?]|[[D ?]|[[D ?]|[D ?]]]]];
           first [assumption | congruence]
         | intros [_ K'];
           destruct D as [[D ?]|[[D ?]|[[D ?]|[[D ?]|[D ?]]]]];
           first [exact D | exfalso; lia] ]).
    + rewrite (T "mateIn5" eq_refl). split.
      * intros K0. split; [exact Hm|].
        destruct D as [[D ?]|[[D ?]|[[D ?]|[[D ?]|[D ?]]]]];
          first [congruence | lia].
      * intros [_ K'].
        destruct D as [[D ?]|[[D ?]|[[D ?]|[[D ?]|[D ?]]]]];
          first [exact D | exfalso; lia].
  - apply mate_in_checkmate in Em.
    assert (V : forall t, has t first_tags = true -> has t evaluation_tags = false ->
                  ~ In t (assemble v p)).
    { intros t Ht Hv K'. apply (F t Ht) in K'. destruct K' as [<-|[]].
      pose proof (evaluation_tag_within v). congruence. }
    split; [split; [intros K'; exfalso; revert K'; now apply V | congruence]|].
    split.
    + intros k t Hk. cbn [In] in Hk.
      destruct Hk as [Hk|[Hk|[Hk|[Hk|[]]]]]; injection Hk as <- <-;
        (split; [intros K' | intros [K' _]]; exfalso; revert K'; now apply V).
    + split; [intros K' | intros [K' _]]; exfalso; revert K'; now apply V.
Qed.

(** *** Promotions and discovered checks *)

Lemma under_promotion_promotes v : under_promotion v = true -> promotion_ v = true.
Proof.
  unfold under_promotion, promotion_.
  induction (solving v) as [|node l IH]; cbn [for_pure existsb]; [discriminate|].
  destruct (is_checkmate (board node)).
  - destruct (promotion (move node)); [reflexivity | discriminate].
  - destruct (promotion (move node)) as [pt|]; cbn [is_some orb]; [reflexivity|].
    exact IH.
Qed.

(** X7.  A list with [underPromotion] holds [promotion] as well: an
    underpromotion is counted as a promotion too. *)
Theorem under_promotion_with_promotion v tags :
  cook v = Ok tags -> In "underPromotion" tags -> In "promotion" tags.
Proof.
  intros H Hin. apply cook_parts in H. destruct H as (p & Hp & ->).
  apply (In_motif "underPromotion" v p Hp eq_refl) in Hin.
  apply (In_motif "promotion" v p Hp eq_refl).
  assert (B : under_promotion v = true).
  { flag_cases Hin. now injection Hin. }
  apply under_promotion_promotes in B. unfold motif_flags. rewrite B.
  cbn [In]. auto 30.
Qed.

(** X8.  When [discovered_check] holds, a move of [pov] leaving the
    opponent in check with the piece that moved not among the checkers, the
    list holds [discoveredAttack]. *)
Theorem discovered_check_tagged v tags :
  cook v = Ok tags -> discovered_check v = true -> In "discoveredAttack" tags.
Proof.
  intros H D. apply cook_parts in H. destruct H as (p & Hp & ->).
  apply (In_motif "discoveredAttack" v p Hp eq_refl).
  destruct Hp as (_ & M & _).
  destruct M as (_ & _ & _ & _ & _ & _ & E7 & _).
  unfold discovered_attack in E7. rewrite D in E7. injection E7 as E7.
  unfold motif_flags. rewrite <- E7. cbn [In]. auto 30.
Qed.

(** *** Errors *)

(** X2.  [cook] returns a tag list on every sound line, of even or odd
    length and whoever [pov] is. *)
Theorem cook_returns_on_sound_lines v : sound v -> exists tags, cook v = Ok tags.
Proof. intros W. exact (cook_sound v W). Qed.

(** X3.  On a line of fewer than two nodes whose last position is not
    checkmate, [cook] fails with an [IndexError], raised by
    [defensive_move] at [mainline[-2]]. *)
Theorem short_line_index_error v :
  (List.length (game_line v) < 2)%nat ->
  is_checkmate (gboard (game_end v)) = false ->
  cook v = Raise IndexError /\ defensive_move v = Raise IndexError.
Proof.
  intros L C. split; [|exact (defensive_move_short v L)].
  unfold cook. rewrite cook_mate_eq.
  apply mate_in_checkmate in C. rewrite C. cbn [bind].
  assert (N : later_solving v = []).
  { apply later_solving_nil. rewrite mainline_length. lia. }
  unfold deflection at 1. rewrite N. cbn [for_each bind].
  rewrite (defensive_move_short v L). reflexivity.
Qed.

(** *** Side attacks *)

(** What a side attack presupposes. *)
Lemma side_attack_true v corner_file king_files nb_pieces :
  side_attack v corner_file king_files nb_pieces = Ok true ->
  exists n0 k,
    index (mainline v) 0 = Ok n0
    /\ king (board n0) (negb (pov v)) = Some k
    /\ k <> 0
    /\ square_rank k = (if pov v then 7 else 0)
    /\ z_in (square_file k) king_files = true
    /\ nb_pieces <= len (piece_map_items (board n0))
    /\ existsb (fun node => is_check (board node)) (solving v) = true.
Proof.
  unfold side_attack.
  destruct (index (mainline v) 0) as [n0|]; cbn [bind]; [|discriminate].
  destruct (king (board n0) (negb (pov v))) as [k|] eqn:K; cbn [square_truthy];
    [|discriminate].
  destruct (Z.eqb_spec k 0) as [K0|K0]; cbn [negb orb]; [discriminate|].
  destruct (Z.eqb_spec (square_rank k) (if pov v then 7 else 0)) as [R|R];
    cbn [negb orb]; [|discriminate].
  destruct (z_in (square_file k) king_files) eqn:F; cbn [negb orb]; [|discriminate].
  destruct (Z.ltb_spec (len (piece_map_items (board n0))) nb_pieces) as [P|P];
    cbn [negb orb]; [discriminate|].
  destruct (existsb (fun node => is_check (board node)) (solving v)) eqn:C;
    cbn [negb]; [|discriminate].
  intros _. exists n0, k. repeat split; first [assumption | reflexivity].
Qed.

(** X9.  The two side-attack detectors never both answer true: the order
    in which [cook] asks them does not matter. *)
Theorem side_attacks_exclusive v a b :
  kingside_attack v = Ok a -> queenside_attack v = Ok b -> a && b = false.
Proof.
  intros Ha Hb. destruct a; [|reflexivity]. destruct b; [|reflexivity]. exfalso.
  apply side_attack_true in Ha. apply side_attack_true in Hb.
  destruct Ha as (n0 & k & I0 & K & _ & _ & F & _).
  destruct Hb as (n0' & k' & I0' & K' & _ & _ & F' & _).
  rewrite I0 in I0'. injection I0' as <-. rewrite K in K'. injection K' as <-.
  unfold z_in in F, F'. cbn [existsb] in F, F'.
  destruct (Z.eqb_spec (square_file k) 6), (Z.eqb_spec (square_file k) 7),
           (Z.eqb_spec (square_file k) 0), (Z.eqb_spec (square_file k) 1),
           (Z.eqb_spec (square_file k) 2);
    cbn in F, F'; try discriminate; lia.
Qed.

(** X10.  With the king of the opponent on a1, the square 0, no side attack
    is found: [not king_square] takes the corner for a missing king. *)
Theorem side_attack_king_on_a1 v n0 :
  index (mainline v) 0 = Ok n0 ->
  king (board n0) (negb (pov v)) = Some 0 ->
  kingside_attack v = Ok false /\ queenside_attack v = Ok false.
Proof.
  intros I K. unfold kingside_attack, queenside_attack, side_attack.
  rewrite I. cbn [bind]. rewrite K. cbn [square_truthy].
  change (0 =? 0) with true. cbn [negb orb]. split; reflexivity.
Qed.

(** A tag of the side attacks is in the list iff the side-attack block gave it. *)
Lemma In_side t v p :
  parts_of v p -> has t side_tags = true ->
  (In t (assemble v p) <-> In t (p_side p)).
Proof.
  intros Hp Ht. destruct (parts_within v p Hp) as (W0 & W1 & W2 & W3 & W4).
  rewrite In_assemble. split; [|auto 6].
  intros [H|[H|[H|[H|H]]]]; [| | |exact H|]; exfalso.
  - eapply (within_not_in _ _ _ W0); [|exact H].
    eapply disjoint_has; [|exact Ht]. reflexivity.
  - eapply (within_not_in _ _ _ W1); [|exact H].
    eapply disjoint_has; [|exact Ht]. reflexivity.
  - eapply (within_not_in _ _ _ W2); [|exact H].
    eapply disjoint_has; [|exact Ht]. reflexivity.
  - subst t. pose proof (length_tag_within v) as K.
    assert (has (length_tag v) length_tags = false) as K'.
    { eapply disjoint_has; [|exact Ht]. reflexivity. }
    congruence.
Qed.

Lemma side_tag_detector v p :
  parts_of v p ->
  (In "kingsideAttack" (assemble v p) -> kingside_attack v = Ok true)
  /\ (In "queensideAttack" (assemble v p) -> queenside_attack v = Ok true).
Proof.
  intros Hp. pose proof Hp as (_ & _ & _ & Hs).
  rewrite (In_side "kingsideAttack" v p Hp eq_refl),
          (In_side "queensideAttack" v p Hp eq_refl).
  apply side_shape in Hs.
  destruct Hs as [(_ & _ & q & Eq & ->) | (_ & ->)]; [|split; contradiction].
  unfold side_attacks, first_match, tagged in Eq.
  destruct (kingside_attack v) as [[|]|]; cbn [bind] in Eq; try discriminate Eq.
  - injection Eq as <-. split; [reflexivity|]. intros [K|[]]. discriminate K.
  - destruct (queenside_attack v) as [[|]|]; cbn [bind] in Eq; try discriminate Eq;
      injection Eq as <-.
    + split; [|reflexivity]. intros [K|[]]. discriminate K.
    + split; contradiction.
Qed.

(** X11.  A side-attack tag is given only against a king that stands, after
    the first move of the line, on the back rank of its side and not on
    a1, with at least one check among the moves of [pov]: on the g- or
    h-file with 20 pieces or more on the board for [kingsideAttack], on the
    a-, b- or c-file with 18 or more for [queensideAttack]. *)
Theorem side_attack_tag_conditions v tags t :
  cook v = Ok tags -> In t tags -> In t side_tags ->
  exists n0 k,
    index (mainline v) 0 = Ok n0
    /\ king (board n0) (negb (pov v)) = Some k
    /\ k <> 0
    /\ square_rank k = (if pov v then 7 else 0)
    /\ existsb (fun node => is_check (board node)) (solving v) = true
    /\ (t = "kingsideAttack" ->
        (square_file k = 6 \/ square_file k = 7)
        /\ 20 <= len (piece_map_items (board n0)))
    /\ (t = "queensideAttack" ->
        (square_file k = 0 \/ square_file k = 1 \/ square_file k = 2)
        /\ 18 <= len (piece_map_items (board n0))).
Proof.
  intros H Hin Ht. apply cook_parts in H. destruct H as (p & Hp & ->).
  destruct (side_tag_detector v p Hp) as [Hk Hq].
  unfold side_tags in Ht. cbn [In] in Ht. destruct Ht as [<-|[<-|[]]].
  - apply Hk in Hin. apply side_attack_true in Hin.
    destruct Hin as (n0 & k & I0 & K & K0 & R & F & P & C).
    exists n0, k. repeat (split; [assumption|]). split; [|discriminate].
    intros _. split; [|exact P].
    unfold z_in in F. cbn [existsb] in F.
    destruct (Z.eqb_spec (square_file k) 6), (Z.eqb_spec (square_file k) 7);
      try discriminate F; auto.
  - apply Hq in Hin. apply side_attack_true in Hin.
    destruct Hin as (n0 & k & I0 & K & K0 & R & F & P & C).
    exists n0, k. repeat (split; [assumption|]). split; [discriminate|].
    intros _. split; [|exact P].
    unfold z_in in F. cbn [existsb] in F.
    destruct (Z.eqb_spec (square_file k) 0), (Z.eqb_spec (square_file k) 1),
             (Z.eqb_spec (square_file k) 2);
      try discriminate F; auto.
Qed.

(** *** The queen and rook endgame *)

Lemma queen_rook_not_single b pt :
  queen_rook_test b = true -> endgame_test b pt = false.
Proof.
  intros H. apply queen_rook_test_spec in H. destruct H as (_ & HQ & HR).
  destruct (endgame_test b pt) eqn:T; [|reflexivity]. exfalso.
  apply endgame_test_spec in T. destruct T as [_ O].
  destruct HQ as (sq & q & Hsq & Pq & Tq). destruct HR as (sr & r & Hsr & Pr & Tr).
  pose proof (O sq q Hsq Pq) as Oq. pose proof (O sr r Hsr Pr) as Or.
  rewrite Tq in Oq. rewrite Tr in Or. cbn [In] in Oq, Or.
  destruct pt; intuition discriminate.
Qed.

Lemma endgame_choice_queen_rook eP eQ eR eB eN qr pe :
  endgame_choice eP eQ eR eB eN (Ok qr) = Ok pe ->
  (qr = true -> eP = false /\ eQ = false /\ eR = false /\ eB = false /\ eN = false) ->
  (pe = Some "queenRookEndgame" <-> qr = true).
Proof.
  unfold endgame_choice. intros H X.
  destruct qr.
  - destruct (X eq_refl) as (-> & -> & -> & -> & ->). cbn [bind] in H.
    injection H as <-. split; reflexivity.
  - destruct eP, eQ, eR, eB, eN; cbn [bind] in H; injection H as <-;
      split; intros K; discriminate K.
Qed.

Lemma queen_rook_endgame_eq v n0 n1 :
  index (mainline v) 0 = Ok n0 -> index (mainline v) 1 = Ok n1 ->
  queen_rook_endgame v = Ok (queen_rook_test (board n0) && queen_rook_test (board n1)).
Proof.
  intros I0 I1. unfold queen_rook_endgame. rewrite I0, I1. cbn [bind].
  now destruct (queen_rook_test (board n0)).
Qed.

(** X12.  [queenRookEndgame] is in the list exactly when its detector
    holds: none of the five tests asked before it can hold then. *)
Theorem queen_rook_endgame_tag v tags :
  cook v = Ok tags ->
  (In "queenRookEndgame" tags <-> queen_rook_endgame v = Ok true).
Proof.
  intros H. pose proof (cook_length v tags H) as L.
  apply cook_parts in H. destruct H as (p & Hp & ->).
  rewrite (In_endgame "queenRookEndgame" v p Hp eq_refl).
  destruct Hp as (_ & _ & He & _).
  assert (exists n0 n1, index (mainline v) 0 = Ok n0 /\ index (mainline v) 1 = Ok n1)
    as (n0 & n1 & I0 & I1).
  { destruct (mainline v) as [|n0 [|n1 l]]; cbn [List.length] in L; try lia.
    exists n0, n1. split; reflexivity. }
  rewrite (queen_rook_endgame_eq v n0 n1 I0 I1).
  pose proof (first_match_endgames v n0 n1 I0 I1) as F. cbv zeta in F.
  rewrite He in F. symmetry in F.
  apply endgame_choice_queen_rook in F.
  - rewrite F. split; [intros ->; reflexivity | intros [= K]; exact K].
  - intros K. apply andb_true_iff in K. destruct K as [K0 _].
    rewrite !(queen_rook_not_single _ _ K0). repeat split; reflexivity.
Qed.

(** *** The geometry of the mates *)

Lemma not_on_edge x : z_in x [0; 7] = false -> x <> 0 /\ x <> 7.
Proof.
  unfold z_in. cbn [existsb].
  destruct (Z.eqb_spec x 0), (Z.eqb_spec x 7); cbn; try discriminate; auto.
Qed.

Lemma off_back_rank x (c : bool) :
  z_in x [0; 7] = false -> (x =? (if c then 7 else 0)) = false.
Proof.
  intros H. apply not_on_edge in H. destruct c; apply Z.eqb_neq; tauto.
Qed.

(** X13.  When the dovetail detector holds, the back-rank, Anastasia, hook
    and Arabian detectors all answer false: its place after them in the
    chain of [cook] takes nothing from it. *)
Theorem dovetail_excludes v :
  dovetail_mate v = Ok true ->
  back_rank_mate v = Ok false /\ anastasia_mate v = Ok false
  /\ hook_mate v = Ok false /\ arabian_mate v = Ok false.
Proof.
  unfold dovetail_mate, back_rank_mate, anastasia_mate, hook_mate, arabian_mate.
  destruct (king_of (gboard (game_end v)) (negb (pov v))) as [k|]; cbn [bind];
    [|discriminate].
  destruct (as_child (game_end v)) as [node|]; cbn [bind]; [|discriminate].
  destruct (z_in (square_file k) [0; 7]) eqn:F; cbn [orb andb]; [discriminate|].
  destruct (z_in (square_rank k) [0; 7]) eqn:R; cbn [orb andb]; [discriminate|].
  destruct (pt_eqb (moved_piece_type node) QUEEN) eqn:Q; cbn [negb orb];
    [|discriminate].
  intros _. apply pt_eqb_eq in Q. rewrite Q.
  rewrite (off_back_rank _ (pov v) R), andb_false_r.
  change (pt_eqb QUEEN ROOK) with false. cbn [andb].
  repeat split; reflexivity.
Qed.

(** X14.  When the Anastasia detector holds, the back-rank, Arabian and
    dovetail detectors all answer false. *)
Theorem anastasia_excludes v :
  anastasia_mate v = Ok true ->
  back_rank_mate v = Ok false /\ arabian_mate v = Ok false
  /\ dovetail_mate v = Ok false.
Proof.
  unfold dovetail_mate, back_rank_mate, anastasia_mate, arabian_mate.
  destruct (king_of (gboard (game_end v)) (negb (pov v))) as [k|]; cbn [bind];
    [|discriminate].
  destruct (as_child (game_end v)) as [node|]; cbn [bind]; [|discriminate].
  destruct (z_in (square_file k) [0; 7]) eqn:F; cbn [orb andb]; [|discriminate].
  destruct (z_in (square_rank k) [0; 7]) eqn:R; cbn [negb orb andb]; [discriminate|].
  intros _.
  rewrite (off_back_rank _ (pov v) R), andb_false_r.
  repeat split; reflexivity.
Qed.

(** *** The smothered mate *)

Lemma Ok_inj {A : Type} (a b : A) : Ok a = Ok b -> a = b.
Proof. now intros [= H]. Qed.

Lemma smothered_loop (b : Board) (pov_ : Color) (k : Square) (l : list Square) :
  for_each l (fun checker_square =>
    match piece_at b checker_square with
    | None => Raise AssertionError
    | Some piece =>
        if pt_eqb (piece_type piece) KNIGHT then
          Ok (Some (forallb (fun escape_square =>
                      match piece_at b escape_square with
                      | None => false
                      | Some blocker => negb (color_is pov_ blocker)
                      end)
                    (filter (fun s => square_distance s k =? 1) SQUARES)))
        else Ok None
    end) (Ok false) = Ok true ->
  (exists c p, In c l /\ piece_at b c = Some p /\ piece_type p = KNIGHT)
  /\ forall s, In s SQUARES -> square_distance s k = 1 ->
       exists q, piece_at b s = Some q /\ color q = negb pov_.
Proof.
  induction l as [|c l IH]; cbn [for_each]; [discriminate|].
  destruct (piece_at b c) as [piece|] eqn:Pc; cbn [bind]; [|discriminate].
  destruct (pt_eqb (piece_type piece) KNIGHT) eqn:N; cbn [bind].
  - intros H. apply Ok_inj in H. split.
    + exists c, piece. split; [now left|]. split; [exact Pc|]. now apply pt_eqb_eq.
    + intros s Hs D. rewrite forallb_forall in H.
      assert (In s (filter (fun s => square_distance s k =? 1) SQUARES)) as Hin.
      { apply filter_In. split; [exact Hs|]. now apply Z.eqb_eq. }
      apply H in Hin.
      destruct (piece_at b s) as [q|]; [|discriminate Hin].
      exists q. split; [reflexivity|].
      unfold color_is in Hin. apply negb_true_iff in Hin.
      apply eqb_false_iff in Hin. destruct (color q), pov_; try reflexivity;
        now elim Hin.
  - intros H. destruct (IH H) as [(c' & p' & Hc & Hp & Ht) A]. split; [|exact A].
    exists c', p'. split; [now right|]. split; assumption.
Qed.

(** X15.  When the smothered-mate detector holds, a knight gives check and
    every square next to the king of the opponent holds a piece that is not
    of [pov]. *)
Theorem smothered_mate_sound v :
  smothered_mate v = Ok true ->
  exists k,
    king (gboard (game_end v)) (negb (pov v)) = Some k
    /\ (exists c p, In c (squares_of (checkers (gboard (game_end v))))
                    /\ piece_at (gboard (game_end v)) c = Some p
                    /\ piece_type p = KNIGHT)
    /\ forall s, In s SQUARES -> square_distance s k = 1 ->
         exists q, piece_at (gboard (game_end v)) s = Some q
                   /\ color q = negb (pov v).
Proof.
  unfold smothered_mate, king_of.
  destruct (king (gboard (game_end v)) (negb (pov v))) as [k|]; cbn [bind];
    [|discriminate].
  intros H. exists k. split; [reflexivity|].
  exact (smothered_loop _ _ _ _ H).
Qed.

(** *** The tagger *)

Lemma get_some (s : string) (n : nat) :
  (n < String.length s)%nat -> exists c, String.get n s = Some c.
Proof.
  revert n. induction s as [|a s IH]; intros n L; cbn [String.length] in L; [lia|].
  destruct n as [|n]; cbn [String.get].
  - now exists a.
  - apply IH. lia.
Qed.

Lemma In_range i n : In i (range n) <-> 0 <= i < n.
Proof.
  unfold range. rewrite in_map_iff. split.
  - intros (k & <- & Hk). apply in_seq in Hk. lia.
  - intros H. exists (Z.to_nat i). split; [lia|]. apply in_seq. lia.
Qed.

(** X16.  With one worker or more, a document whose identifier has five
    characters or more is taken by exactly one of the workers. *)
Theorem one_worker_per_document threads doc_id :
  0 < threads -> (5 <= String.length doc_id)%nat ->
  exists i,
    In i (range threads) /\ worker_takes threads i doc_id = Some true
    /\ forall j, worker_takes threads j doc_id = Some true -> j = i.
Proof.
  intros T L. destruct (get_some doc_id 4) as [c Hc]; [lia|].
  unfold worker_takes. rewrite Hc.
  destruct (Z.eqb_spec threads 0) as [Z0|Z0]; [lia|].
  exists (ord c mod threads). split; [|split].
  - apply In_range. apply Z.mod_pos_bound. exact T.
  - now rewrite Z.eqb_refl.
  - intros j [= H]. rewrite negb_involutive in H. apply Z.eqb_eq in H. now symmetry.
Qed.

Lemma same_set_spec a b :
  same_set a b = true <-> (forall t, In t a <-> In t b).
Proof.
  unfold same_set. rewrite andb_true_iff, !forallb_forall. split.
  - intros [H1 H2] t. split; intros H; apply has_In; auto.
  - intros H. split; intros t Ht; apply has_In; now apply H.
Qed.

(** X17.  A second pass with the same tags writes nothing: what a pass
    writes is a fixed point of the next. *)
Theorem retag_idempotent tags existing written :
  retag false tags existing = Updated written ->
  retag false tags (Some (Some written)) = Untouched.
Proof.
  unfold retag. cbn [negb].
  assert (G : forall zugs, (forall t, In t zugs -> is_zug t = true) ->
    same_set (map plus tags ++ filter is_zug (map plus tags ++ zugs))
             (map plus tags ++ zugs) = true).
  { intros zugs Z. apply same_set_spec. intros t. rewrite !in_app_iff, filter_In.
    rewrite in_app_iff. split; [tauto|].
    intros [H|H]; [now left|]. right. split; [now right | now apply Z]. }
  destruct existing as [[t|]|]; [| discriminate |].
  - destruct (negb (same_set _ t)); [|discriminate].
    intros [= <-]. rewrite G; [reflexivity|].
    intros x Hx. apply filter_In in Hx. tauto.
  - intros [= <-]. rewrite G; [reflexivity|]. intros x [].
Qed.

Lemma cook_tags_not_zug : forallb (fun c => negb (is_zug (plus c))) all_tags = true.
Proof. vm_compute. reflexivity. Qed.

Lemma filter_idem {A : Type} (f : A -> bool) l : filter f (filter f l) = filter f l.
Proof.
  induction l as [|a l IH]; [reflexivity|]. cbn [filter].
  destruct (f a) eqn:Fa; cbn [filter]; [rewrite Fa; f_equal|]; exact IH.
Qed.

(** X18.  When the tags of [cook] replace those of a round, the zugzwang
    marks of the round are kept as they were, the tags of [cook] are
    written with a [+] before them, and nothing else is. *)
Theorem retag_keeps_zugzwang v tags old written :
  cook v = Ok tags ->
  retag false tags (Some (Some old)) = Updated written ->
  written = map plus tags ++ filter is_zug old
  /\ filter is_zug written = filter is_zug old
  /\ forall t, In t written -> is_zug t = false -> exists c, In c tags /\ t = plus c.
Proof.
  intros H. unfold retag. cbn [negb].
  destruct (negb (same_set _ old)); [|discriminate].
  intros [= <-]. split; [reflexivity|].
  assert (Z : forall c, In c tags -> is_zug (plus c) = false).
  { intros c Hc. apply cook_parts in H. destruct H as (p & Hp & ->).
    pose proof (assemble_within v p Hp) as W. unfold within in W.
    rewrite Forall_forall in W. apply W in Hc. apply has_In in Hc.
    pose proof cook_tags_not_zug as K. rewrite forallb_forall in K.
    apply K in Hc. now apply negb_true_iff in Hc. }
  split.
  - rewrite filter_app, filter_idem.
    assert (N : filter is_zug (map plus tags) = []).
    { clear H. induction tags as [|c l IH]; [reflexivity|].
      cbn [map filter]. rewrite (Z c (or_introl eq_refl)).
      apply IH. intros c' Hc'. apply Z. now right. }
    now rewrite N.
  - intros t Ht Hz. apply in_app_or in Ht. destruct Ht as [Ht|Ht].
    + apply in_map_iff in Ht. destruct Ht as (c & <- & Hc). now exists c.
    + apply filter_In in Ht. destruct Ht as [_ Ht]. congruence.
Qed.

End Proofs.

Import Reference.

Ltac line_well_formed :=
  constructor;
  [ vm_compute; lia
  | vm_compute; reflexivity
  | reflexivity
  | vm_compute; reflexivity
  | vm_compute; reflexivity ].

(** The scenario of the spec: a knight mates a king whose escape squares
    are all taken by its own pieces, in a line of two moves. *)
Example cook_smothered :
  cook_ smothered = Ok ["mateIn1"; "mate"; "smotheredMate"; "oneMove"].
Proof. vm_compute. reflexivity. Qed.

Example cook_pawn_race :
  cook_ pawn_race = Ok ["equality"; "defensiveMove"; "pawnEndgame"; "short"].
Proof. vm_compute. reflexivity. Qed.

Lemma C1_witness :
  well_formed smothered
  /\ exists tags, cook_ smothered = Ok tags
       /\ (List.length (only mate_pattern_tags tags) <= 1)%nat.
Proof.
  assert (W : @well_formed engine smothered) by line_well_formed.
  split; [exact W|].
  destruct (@C1_mate_pattern_exclusive engine util smothered W) as (tags & H1 & H2 & _).
  exists tags. split; [exact H1 | exact H2].
Defined.

Lemma C2_witness :
  well_formed pawn_race
  /\ exists tags, cook_ pawn_race = Ok tags
       /\ (is_checkmate (gboard (game_end pawn_race)) = true ->
           only evaluation_tags tags = []).
Proof.
  assert (W : @well_formed engine pawn_race) by line_well_formed.
  split; [exact W|].
  destruct (@C2_evaluation_tag engine util pawn_race W) as (tags & H1 & _ & H2).
  exists tags. split; [exact H1 | exact H2].
Defined.

Lemma C3_witness :
  well_formed pawn_race
  /\ exists pre t, cook_ pawn_race = Ok (pre ++ [t]) /\ only length_tags pre = [].
Proof.
  assert (W : @well_formed engine pawn_race) by line_well_formed.
  split; [exact W|].
  destruct (@C3_length_tag engine util pawn_race W) as (pre & t & H1 & H2 & _).
  exists pre, t. split; [exact H1 | exact H2].
Defined.

Lemma C4_witness :
  well_formed pawn_race /\ exists tags, cook_ pawn_race = Ok tags.
Proof.
  assert (W : @well_formed engine pawn_race) by line_well_formed.
  split; [exact W|].
  exact (@C4_cook_total engine util pawn_race W).
Defined.

Lemma C5_witness :
  well_formed pawn_race
  /\ exists tags, cook_ pawn_race = Ok tags
       /\ (In "sacrifice" tags <->
           material_drop pawn_race /\ ~ opponent_promotes pawn_race).
Proof.
  assert (W : @well_formed engine pawn_race) by line_well_formed.
  split; [exact W|].
  exact (@C5_sacrifice engine util pawn_race W).
Defined.

(** C5 as the spec words it fails on the pawn race: the balance of White
    drops by 8 when Black queens, no move of White is a promotion, and
    [cook] gives no [sacrifice]. *)
Lemma C5_counterexample :
  well_formed pawn_race
  /\ exists tags, cook_ pawn_race = Ok tags
       /\ ~ (In "sacrifice" tags <->
             material_drop pawn_race /\ ~ pov_promotes pawn_race).
Proof.
  split; [line_well_formed|].
  exists ["equality"; "defensiveMove"; "pawnEndgame"; "short"].
  split; [vm_compute; reflexivity|].
  intros [_ H].
  assert (K : In "sacrifice" ["equality"; "defensiveMove"; "pawnEndgame"; "short"]).
  { apply H. split.
    - apply material_drop_test. vm_compute. reflexivity.
    - intros P. apply pov_promotes_test in P. vm_compute in P. discriminate P. }
  cbn [In] in K. decompose [or] K; try discriminate; contradiction.
Qed.

Lemma C6_witness :
  well_formed smothered
  /\ exists tags, cook_ smothered = Ok tags
       /\ (List.length (only side_tags tags) <= 1)%nat.
Proof.
  assert (W : @well_formed engine smothered) by line_well_formed.
  split; [exact W|].
  destruct (@C6_side_attack_suppressed engine util smothered W) as (tags & H1 & _ & H2).
  exists tags. split; [exact H1 | exact H2].
Defined.

Lemma C7_witness :
  well_formed pawn_race
  /\ exists tags, cook_ pawn_race = Ok tags
       /\ (List.length (only endgame_tags tags) <= 1)%nat.
Proof.
  assert (W : @well_formed engine pawn_race) by line_well_formed.
  split; [exact W|].
  destruct (@C7_endgame_tags engine util pawn_race W)
    as (tags & n0 & n1 & H1 & _ & _ & H2 & _).
  exists tags. split; [exact H1 | exact H2].
Defined.

Lemma C8_witness :
  (List.length (game_line (read "empty" pawn_race_root [] 0)) < 2)%nat
  /\ exists e, cook_ (read "empty" pawn_race_root [] 0) = Raise e.
Proof.
  assert (L : (List.length (game_line (read "empty" pawn_race_root [] 0)) < 2)%nat)
    by (vm_compute; lia).
  split; [exact L|].
  exact (@C8_short_line_raises engine util _ L).
Defined.

(** C8 as the spec words it fails on the pawn race cut after three moves:
    the mainline has odd length and [cook] returns a tag list. *)
Lemma C8_counterexample :
  Nat.odd (List.length (mainline pawn_race_cut)) = true
  /\ cook_ pawn_race_cut = Ok ["equality"; "pawnEndgame"; "long"].
Proof. split; vm_compute; reflexivity. Qed.

Lemma C9_witness :
  overloading pawn_race = false
  /\ forall tags, cook_ pawn_race = Ok tags -> ~ In "overloading" tags.
Proof. exact (@C9_overloading_never engine util pawn_race). Defined.

Lemma C10_witness :
  well_formed pawn_race
  /\ exists tags, cook_ pawn_race = Ok tags
       /\ ~ In "selfInterference" tags /\ ~ In "checkEscape" tags.
Proof.
  assert (W : @well_formed engine pawn_race) by line_well_formed.
  split; [exact W|].
  destruct (@C10_merged_tags engine util pawn_race W)
    as (tags & si & i & d & H1 & H2 & H3 & _).
  exists tags. repeat split; assumption.
Defined.

Lemma cook_tags_in_order_witness :
  cook_ castled = Ok ["mateIn1"; "mate"; "kingsideAttack"; "oneMove"]
  /\ Subseq ["mateIn1"; "mate"; "kingsideAttack"; "oneMove"] all_tags
  /\ NoDup ["mateIn1"; "mate"; "kingsideAttack"; "oneMove"].
Proof.
  assert (H : cook_ castled = Ok ["mateIn1"; "mate"; "kingsideAttack"; "oneMove"])
    by (vm_compute; reflexivity).
  split; [exact H|].
  exact (@cook_tags_in_order engine util castled _ H).
Defined.

Lemma cook_returns_on_sound_lines_witness :
  sound pawn_race_cut /\ exists tags, cook_ pawn_race_cut = Ok tags.
Proof.
  assert (W : @sound engine pawn_race_cut)
    by (constructor; [vm_compute; lia | vm_compute; reflexivity]).
  split; [exact W|].
  exact (@cook_returns_on_sound_lines engine util pawn_race_cut W).
Defined.

Lemma short_line_index_error_witness :
  (List.length (game_line pawn_race_start) < 2)%nat
  /\ is_checkmate (gboard (game_end pawn_race_start)) = false
  /\ cook_ pawn_race_start = Raise IndexError
  /\ defensive_move pawn_race_start = Raise IndexError.
Proof.
  assert (L : (List.length (game_line pawn_race_start) < 2)%nat) by (vm_compute; lia).
  assert (C : is_checkmate (gboard (game_end pawn_race_start)) = false)
    by (vm_compute; reflexivity).
  split; [exact L|]. split; [exact C|].
  exact (@short_line_index_error engine util pawn_race_start L C).
Defined.

Lemma short_lines_lack_later_tags_witness :
  cook_ discovered = Ok ["advantage"; "discoveredAttack"; "oneMove"]
  /\ (List.length (mainline discovered) < 4)%nat
  /\ In "fork" later_tags
  /\ ~ In "fork" ["advantage"; "discoveredAttack"; "oneMove"].
Proof.
  assert (H : cook_ discovered = Ok ["advantage"; "discoveredAttack"; "oneMove"])
    by (vm_compute; reflexivity).
  assert (L : (List.length (mainline discovered) < 4)%nat) by (vm_compute; lia).
  assert (T : In "fork" later_tags) by (vm_compute; tauto).
  split; [exact H|]. split; [exact L|]. split; [exact T|].
  exact (@short_lines_lack_later_tags engine util discovered _ "fork" H L T).
Defined.

Lemma exposed_king_needs_six_nodes_witness :
  cook_ pawn_race = Ok ["equality"; "defensiveMove"; "pawnEndgame"; "short"]
  /\ (List.length (mainline pawn_race) < 6)%nat
  /\ ~ In "exposedKing" ["equality"; "defensiveMove"; "pawnEndgame"; "short"].
Proof.
  assert (H : cook_ pawn_race = Ok ["equality"; "defensiveMove"; "pawnEndgame"; "short"])
    by (vm_compute; reflexivity).
  assert (L : (List.length (mainline pawn_race) < 6)%nat) by (vm_compute; lia).
  split; [exact H|]. split; [exact L|].
  exact (@exposed_king_needs_six_nodes engine util pawn_race _ H L).
Defined.

Lemma mate_in_counts_moves_witness :
  cook_ smothered = Ok ["mateIn1"; "mate"; "smotheredMate"; "oneMove"]
  /\ (In "mateIn5" ["mateIn1"; "mate"; "smotheredMate"; "oneMove"] <->
      In "mate" ["mateIn1"; "mate"; "smotheredMate"; "oneMove"]
      /\ 5 <= len (mainline smothered) / 2).
Proof.
  assert (H : cook_ smothered = Ok ["mateIn1"; "mate"; "smotheredMate"; "oneMove"])
    by (vm_compute; reflexivity).
  split; [exact H|].
  destruct (@mate_in_counts_moves engine util smothered _ H) as (_ & _ & K).
  exact K.
Defined.

Lemma under_promotion_with_promotion_witness :
  cook_ underpromotion
    = Ok ["crushing"; "advancedPawn"; "promotion"; "underPromotion"; "oneMove"]
  /\ In "underPromotion"
        ["crushing"; "advancedPawn"; "promotion"; "underPromotion"; "oneMove"]
  /\ In "promotion"
        ["crushing"; "advancedPawn"; "promotion"; "underPromotion"; "oneMove"].
Proof.
  assert (H : cook_ underpromotion
              = Ok ["crushing"; "advancedPawn"; "promotion"; "underPromotion"; "oneMove"])
    by (vm_compute; reflexivity).
  assert (T : In "underPromotion"
                 ["crushing"; "advancedPawn"; "promotion"; "underPromotion"; "oneMove"])
    by (cbn [In]; tauto).
  split; [exact H|]. split; [exact T|].
  exact (@under_promotion_with_promotion engine util underpromotion _ H T).
Defined.

Lemma discovered_check_tagged_witness :
  cook_ discovered = Ok ["advantage"; "discoveredAttack"; "oneMove"]
  /\ discovered_check discovered = true
  /\ In "discoveredAttack" ["advantage"; "discoveredAttack"; "oneMove"].
Proof.
  assert (H : cook_ discovered = Ok ["advantage"; "discoveredAttack"; "oneMove"])
    by (vm_compute; reflexivity).
  assert (D : @discovered_check engine discovered = true) by (vm_compute; reflexivity).
  split; [exact H|]. split; [exact D|].
  exact (@discovered_check_tagged engine util discovered _ H D).
Defined.

Lemma side_attacks_exclusive_witness :
  kingside_attack castled = Ok true /\ queenside_attack castled = Ok false
  /\ true && false = false.
Proof.
  assert (K : kingside_attack castled = Ok true) by (vm_compute; reflexivity).
  assert (Q : queenside_attack castled = Ok false) by (vm_compute; reflexivity).
  split; [exact K|]. split; [exact Q|].
  exact (@side_attacks_exclusive engine util castled true false K Q).
Defined.

Lemma side_attack_king_on_a1_witness :
  exists n0,
    index (mainline corner) 0 = Ok n0
    /\ king (board n0) (negb (pov corner)) = Some 0
    /\ kingside_attack corner = Ok false /\ queenside_attack corner = Ok false.
Proof.
  eexists. split; [reflexivity|].
  assert (K : king (board (mkChild (game_root corner) []
                             (mkPly (mkMove 15 23 None)
                                    (push (game_root corner) (mkMove 15 23 None)))
                             [mkPly (mkMove 63 62 None)
                                    (push (push (game_root corner) (mkMove 15 23 None))
                                          (mkMove 63 62 None))]))
                   (negb (pov corner)) = Some 0) by (vm_compute; reflexivity).
  split; [exact K|].
  exact (@side_attack_king_on_a1 engine util corner _ eq_refl K).
Defined.

Lemma side_attack_tag_conditions_witness :
  cook_ castled = Ok ["mateIn1"; "mate"; "kingsideAttack"; "oneMove"]
  /\ In "kingsideAttack" ["mateIn1"; "mate"; "kingsideAttack"; "oneMove"]
  /\ In "kingsideAttack" side_tags
  /\ exists n0 k,
       index (mainline castled) 0 = Ok n0
       /\ king (board n0) (negb (pov castled)) = Some k
       /\ k <> 0
       /\ 20 <= len (piece_map_items (board n0)).
Proof.
  assert (H : cook_ castled = Ok ["mateIn1"; "mate"; "kingsideAttack"; "oneMove"])
    by (vm_compute; reflexivity).
  assert (T : In "kingsideAttack" ["mateIn1"; "mate"; "kingsideAttack"; "oneMove"])
    by (cbn [In]; tauto).
  assert (S : In "kingsideAttack" side_tags) by (cbn [side_tags In]; tauto).
  split; [exact H|]. split; [exact T|]. split; [exact S|].
  destruct (@side_attack_tag_conditions engine util castled _ _ H T S)
    as (n0 & k & I0 & K & K0 & _ & _ & KS & _).
  exists n0, k. repeat split; try assumption. now apply KS.
Defined.

Lemma queen_rook_endgame_tag_witness :
  cook_ queen_rook = Ok ["crushing"; "defensiveMove"; "queenRookEndgame"; "oneMove"]
  /\ (In "queenRookEndgame" ["crushing"; "defensiveMove"; "queenRookEndgame"; "oneMove"]
      <-> queen_rook_endgame queen_rook = Ok true).
Proof.
  assert (H : cook_ queen_rook
              = Ok ["crushing"; "defensiveMove"; "queenRookEndgame"; "oneMove"])
    by (vm_compute; reflexivity).
  split; [exact H|].
  exact (@queen_rook_endgame_tag engine util queen_rook _ H).
Defined.

Lemma dovetail_excludes_witness :
  dovetail_mate dovetail = Ok true
  /\ back_rank_mate dovetail = Ok false /\ anastasia_mate dovetail = Ok false
  /\ hook_mate dovetail = Ok false /\ arabian_mate dovetail = Ok false.
Proof.
  assert (H : dovetail_mate dovetail = Ok true) by (vm_compute; reflexivity).
  split; [exact H|].
  exact (@dovetail_excludes engine util dovetail H).
Defined.

Lemma anastasia_excludes_witness :
  anastasia_mate anastasia = Ok true
  /\ back_rank_mate anastasia = Ok false /\ arabian_mate anastasia = Ok false
  /\ dovetail_mate anastasia = Ok false.
Proof.
  assert (H : anastasia_mate anastasia = Ok true) by (vm_compute; reflexivity).
  split; [exact H|].
  exact (@anastasia_excludes engine util anastasia H).
Defined.

Lemma smothered_mate_sound_witness :
  smothered_mate smothered = Ok true
  /\ exists k,
       king (gboard (game_end smothered)) (negb (pov smothered)) = Some k
       /\ forall s, In s SQUARES -> square_distance s k = 1 ->
            exists q, piece_at (gboard (game_end smothered)) s = Some q
                      /\ color q = negb (pov smothered).
Proof.
  assert (H : smothered_mate smothered = Ok true) by (vm_compute; reflexivity).
  split; [exact H|].
  destruct (@smothered_mate_sound engine smothered H) as (k & K & _ & A).
  exists k. split; [exact K | exact A].
Defined.

Lemma one_worker_per_document_witness :
  0 < 4 /\ (5 <= String.length "Xq7Lp01a")%nat
  /\ exists i,
       In i (range 4) /\ worker_takes 4 i "Xq7Lp01a" = Some true
       /\ forall j, worker_takes 4 j "Xq7Lp01a" = Some true -> j = i.
Proof.
  assert (T : 0 < 4) by lia.
  assert (L : (5 <= String.length "Xq7Lp01a")%nat) by (vm_compute; lia).
  split; [exact T|]. split; [exact L|].
  exact (one_worker_per_document 4 "Xq7Lp01a" T L).
Defined.

Lemma retag_idempotent_witness :
  retag false ["mateIn1"; "mate"] (Some (Some ["+short"; "-zugzwang"]))
    = Updated ["+mateIn1"; "+mate"; "-zugzwang"]
  /\ retag false ["mateIn1"; "mate"] (Some (Some ["+mateIn1"; "+mate"; "-zugzwang"]))
     = Untouched.
Proof.
  assert (H : retag false ["mateIn1"; "mate"] (Some (Some ["+short"; "-zugzwang"]))
              = Updated ["+mateIn1"; "+mate"; "-zugzwang"]) by (vm_compute; reflexivity).
  split; [exact H|].
  exact (retag_idempotent _ _ _ H).
Defined.

Lemma retag_keeps_zugzwang_witness :
  cook_ smothered = Ok ["mateIn1"; "mate"; "smotheredMate"; "oneMove"]
  /\ retag false ["mateIn1"; "mate"; "smotheredMate"; "oneMove"]
           (Some (Some ["+fork"; "-zugzwang"]))
     = Updated ["+mateIn1"; "+mate"; "+smotheredMate"; "+oneMove"; "-zugzwang"]
  /\ filter is_zug ["+mateIn1"; "+mate"; "+smotheredMate"; "+oneMove"; "-zugzwang"]
     = filter is_zug ["+fork"; "-zugzwang"].
Proof.
  assert (H : cook_ smothered = Ok ["mateIn1"; "mate"; "smotheredMate"; "oneMove"])
    by (vm_compute; reflexivity).
  assert (R : retag false ["mateIn1"; "mate"; "smotheredMate"; "oneMove"]
                    (Some (Some ["+fork"; "-zugzwang"]))
              = Updated ["+mateIn1"; "+mate"; "+smotheredMate"; "+oneMove"; "-zugzwang"])
    by (vm_compute; reflexivity).
  split; [exact H|]. split; [exact R|].
  destruct (@retag_keeps_zugzwang engine util smothered _ _ _ H R) as (_ & K & _).
  exact K.
Defined.
